(** * Civic issue reporting: escalation engine and accept/resolve gate

    A shallow embedding of
      - [backend/src/services/escalationService.js]
        (directory lookup, escalation transition, escalation sweep), and
      - [backend/src/controllers/employeeController.js]
        (exclusive acceptance and resolution of an issue),
    together with the properties the design document states about them.

    Conventions of the embedding.
      - The two MongoDB collections are finite maps from [_id] to document.
      - A [Date] is its number of milliseconds since the epoch.
      - A document field that may be missing, [null] or a value is a
        [field]; where neither the queries nor the JavaScript code tell
        [null] from missing, the field is an [option].
      - A JavaScript number is a binary64 [float].
      - An operation runs at one instant [now]: every [new Date()] in it
        reads [now].
      - Reading the store and the conditional update do not fail; saving a
        document and sending a notification fail when the environment
        says so.  Code that can throw runs in the monad [M]: a thrown
        error keeps the writes made before it. *)

From Stdlib Require Import ZArith QArith Floats Ascii Sorted Permutation.
From Stdlib Require OrdersEx.
From stdpp Require Import gmap strings list.

Open Scope Z_scope.

(** ** Documents *)

Abbreviation ObjectId := nat (only parsing).
Abbreviation Date := Z (only parsing).

(** A field of a stored document: missing, [null], or holding a value. *)
Inductive field (A : Type) : Type :=
  | Absent
  | Null
  | Val (a : A).
Arguments Absent {A}.
Arguments Null {A}.
Arguments Val {A} a.

(** What JavaScript reads from the field of a loaded document:
    [undefined] and [null] are both "no value". *)
Definition field_value {A} (f : field A) : option A :=
  match f with
  | Val a => Some a
  | _ => None
  end.

(** JavaScript truthiness of a string-valued property. *)
Definition truthy_string (s : option string) : bool :=
  match s with
  | Some s => negb (s =? "")%string
  | None => false
  end.

(** JavaScript truthiness of a number-valued property: [0], [-0] and [NaN]
    are falsy, like [undefined]. *)
Definition truthy_number (x : option float) : bool :=
  match x with
  | Some x => negb (PrimFloat.eqb x 0%float || PrimFloat.is_nan x)
  | None => false
  end.

Definition string_in (s : string) (l : list string) : bool :=
  existsb (String.eqb s) l.

Module User.
Record t := {
  name : string;
  role : string;
  isActive : bool;
  departments : list string;
  department : option string;
  loginCount : Z;
  lastLogin : option Date;
  points : option Z
}.

Definition set_points (v : option Z) (u : t) : t :=
  {| name := name u; role := role u; isActive := isActive u;
     departments := departments u; department := department u;
     loginCount := loginCount u; lastLogin := lastLogin u; points := v |}.
End User.

(** A stored document together with its [_id]. *)
Abbreviation doc A := (ObjectId * A)%type (only parsing).

(** ** Directory lookup ([findUserForRole], [findAllUsersForRole]) *)

(** The departments a staff member services: the [departments] array and
    the legacy single [department]. *)
Definition user_departments (u : User.t) : list string :=
  User.departments u ++ option_list (User.department u).

(** [{ role, isActive: true }] *)
Definition q_role (role : string) (u : User.t) : bool :=
  (User.role u =? role)%string && User.isActive u.

(** [$or: [{ departments: { $in: [category, 'All'] } },
           { department: { $in: [category, 'All'] } }]] *)
Definition q_department_in (category : string) (u : User.t) : bool :=
  existsb (fun d => string_in d [category; "All"]) (User.departments u)
  || match User.department u with
     | Some d => string_in d [category; "All"]
     | None => false
     end.

(** [$or: [{ departments: 'All' }, { department: 'All' }]]: an equality
    query on an array field matches when the array contains the value. *)
Definition q_department_all (u : User.t) : bool :=
  existsb (fun d => (d =? "All")%string) (User.departments u)
  || match User.department u with
     | Some d => (d =? "All")%string
     | None => false
     end.

(** [.sort({ loginCount: 1, lastLogin: -1 })]: ascending login count, then
    descending last login (a missing last login sorts last). *)
Definition lastLogin_desc (a b : option Date) : bool :=
  match a, b with
  | Some x, Some y => y <=? x
  | Some _, None => true
  | None, Some _ => false
  | None, None => true
  end.

Definition sort_key_le (a b : doc User.t) : bool :=
  (User.loginCount a.2 <? User.loginCount b.2)
  || ((User.loginCount a.2 =? User.loginCount b.2)
      && lastLogin_desc (User.lastLogin a.2) (User.lastLogin b.2)).

Fixpoint insert_sorted {A} (le : A -> A -> bool) (x : A) (l : list A) : list A :=
  match l with
  | [] => [x]
  | y :: l' => if le x y then x :: l else y :: insert_sorted le x l'
  end.

Definition sort_by {A} (le : A -> A -> bool) (l : list A) : list A :=
  foldr (insert_sorted le) [] l.

(** [User.find(q).sort(...)] *)
Definition User_find (q : User.t -> bool) (users : gmap ObjectId User.t)
  : list (doc User.t) :=
  sort_by sort_key_le (List.filter (fun d => q d.2) (map_to_list users)).

(** [User.findOne(q).sort(...)]: the first document in sort order. *)
Definition User_findOne (q : User.t -> bool) (users : gmap ObjectId User.t)
  : option (doc User.t) :=
  head (User_find q users).

Definition is_empty {A} (l : list A) : bool :=
  match l with
  | [] => true
  | _ => false
  end.

Definition findUserForRole (users : gmap ObjectId User.t)
    (role category : string) : option (doc User.t) :=
  let user :=
    User_findOne (fun u => q_role role u && q_department_in category u) users in
  let user :=
    match user with
    | None => User_findOne (fun u => q_role role u && q_department_all u) users
    | Some _ => user
    end in
  let user :=
    match user with
    | None => User_findOne (q_role role) users
    | Some _ => user
    end in
  user.

Definition findAllUsersForRole (users : gmap ObjectId User.t)
    (role category : string) : list (doc User.t) :=
  let found :=
    User_find (fun u => q_role role u && q_department_in category u) users in
  let found :=
    if is_empty found
    then User_find (fun u => q_role role u && q_department_all u) users
    else found in
  let found :=
    if is_empty found then User_find (q_role role) users else found in
  found.

(** An active staff member [d] of the collection who carries [role]. *)
Definition active_with_role (users : gmap ObjectId User.t) (role : string)
    (d : doc User.t) : Prop :=
  users !! d.1 = Some d.2 /\ User.role d.2 = role /\ User.isActive d.2 = true.

(** ** The issue document *)

Module Issue.
(** One entry of the append-only escalation log. *)
Record HistoryEntry := {
  fromRole : field string;
  toRole : string;
  escalatedBy : ObjectId;
  reason : string;
  escalatedAt : Date
}.

(** The [resolved] sub-document. *)
Record Resolved := {
  photo : option string;
  location : option (float * float);
  resolvedBy : option ObjectId
}.

(** [latitude] and [longitude] are [location.coordinates.latitude] and
    [location.coordinates.longitude]. *)
Record t := {
  title : string;
  category : string;
  priority : option string;
  status : string;
  latitude : option float;
  longitude : option float;
  reportedBy : option ObjectId;
  assignedRole : field string;
  assignedTo : option ObjectId;
  assignedBy : option ObjectId;
  assignedAt : field Date;
  acceptedBy : option ObjectId;
  acceptedAt : option Date;
  escalationDeadline : field Date;
  escalationHistory : list HistoryEntry;
  createdAt : option Date;
  resolvedAt : option Date;
  resolved : option Resolved;
  actualResolutionTime : option Z;
  pointsAwarded : bool
}.

Definition set_status (v : string) (i : t) : t :=
  {| title := title i; category := category i; priority := priority i;
     status := v; latitude := latitude i; longitude := longitude i;
     reportedBy := reportedBy i; assignedRole := assignedRole i;
     assignedTo := assignedTo i; assignedBy := assignedBy i;
     assignedAt := assignedAt i; acceptedBy := acceptedBy i;
     acceptedAt := acceptedAt i;
     escalationDeadline := escalationDeadline i;
     escalationHistory := escalationHistory i; createdAt := createdAt i;
     resolvedAt := resolvedAt i; resolved := resolved i;
     actualResolutionTime := actualResolutionTime i;
     pointsAwarded := pointsAwarded i |}.

Definition set_assignedRole (v : field string) (i : t) : t :=
  {| title := title i; category := category i; priority := priority i;
     status := status i; latitude := latitude i; longitude := longitude i;
     reportedBy := reportedBy i; assignedRole := v;
     assignedTo := assignedTo i; assignedBy := assignedBy i;
     assignedAt := assignedAt i; acceptedBy := acceptedBy i;
     acceptedAt := acceptedAt i;
     escalationDeadline := escalationDeadline i;
     escalationHistory := escalationHistory i; createdAt := createdAt i;
     resolvedAt := resolvedAt i; resolved := resolved i;
     actualResolutionTime := actualResolutionTime i;
     pointsAwarded := pointsAwarded i |}.

Definition set_assignedTo (v : option ObjectId) (i : t) : t :=
  {| title := title i; category := category i; priority := priority i;
     status := status i; latitude := latitude i; longitude := longitude i;
     reportedBy := reportedBy i; assignedRole := assignedRole i;
     assignedTo := v; assignedBy := assignedBy i;
     assignedAt := assignedAt i; acceptedBy := acceptedBy i;
     acceptedAt := acceptedAt i;
     escalationDeadline := escalationDeadline i;
     escalationHistory := escalationHistory i; createdAt := createdAt i;
     resolvedAt := resolvedAt i; resolved := resolved i;
     actualResolutionTime := actualResolutionTime i;
     pointsAwarded := pointsAwarded i |}.

Definition set_assignedBy (v : option ObjectId) (i : t) : t :=
  {| title := title i; category := category i; priority := priority i;
     status := status i; latitude := latitude i; longitude := longitude i;
     reportedBy := reportedBy i; assignedRole := assignedRole i;
     assignedTo := assignedTo i; assignedBy := v;
     assignedAt := assignedAt i; acceptedBy := acceptedBy i;
     acceptedAt := acceptedAt i;
     escalationDeadline := escalationDeadline i;
     escalationHistory := escalationHistory i; createdAt := createdAt i;
     resolvedAt := resolvedAt i; resolved := resolved i;
     actualResolutionTime := actualResolutionTime i;
     pointsAwarded := pointsAwarded i |}.

Definition set_assignedAt (v : field Date) (i : t) : t :=
  {| title := title i; category := category i; priority := priority i;
     status := status i; latitude := latitude i; longitude := longitude i;
     reportedBy := reportedBy i; assignedRole := assignedRole i;
     assignedTo := assignedTo i; assignedBy := assignedBy i;
     assignedAt := v; acceptedBy := acceptedBy i;
     acceptedAt := acceptedAt i;
     escalationDeadline := escalationDeadline i;
     escalationHistory := escalationHistory i; createdAt := createdAt i;
     resolvedAt := resolvedAt i; resolved := resolved i;
     actualResolutionTime := actualResolutionTime i;
     pointsAwarded := pointsAwarded i |}.

Definition set_acceptedBy (v : option ObjectId) (i : t) : t :=
  {| title := title i; category := category i; priority := priority i;
     status := status i; latitude := latitude i; longitude := longitude i;
     reportedBy := reportedBy i; assignedRole := assignedRole i;
     assignedTo := assignedTo i; assignedBy := assignedBy i;
     assignedAt := assignedAt i; acceptedBy := v;
     acceptedAt := acceptedAt i;
     escalationDeadline := escalationDeadline i;
     escalationHistory := escalationHistory i; createdAt := createdAt i;
     resolvedAt := resolvedAt i; resolved := resolved i;
     actualResolutionTime := actualResolutionTime i;
     pointsAwarded := pointsAwarded i |}.

Definition set_acceptedAt (v : option Date) (i : t) : t :=
  {| title := title i; category := category i; priority := priority i;
     status := status i; latitude := latitude i; longitude := longitude i;
     reportedBy := reportedBy i; assignedRole := assignedRole i;
     assignedTo := assignedTo i; assignedBy := assignedBy i;
     assignedAt := assignedAt i; acceptedBy := acceptedBy i;
     acceptedAt := v; escalationDeadline := escalationDeadline i;
     escalationHistory := escalationHistory i; createdAt := createdAt i;
     resolvedAt := resolvedAt i; resolved := resolved i;
     actualResolutionTime := actualResolutionTime i;
     pointsAwarded := pointsAwarded i |}.

Definition set_escalationDeadline (v : field Date) (i : t) : t :=
  {| title := title i; category := category i; priority := priority i;
     status := status i; latitude := latitude i; longitude := longitude i;
     reportedBy := reportedBy i; assignedRole := assignedRole i;
     assignedTo := assignedTo i; assignedBy := assignedBy i;
     assignedAt := assignedAt i; acceptedBy := acceptedBy i;
     acceptedAt := acceptedAt i; escalationDeadline := v;
     escalationHistory := escalationHistory i; createdAt := createdAt i;
     resolvedAt := resolvedAt i; resolved := resolved i;
     actualResolutionTime := actualResolutionTime i;
     pointsAwarded := pointsAwarded i |}.

Definition set_escalationHistory (v : list HistoryEntry) (i : t) : t :=
  {| title := title i; category := category i; priority := priority i;
     status := status i; latitude := latitude i; longitude := longitude i;
     reportedBy := reportedBy i; assignedRole := assignedRole i;
     assignedTo := assignedTo i; assignedBy := assignedBy i;
     assignedAt := assignedAt i; acceptedBy := acceptedBy i;
     acceptedAt := acceptedAt i;
     escalationDeadline := escalationDeadline i; escalationHistory := v;
     createdAt := createdAt i; resolvedAt := resolvedAt i;
     resolved := resolved i;
     actualResolutionTime := actualResolutionTime i;
     pointsAwarded := pointsAwarded i |}.

Definition set_resolvedAt (v : option Date) (i : t) : t :=
  {| title := title i; category := category i; priority := priority i;
     status := status i; latitude := latitude i; longitude := longitude i;
     reportedBy := reportedBy i; assignedRole := assignedRole i;
     assignedTo := assignedTo i; assignedBy := assignedBy i;
     assignedAt := assignedAt i; acceptedBy := acceptedBy i;
     acceptedAt := acceptedAt i;
     escalationDeadline := escalationDeadline i;
     escalationHistory := escalationHistory i; createdAt := createdAt i;
     resolvedAt := v; resolved := resolved i;
     actualResolutionTime := actualResolutionTime i;
     pointsAwarded := pointsAwarded i |}.

Definition set_resolved (v : option Resolved) (i : t) : t :=
  {| title := title i; category := category i; priority := priority i;
     status := status i; latitude := latitude i; longitude := longitude i;
     reportedBy := reportedBy i; assignedRole := assignedRole i;
     assignedTo := assignedTo i; assignedBy := assignedBy i;
     assignedAt := assignedAt i; acceptedBy := acceptedBy i;
     acceptedAt := acceptedAt i;
     escalationDeadline := escalationDeadline i;
     escalationHistory := escalationHistory i; createdAt := createdAt i;
     resolvedAt := resolvedAt i; resolved := v;
     actualResolutionTime := actualResolutionTime i;
     pointsAwarded := pointsAwarded i |}.

Definition set_actualResolutionTime (v : option Z) (i : t) : t :=
  {| title := title i; category := category i; priority := priority i;
     status := status i; latitude := latitude i; longitude := longitude i;
     reportedBy := reportedBy i; assignedRole := assignedRole i;
     assignedTo := assignedTo i; assignedBy := assignedBy i;
     assignedAt := assignedAt i; acceptedBy := acceptedBy i;
     acceptedAt := acceptedAt i;
     escalationDeadline := escalationDeadline i;
     escalationHistory := escalationHistory i; createdAt := createdAt i;
     resolvedAt := resolvedAt i; resolved := resolved i;
     actualResolutionTime := v; pointsAwarded := pointsAwarded i |}.

Definition set_pointsAwarded (v : bool) (i : t) : t :=
  {| title := title i; category := category i; priority := priority i;
     status := status i; latitude := latitude i; longitude := longitude i;
     reportedBy := reportedBy i; assignedRole := assignedRole i;
     assignedTo := assignedTo i; assignedBy := assignedBy i;
     assignedAt := assignedAt i; acceptedBy := acceptedBy i;
     acceptedAt := acceptedAt i;
     escalationDeadline := escalationDeadline i;
     escalationHistory := escalationHistory i; createdAt := createdAt i;
     resolvedAt := resolvedAt i; resolved := resolved i;
     actualResolutionTime := actualResolutionTime i;
     pointsAwarded := v |}.

Definition set_latitude (v : option float) (i : t) : t :=
  {| title := title i; category := category i; priority := priority i;
     status := status i; latitude := v; longitude := longitude i;
     reportedBy := reportedBy i; assignedRole := assignedRole i;
     assignedTo := assignedTo i; assignedBy := assignedBy i;
     assignedAt := assignedAt i; acceptedBy := acceptedBy i;
     acceptedAt := acceptedAt i;
     escalationDeadline := escalationDeadline i;
     escalationHistory := escalationHistory i; createdAt := createdAt i;
     resolvedAt := resolvedAt i; resolved := resolved i;
     actualResolutionTime := actualResolutionTime i;
     pointsAwarded := pointsAwarded i |}.

Definition set_longitude (v : option float) (i : t) : t :=
  {| title := title i; category := category i; priority := priority i;
     status := status i; latitude := latitude i; longitude := v;
     reportedBy := reportedBy i; assignedRole := assignedRole i;
     assignedTo := assignedTo i; assignedBy := assignedBy i;
     assignedAt := assignedAt i; acceptedBy := acceptedBy i;
     acceptedAt := acceptedAt i;
     escalationDeadline := escalationDeadline i;
     escalationHistory := escalationHistory i; createdAt := createdAt i;
     resolvedAt := resolvedAt i; resolved := resolved i;
     actualResolutionTime := actualResolutionTime i;
     pointsAwarded := pointsAwarded i |}.

Definition empty_resolved : Resolved :=
  {| photo := None; location := None; resolvedBy := None |}.
End Issue.

(** ** Query operators of the store *)

(** [{ f: { $exists: true } }]: the field is present, whatever it holds. *)
Definition q_exists {A} (f : field A) : bool :=
  match f with
  | Absent => false
  | _ => true
  end.

(** [{ f: null }] matches a field that holds [null] and a missing field. *)
Definition q_null {A} (f : field A) : bool :=
  match f with
  | Val _ => false
  | _ => true
  end.

(** [{ f: { $lte: d } }] on a date field: only a date compares. *)
Definition q_lte (f : option Date) (d : Date) : bool :=
  match f with
  | Some x => x <=? d
  | None => false
  end.

(** [{ f: { $in: l } }] on a string field. *)
Definition q_in (f : field string) (l : list string) : bool :=
  match f with
  | Val s => string_in s l
  | _ => false
  end.

(** [{ f: { $ne: s } }] also matches a field that is missing or [null]. *)
Definition q_ne (f : field string) (s : string) : bool :=
  match f with
  | Val x => negb (x =? s)%string
  | _ => true
  end.

(** ** The escalation sweep: selection of overdue issues *)

(** The filter of [Issue.find] in [checkAndEscalateIssues]. *)
Definition overdueFilter (now : Date) (i : Issue.t) : bool :=
  string_in (Issue.status i) ["reported"; "in-progress"; "escalated"]
  && ((q_in (Issue.assignedRole i) ["field-staff"; "supervisor"]
       && q_ne (Issue.assignedRole i) "commissioner"
       && (q_lte (field_value (Issue.escalationDeadline i)) now
           && q_exists (Issue.escalationDeadline i)))
      || (negb (q_exists (Issue.escalationDeadline i))
          && (q_in (Issue.assignedRole i) ["field-staff"; "supervisor"]
              && q_exists (Issue.assignedRole i))
          && q_exists (Issue.assignedAt i))
      || (q_null (Issue.escalationDeadline i)
          && (q_in (Issue.assignedRole i) ["field-staff"; "supervisor"]
              && q_exists (Issue.assignedRole i))
          && q_lte (Issue.createdAt i) (now - 5 * 60 * 1000))
      || (negb (q_exists (Issue.assignedRole i))
          && (Issue.status i =? "reported")%string
          && q_lte (Issue.createdAt i) (now - 5 * 60 * 1000))).


(** *** Reading the selection *)

(** The grace window of the sweep, in milliseconds. *)
Definition graceWindow : Z := 5 * 60 * 1000.

(** The issue was created at least (or, when [strict], more than) the grace
    window ago. *)
Definition older_than_grace (strict : bool) (now : Date) (i : Issue.t) : Prop :=
  exists c, Issue.createdAt i = Some c /\
    if strict then graceWindow < now - c else graceWindow <= now - c.

Definition role_below_commissioner (i : Issue.t) : Prop :=
  Issue.assignedRole i = Val "field-staff"%string \/
  Issue.assignedRole i = Val "supervisor"%string.

Definition sweep_status (i : Issue.t) : Prop :=
  Issue.status i = "reported"%string \/
  Issue.status i = "in-progress"%string \/
  Issue.status i = "escalated"%string.

(** The selection rule in the design document's words: clause (c) asks for
    a deadline that is [null], and the age has to exceed the window. *)
Definition selected_as_documented (now : Date) (i : Issue.t) : Prop :=
  sweep_status i /\
  ((role_below_commissioner i /\
    exists d, Issue.escalationDeadline i = Val d /\ d <= now)
   \/ (role_below_commissioner i /\ Issue.escalationDeadline i = Absent /\
       Issue.assignedAt i <> Absent)
   \/ (role_below_commissioner i /\ Issue.escalationDeadline i = Null /\
       older_than_grace true now i)
   \/ (Issue.assignedRole i = Absent /\ Issue.status i = "reported"%string /\
       older_than_grace true now i)).

(** The selection rule the query implements: clause (c) takes a deadline
    that is [null] or missing, and an age of exactly the window counts. *)
Definition selected_by_query (now : Date) (i : Issue.t) : Prop :=
  sweep_status i /\
  ((role_below_commissioner i /\
    exists d, Issue.escalationDeadline i = Val d /\ d <= now)
   \/ (role_below_commissioner i /\ Issue.escalationDeadline i = Absent /\
       Issue.assignedAt i <> Absent)
   \/ (role_below_commissioner i /\
       (Issue.escalationDeadline i = Null \/
        Issue.escalationDeadline i = Absent) /\
       older_than_grace false now i)
   \/ (Issue.assignedRole i = Absent /\ Issue.status i = "reported"%string /\
       older_than_grace false now i)).

(** ** The world: the two collections and the notifications sent *)

Inductive Notification : Type :=
  | AssignmentNotice (issue recipient actor : ObjectId)
  | ResolutionNotice (issue actor : ObjectId).

Record World := {
  issues : gmap ObjectId Issue.t;
  users : gmap ObjectId User.t;
  sent : list Notification
}.

Definition set_issues (v : gmap ObjectId Issue.t) (w : World) : World :=
  {| issues := v; users := users w; sent := sent w |}.

Definition set_users (v : gmap ObjectId User.t) (w : World) : World :=
  {| issues := issues w; users := v; sent := sent w |}.

Definition set_sent (v : list Notification) (w : World) : World :=
  {| issues := issues w; users := users w; sent := v |}.

(** What the two files use and do not define: the methods of the Issue
    model, the failures of the store and of the notification service, and
    the numeric functions of the JavaScript runtime.
      - [calculateEscalationDeadline now issue priority role] is
        [issue.calculateEscalationDeadline(priority, role)] called at [now];
      - [Issue_assign now assignee actor role] and
        [Issue_escalate now role actor reason] are what [issue.assign]
        and [issue.escalate] change in the document before they save it;
      - [Issue_save_error], [User_save_error] and [notify_error] say whether
        saving that document, or sending that notification, throws, and with
        which message. *)
Record Env := {
  calculateEscalationDeadline : Date -> Issue.t -> string -> string -> Date;
  Issue_assign : Date -> ObjectId -> ObjectId -> string -> Issue.t -> Issue.t;
  Issue_escalate : Date -> string -> ObjectId -> string -> Issue.t -> Issue.t;
  Issue_save_error : ObjectId -> Issue.t -> option string;
  User_save_error : ObjectId -> User.t -> option string;
  notify_error : Notification -> option string;
  Math_sin : float -> float;
  Math_cos : float -> float;
  Math_atan2 : float -> float -> float;
  parseFloat : string -> float
}.

(** ** Computations that may throw *)

Definition M (A : Type) : Type := World -> (string + A) * World.

Definition ret {A} (a : A) : M A := fun w => (inr a, w).

Definition bind {A B} (m : M A) (k : A -> M B) : M B :=
  fun w =>
    match m w with
    | (inl e, w') => (inl e, w')
    | (inr a, w') => k a w'
    end.

Notation "x <- m ;; k" := (bind m (fun x => k))
  (at level 100, m at next level, right associativity).
Notation "m ;;; k" := (bind m (fun _ => k))
  (at level 100, right associativity).

Definition get_users : M (gmap ObjectId User.t) := fun w => (inr (users w), w).

Section Service.
Context (E : Env).

(** [issue.save()] *)
Definition Issue_save (id : ObjectId) (issue : Issue.t) : M unit :=
  fun w =>
    match Issue_save_error E id issue with
    | Some e => (inl e, w)
    | None => (inr tt, set_issues (<[id := issue]> (issues w)) w)
    end.

(** [notificationService.notifyIssueAssignment(issue, user, actor)] *)
Definition notifyIssueAssignment (id recipient actor : ObjectId) : M unit :=
  fun w =>
    match notify_error E (AssignmentNotice id recipient actor) with
    | Some e => (inl e, w)
    | None =>
        (inr tt, set_sent (sent w ++ [AssignmentNotice id recipient actor]) w)
    end.

(** [await Promise.all(users.map(user => notifyIssueAssignment(issue,
    user, actor)))]: every notification is started; the call throws when
    one of them does, with the first error. *)
Fixpoint notifyAll (id : ObjectId) (recipients : list (doc User.t))
    (actor : ObjectId) : M unit :=
  match recipients with
  | [] => ret tt
  | r :: rest =>
      fun w =>
        match notifyIssueAssignment id r.1 actor w with
        | (inl e, w') => (inl e, (notifyAll id rest actor w').2)
        | (inr _, w') => notifyAll id rest actor w'
        end
  end.

(** What [escalateIssue] and [assignToFieldStaff] return when they moved
    the issue; [null] is [None]. *)
Record Escalation := {
  toRole : string;
  assignedTo : ObjectId;
  notifiedUsers : option nat
}.

(** [assignToFieldStaff(issue)]; the second component is the loaded
    document as the call leaves it. *)
Definition assignToFieldStaff (now : Date) (id : ObjectId) (issue : Issue.t)
  : M (option Escalation * Issue.t) :=
  staff <- get_users ;;
  match findUserForRole staff "field-staff" (Issue.category issue) with
  | None => ret (None, issue)
  | Some fieldStaff =>
      let assignedRole := "field-staff"%string in
      let issue :=
        Issue_assign E now fieldStaff.1 fieldStaff.1 assignedRole issue in
      Issue_save id issue ;;;
      notifyIssueAssignment id fieldStaff.1 fieldStaff.1 ;;;
      ret (Some {| toRole := assignedRole; assignedTo := fieldStaff.1;
                   notifiedUsers := None |}, issue)
  end.

(** The next role in the hierarchy; [null] at the top and for any other
    value. *)
Definition nextRoleOf (currentRole : string) : option string :=
  if (currentRole =? "field-staff")%string then Some "supervisor"%string
  else if (currentRole =? "supervisor")%string then Some "commissioner"%string
  else if (currentRole =? "commissioner")%string then None
  else None.

(** [escalateIssue(issue)] *)
Definition escalateIssue (now : Date) (id : ObjectId) (issue : Issue.t)
  : M (option Escalation * Issue.t) :=
  match field_value (Issue.assignedRole issue) with
  | None => assignToFieldStaff now id issue
  | Some currentRole =>
      if negb (truthy_string (Some currentRole))
      then assignToFieldStaff now id issue
      else
        match nextRoleOf currentRole with
        | None => ret (None, issue)
        | Some nextRole =>
            staff <- get_users ;;
            match findAllUsersForRole staff nextRole (Issue.category issue) with
            | [] => ret (None, issue)
            | (assignedUser :: _) as nextRoleUsers =>
                let issue :=
                  match field_value (Issue.escalationDeadline issue),
                        Issue.priority issue with
                  | None, Some priority =>
                      if truthy_string (Some priority)
                      then Issue.set_escalationDeadline
                             (Val (calculateEscalationDeadline E now issue
                                     priority currentRole)) issue
                      else issue
                  | _, _ => issue
                  end in
                let issue :=
                  Issue_escalate E now nextRole assignedUser.1
                    "Auto-escalated: Time limit exceeded" issue in
                Issue_save id issue ;;;
                let issue :=
                  Issue.set_assignedBy (Some assignedUser.1)
                    (Issue.set_assignedTo (Some assignedUser.1) issue) in
                Issue_save id issue ;;;
                notifyAll id nextRoleUsers assignedUser.1 ;;;
                ret (Some {| toRole := nextRole;
                             assignedTo := assignedUser.1;
                             notifiedUsers := Some (length nextRoleUsers) |},
                     issue)
            end
        end
  end.

(** *** The sweep ([checkAndEscalateIssues]) *)

(** An item of [escalationResults]: [{ issueId, title, fromRole, toRole,
    success: true }] or [{ issueId, title, success: false, error }]. *)
Inductive ResultEntry : Type :=
  | Escalated (issueId : ObjectId) (title : string)
      (fromRole : field string) (toRole : string)
  | Failed (issueId : ObjectId) (title : string) (error : string).

Definition success (r : ResultEntry) : bool :=
  match r with
  | Escalated _ _ _ _ => true
  | Failed _ _ _ => false
  end.

(** [hoursOld = issueAge / (1000 * 60 * 60)], and the two thresholds
    [1/6] and [1/12], as rationals: on a whole number of milliseconds the
    binary64 quotient compares with the binary64 [1/6] and [1/12] the way
    the exact quotient compares with one sixth and one twelfth. *)
Definition hoursOld (issueAge : Z) : Q :=
  (inject_Z issueAge / inject_Z (1000 * 60 * 60))%Q.

Definition targetRoleOf (priority : string) (hoursOld : Q) : string :=
  if (priority =? "high")%string || (priority =? "urgent")%string then
    if Qle_bool (1 / 6) hoursOld then "commissioner"
    else if Qle_bool (1 / 12) hoursOld then "supervisor"
    else "field-staff"
  else if (priority =? "medium")%string then
    if Qle_bool (1 / 6) hoursOld then "commissioner"
    else if Qle_bool (1 / 12) hoursOld then "supervisor"
    else "field-staff"
  else
    if Qle_bool (1 / 6) hoursOld then "commissioner"
    else if Qle_bool (1 / 12) hoursOld then "supervisor"
    else "field-staff".

Definition or_default (s : option string) (d : string) : string :=
  match s with
  | Some x => if truthy_string s then x else d
  | None => d
  end.

(** The body of the [try] block for one overdue issue: the entry it
    pushes, if any. *)
Definition processIssue (now : Date) (id : ObjectId) (issue : Issue.t)
  : M (option ResultEntry) :=
  if negb (truthy_string (field_value (Issue.assignedRole issue))) then
    let issueAge := now - default now (Issue.createdAt issue) in
    let priority := or_default (Issue.priority issue) "medium" in
    let targetRole := targetRoleOf priority (hoursOld issueAge) in
    if (targetRole =? "field-staff")%string then
      r <- assignToFieldStaff now id issue ;;
      match r.1 with
      | Some _ =>
          ret (Some (Escalated id (Issue.title r.2) (Val "unassigned"%string)
                       "field-staff"))
      | None => ret None
      end
    else
      staff <- get_users ;;
      match findAllUsersForRole staff targetRole (Issue.category issue) with
      | [] => ret None
      | (first :: _) as targetUsers =>
          let issue := Issue.set_assignedRole (Val targetRole) issue in
          let issue := Issue.set_assignedTo (Some first.1) issue in
          let issue := Issue.set_assignedBy (Some first.1) issue in
          let issue := Issue.set_assignedAt (Val now) issue in
          let issue := Issue.set_status "escalated" issue in
          let issue :=
            match Issue.priority issue with
            | Some priority =>
                if truthy_string (Some priority)
                then Issue.set_escalationDeadline
                       (Val (calculateEscalationDeadline E now issue priority
                               targetRole)) issue
                else issue
            | None => issue
            end in
          Issue_save id issue ;;;
          notifyAll id targetUsers first.1 ;;;
          ret (Some (Escalated id (Issue.title issue)
                       (Val "unassigned"%string) targetRole))
      end
  else
    r <- escalateIssue now id issue ;;
    match r.1 with
    | Some result =>
        ret (Some (Escalated id (Issue.title r.2) (Issue.assignedRole r.2)
                     (toRole result)))
    | None => ret None
    end.

(** The [for] loop with its [try]/[catch]: an entry is pushed when the
    body says so, a failure entry when the body throws.  The title of a
    failure entry is the one of the loaded document (the methods of the
    Issue model do not rename an issue). *)
Fixpoint sweepLoop (now : Date) (overdueIssues : list (doc Issue.t))
    (escalationResults : list ResultEntry) (w : World)
  : list ResultEntry * World :=
  match overdueIssues with
  | [] => (escalationResults, w)
  | issue :: rest =>
      match processIssue now issue.1 issue.2 w with
      | (inr (Some entry), w') =>
          sweepLoop now rest (escalationResults ++ [entry]) w'
      | (inr None, w') => sweepLoop now rest escalationResults w'
      | (inl error, w') =>
          sweepLoop now rest
            (escalationResults
               ++ [Failed issue.1 (Issue.title issue.2) error]) w'
      end
  end.

Record SweepResult := {
  checked : nat;
  escalated : nat;
  failed : nat;
  results : list ResultEntry
}.

Definition overdueIssuesOf (now : Date) (w : World) : list (doc Issue.t) :=
  List.filter (fun d => overdueFilter now d.2) (map_to_list (issues w)).

Definition checkAndEscalateIssues (now : Date) (w : World)
  : SweepResult * World :=
  let overdueIssues := overdueIssuesOf now w in
  let out := sweepLoop now overdueIssues [] w in
  ({| checked := length overdueIssues;
      escalated := length (List.filter success out.1);
      failed := length (List.filter (fun r => negb (success r)) out.1);
      results := out.1 |}, out.2).
End Service.

(** *** Reading the sweep's result *)

(** What the loop body did for each overdue issue, in order: it threw, it
    pushed an entry, or it pushed nothing.  Each body starts in the world
    the previous one left. *)
Fixpoint outcomes (E : Env) (now : Date) (overdueIssues : list (doc Issue.t))
    (w : World) : list (doc Issue.t * (string + option ResultEntry)) :=
  match overdueIssues with
  | [] => []
  | issue :: rest =>
      let o := processIssue E now issue.1 issue.2 w in
      (issue, o.1) :: outcomes E now rest o.2
  end.

(** The entry an outcome leaves in the results, if any. *)
Definition entry_of (o : doc Issue.t * (string + option ResultEntry))
  : option ResultEntry :=
  match o.2 with
  | inl error => Some (Failed o.1.1 (Issue.title o.1.2) error)
  | inr entry => entry
  end.

Definition issueId (r : ResultEntry) : ObjectId :=
  match r with
  | Escalated id _ _ _ => id
  | Failed id _ _ => id
  end.

(** [m] changes no user, and no issue other than [id]. *)
Definition touches_only {A} (id : ObjectId) (m : M A) : Prop :=
  forall w,
    users (m w).2 = users w /\
    forall j, j <> id -> issues (m w).2 !! j = issues w !! j.

(** ** The accept/resolve gate ([employeeController.js]) *)

(** The messages of the JSON responses. *)
Inductive Message : Type :=
  | OnlyEmployeesCanAccept
  | IssueNotFound
  | AssignedToAnotherEmployee
  | AlreadyAccepted
  | CannotBeAccepted (currentStatus : string)
  | UnableToAccept
  | IssueAccepted
  | OnlyAccepterCanResolve
  | MustBeAcceptedFirst
  | TooFarFromReportedLocation (allowedDistanceMeters distance : float)
  | FailedToAwardPoints (error : string)
  | MustBeInProgress (currentStatus : string)
  | IssueResolved
  | ServerError (error : string).

(** [res.status(code).json({ success, message, data: { issue } })] *)
Module Response.
Record t := {
  code : nat;
  success : bool;
  message : Message;
  issue : option Issue.t
}.

Definition error (code : nat) (message : Message) : t :=
  {| code := code; success := false; message := message; issue := None |}.

Definition ok (message : Message) (issue : option Issue.t) : t :=
  {| code := 200; success := true; message := message; issue := issue |}.
End Response.

Definition employeeRoles : list string :=
  ["field-staff"; "supervisor"; "commissioner"; "employee"]%string.

(** [issue.assignedTo && issue.assignedTo.toString() !== user._id.toString()] *)
Definition assignedToAnother (issue : Issue.t) (userId : ObjectId) : bool :=
  match Issue.assignedTo issue with
  | Some a => negb (a =? userId)%nat
  | None => false
  end.

(** [Issue.updateOne({ _id: id, ...filter }, { $set: ... })]: the document
    with that [_id] is updated when it matches the filter; the result is
    [matchedCount]. *)
Definition Issue_updateOne (filter : Issue.t -> bool)
    (update : Issue.t -> Issue.t) (id : ObjectId) (w : World) : nat * World :=
  match issues w !! id with
  | Some stored =>
      if filter stored
      then (1%nat, set_issues (<[id := update stored]> (issues w)) w)
      else (0%nat, w)
  | None => (0%nat, w)
  end.

(** The filter of the conditional update in [acceptIssue]. *)
Definition acceptFilter (userId : ObjectId) (stored : Issue.t) : bool :=
  string_in (Issue.status stored) ["reported"; "assigned"]
  && match Issue.acceptedBy stored with
     | None => true
     | Some _ => false
     end
  && (match Issue.assignedTo stored with
      | None => true
      | Some _ => false
      end
      || match Issue.assignedTo stored with
         | Some a => (a =? userId)%nat
         | None => false
         end).

(** The [$set] of the conditional update; [issue] is the document read
    before the update. *)
Definition acceptUpdate (now : Date) (userId : ObjectId) (issue : Issue.t)
    (stored : Issue.t) : Issue.t :=
  let stored := Issue.set_status "in-progress" stored in
  let stored := Issue.set_acceptedBy (Some userId) stored in
  let stored := Issue.set_acceptedAt (Some now) stored in
  let stored := Issue.set_assignedTo (Some userId) stored in
  let stored :=
    Issue.set_assignedBy (Some (default userId (Issue.assignedBy issue)))
      stored in
  Issue.set_assignedAt
    (Val (default now (field_value (Issue.assignedAt issue)))) stored.

(** [acceptIssue(req, res)] for [req.params.id = id] and [req.user = user],
    run at [now]. *)
Definition acceptIssue (now : Date) (id : ObjectId) (user : doc User.t)
    (w : World) : Response.t * World :=
  if negb (string_in (User.role user.2) employeeRoles) then
    (Response.error 403 OnlyEmployeesCanAccept, w)
  else
    match issues w !! id with
    | None => (Response.error 404 IssueNotFound, w)
    | Some issue =>
        if assignedToAnother issue user.1 then
          (Response.error 403 AssignedToAnotherEmployee, w)
        else
          let result :=
            Issue_updateOne (acceptFilter user.1)
              (acceptUpdate now user.1 issue) id w in
          let w := result.2 in
          if (result.1 =? 0)%nat then
            match issues w !! id with
            | None => (Response.error 404 IssueNotFound, w)
            | Some currentIssue =>
                if Issue.acceptedBy currentIssue is Some _ then
                  (Response.error 400 AlreadyAccepted, w)
                else if negb (string_in (Issue.status currentIssue)
                                ["reported"; "assigned"]) then
                  (Response.error 400
                     (CannotBeAccepted (Issue.status currentIssue)), w)
                else if assignedToAnother currentIssue user.1 then
                  (Response.error 403 AssignedToAnotherEmployee, w)
                else (Response.error 400 UnableToAccept, w)
            end
          else (Response.ok IssueAccepted (issues w !! id), w)
    end.

(** The fields of [req] that [resolveIssue] reads: the form fields
    [latitude] and [longitude] (strings, which the handler passes to
    [parseFloat]) and the URL of the uploaded photo. *)
Record ResolveRequest := {
  latitude : option string;
  longitude : option string;
  file : option string
}.

Definition Math_PI : float := 0x1.921fb54442d18p+1%float.

(** The distance, in meters, that [resolveIssue] computes between the
    supplied and the original coordinates. *)
Definition haversine (E : Env) (latitude longitude : float)
    (originalLat originalLng : float) : float :=
  let R := 6371000%float in
  let dLat := ((latitude - originalLat) * Math_PI / 180)%float in
  let dLng := ((longitude - originalLng) * Math_PI / 180)%float in
  let a :=
    (Math_sin E (dLat / 2) * Math_sin E (dLat / 2)
     + Math_cos E (originalLat * Math_PI / 180)
       * Math_cos E (latitude * Math_PI / 180)
       * Math_sin E (dLng / 2) * Math_sin E (dLng / 2))%float in
  let c := (2 * Math_atan2 E (PrimFloat.sqrt a) (PrimFloat.sqrt (1 - a)))%float in
  (R * c)%float.

Definition allowedDistanceMeters : float := 100%float.

Definition resolved_or_empty (issue : Issue.t) : Issue.Resolved :=
  default Issue.empty_resolved (Issue.resolved issue).

(** [if (req.file) { ... issue.resolved.photo = ... }] *)
Definition attachPhoto (req : ResolveRequest) (issue : Issue.t) : Issue.t :=
  match file req with
  | Some url =>
      let r := resolved_or_empty issue in
      Issue.set_resolved
        (Some {| Issue.photo := Some url; Issue.location := Issue.location r;
                 Issue.resolvedBy := Issue.resolvedBy r |}) issue
  | None => issue
  end.

(** The geofence block: the response that rejects the location, or the
    loaded document with the location recorded. *)
Definition checkLocation (E : Env) (req : ResolveRequest) (issue : Issue.t)
  : Response.t + Issue.t :=
  match latitude req, longitude req with
  | Some lat, Some lng =>
      if truthy_string (Some lat) && truthy_string (Some lng) then
        let originalLat := Issue.latitude issue in
        let originalLng := Issue.longitude issue in
        let distance :=
          match originalLat, originalLng with
          | Some olat, Some olng =>
              if truthy_number originalLat && truthy_number originalLng
              then Some (haversine E (parseFloat E lat) (parseFloat E lng)
                           olat olng)
              else None
          | _, _ => None
          end in
        match distance with
        | Some d =>
            if PrimFloat.ltb allowedDistanceMeters d then
              inl (Response.error 400
                     (TooFarFromReportedLocation allowedDistanceMeters d))
            else
              let r := resolved_or_empty issue in
              inr (Issue.set_resolved
                     (Some {| Issue.photo := Issue.photo r;
                              Issue.location :=
                                Some (parseFloat E lat, parseFloat E lng);
                              Issue.resolvedBy := Issue.resolvedBy r |}) issue)
        | None =>
            let r := resolved_or_empty issue in
            inr (Issue.set_resolved
                   (Some {| Issue.photo := Issue.photo r;
                            Issue.location :=
                              Some (parseFloat E lat, parseFloat E lng);
                            Issue.resolvedBy := Issue.resolvedBy r |}) issue)
        end
      else inr issue
  | _, _ => inr issue
  end.

(** The points block: the reporter, when the populated [reportedBy] names
    a user, gets ten points and the loaded document is flagged. *)
Definition awardPoints (E : Env) (issue : Issue.t) (w : World)
  : (Response.t + Issue.t) * World :=
  if negb (Issue.status issue =? "resolved")%string then
    match Issue.reportedBy issue with
    | Some reporterId =>
        match users w !! reporterId with
        | Some reporter =>
            if negb (Issue.pointsAwarded issue) then
              let currentPoints := default 0 (User.points reporter) in
              let reporter :=
                User.set_points (Some (currentPoints + 10)) reporter in
              match User_save_error E reporterId reporter with
              | Some e =>
                  (inl (Response.error 500 (FailedToAwardPoints e)), w)
              | None =>
                  (inr (Issue.set_pointsAwarded true issue),
                   set_users (<[reporterId := reporter]> (users w)) w)
              end
            else (inr issue, w)
        | None => (inr issue, w)
        end
    | None => (inr issue, w)
    end
  else (inr issue, w).

(** The end of [resolveIssue]: the status check, the save, and the
    notification of the reporter. *)
Definition finishResolve (E : Env) (now : Date) (id : ObjectId)
    (userId : ObjectId) (issue : Issue.t) (w : World) : Response.t * World :=
  if negb (Issue.status issue =? "in-progress")%string then
    (Response.error 400 (MustBeInProgress (Issue.status issue)), w)
  else
    let issue := Issue.set_resolvedAt (Some now) issue in
    let issue := Issue.set_status "resolved" issue in
    let r := resolved_or_empty issue in
    let issue :=
      Issue.set_resolved
        (Some {| Issue.photo := Issue.photo r; Issue.location := Issue.location r;
                 Issue.resolvedBy := Some userId |}) issue in
    let issue :=
      match Issue.createdAt issue with
      | Some created =>
          Issue.set_actualResolutionTime
            (Some ((now - created) / (1000 * 60 * 60 * 24))) issue
      | None => issue
      end in
    match Issue_save_error E id issue with
    | Some e => (Response.error 500 (ServerError e), w)
    | None =>
        let w := set_issues (<[id := issue]> (issues w)) w in
        match notify_error E (ResolutionNotice id userId) with
        | Some e => (Response.error 500 (ServerError e), w)
        | None =>
            (Response.ok IssueResolved (Some issue),
             set_sent (sent w ++ [ResolutionNotice id userId]) w)
        end
    end.

(** [resolveIssue(req, res)] for [req.params.id = id], [req.user = user]
    and the body and file of [req], run at [now].  The call to the external
    classifier between the save and the notification changes nothing here
    and its errors are caught. *)
Definition resolveIssue (E : Env) (now : Date) (id : ObjectId)
    (user : doc User.t) (req : ResolveRequest) (w : World)
  : Response.t * World :=
  match issues w !! id with
  | None => (Response.error 404 IssueNotFound, w)
  | Some issue =>
      let isAdmin := (User.role user.2 =? "admin")%string in
      match Issue.acceptedBy issue with
      | Some acceptedBy =>
          let isAcceptedByUser := (acceptedBy =? user.1)%nat in
          if negb isAdmin && negb isAcceptedByUser then
            (Response.error 403 OnlyAccepterCanResolve, w)
          else
            let issue := attachPhoto req issue in
            match checkLocation E req issue with
            | inl response => (response, w)
            | inr issue =>
                match awardPoints E issue w with
                | (inl response, w) => (response, w)
                | (inr issue, w) => finishResolve E now id user.1 issue w
                end
            end
      | None => (Response.error 400 MustBeAcceptedFirst, w)
      end
  end.

(** *** Reading the gate *)

(** The issue can be claimed by [userId]: its status is reported or
    assigned, nobody accepted it, and it is assigned to nobody or to
    [userId]. *)
Definition acceptable (userId : ObjectId) (issue : Issue.t) : Prop :=
  (Issue.status issue = "reported"%string \/
   Issue.status issue = "assigned"%string) /\
  Issue.acceptedBy issue = None /\
  (Issue.assignedTo issue = None \/ Issue.assignedTo issue = Some userId).

(** [accepted] is [issue] claimed by [userId] at [now]: the six fields of
    the update are set, an assignedBy or assignedAt that [issue] had is
    kept, and every other field is the one of [issue]. *)
Definition claimed (now : Date) (userId : ObjectId) (issue accepted : Issue.t)
  : Prop :=
  Issue.status accepted = "in-progress"%string /\
  Issue.acceptedBy accepted = Some userId /\
  Issue.acceptedAt accepted = Some now /\
  Issue.assignedTo accepted = Some userId /\
  Issue.assignedBy accepted =
    Some (match Issue.assignedBy issue with
          | Some existing => existing
          | None => userId
          end) /\
  Issue.assignedAt accepted =
    Val (match Issue.assignedAt issue with
         | Val existing => existing
         | _ => now
         end) /\
  Issue.title accepted = Issue.title issue /\
  Issue.category accepted = Issue.category issue /\
  Issue.priority accepted = Issue.priority issue /\
  Issue.latitude accepted = Issue.latitude issue /\
  Issue.longitude accepted = Issue.longitude issue /\
  Issue.reportedBy accepted = Issue.reportedBy issue /\
  Issue.assignedRole accepted = Issue.assignedRole issue /\
  Issue.escalationDeadline accepted = Issue.escalationDeadline issue /\
  Issue.escalationHistory accepted = Issue.escalationHistory issue /\
  Issue.createdAt accepted = Issue.createdAt issue /\
  Issue.resolvedAt accepted = Issue.resolvedAt issue /\
  Issue.resolved accepted = Issue.resolved issue /\
  Issue.actualResolutionTime accepted = Issue.actualResolutionTime issue /\
  Issue.pointsAwarded accepted = Issue.pointsAwarded issue.

(** The caller may resolve the issue: somebody accepted it, and the caller
    is that staff member or an admin. *)
Definition may_resolve (user : doc User.t) (issue : Issue.t) : Prop :=
  exists accepter, Issue.acceptedBy issue = Some accepter /\
    (accepter = user.1 \/ User.role user.2 = "admin"%string).

(** The resolution location stored for issue [id]. *)
Definition stored_location (w : World) (id : ObjectId) : option (float * float) :=
  match issues w !! id with
  | Some issue =>
      match Issue.resolved issue with
      | Some r => Issue.location r
      | None => None
      end
  | None => None
  end.

(** The refusal [response] names why [issue] cannot be claimed by
    [userId]. *)
Definition names_the_reason (userId : ObjectId) (issue : Issue.t)
    (response : Response.t) : Prop :=
  (response = Response.error 400 AlreadyAccepted /\
   is_Some (Issue.acceptedBy issue))
  \/ (response = Response.error 400 (CannotBeAccepted (Issue.status issue)) /\
      Issue.status issue <> "reported"%string /\
      Issue.status issue <> "assigned"%string)
  \/ (response = Response.error 403 AssignedToAnotherEmployee /\
      exists other, Issue.assignedTo issue = Some other /\ other <> userId).

(** ** Sample data *)

(** A freshly reported issue: no assignment, no deadline. *)
Definition reported_issue (created : Date) : Issue.t :=
  {| Issue.title := "Street light out"; Issue.category := "Electricity";
     Issue.priority := Some "high"%string; Issue.status := "reported";
     Issue.latitude := Some 16.0625%float;
     Issue.longitude := Some 77.90625%float;
     Issue.reportedBy := Some 100%nat; Issue.assignedRole := Absent;
     Issue.assignedTo := None; Issue.assignedBy := None;
     Issue.assignedAt := Absent; Issue.acceptedBy := None;
     Issue.acceptedAt := None; Issue.escalationDeadline := Absent;
     Issue.escalationHistory := []; Issue.createdAt := Some created;
     Issue.resolvedAt := None; Issue.resolved := None;
     Issue.actualResolutionTime := None; Issue.pointsAwarded := false |}.

(** Modelled from the spec: the deadline calculator of the Issue model
    ([calculateEscalationDeadline], models/Issue.js is not among the
    sources).  Section 4.2: each (priority, role) pair maps to a configured
    window, added to the current time.  The window below is the five-minute
    testing configuration that the comments of the sweep mention. *)
Definition spec_calculateEscalationDeadline (now : Date) (issue : Issue.t)
    (priority role : string) : Date :=
  now + 5 * 60 * 1000.

(** Modelled from the spec: [issue.assign(assignee, actor, role)] of the Issue model
    (not among the sources).  Section 4.3: sets assignedRole, assignedTo and
    assignedBy, assignedAt = now, status = assigned (in-progress when the
    issue is already accepted), and the deadline for the role. *)
Definition spec_assign (now : Date) (assignee actor : ObjectId)
    (role : string) (issue : Issue.t) : Issue.t :=
  let issue := Issue.set_assignedRole (Val role) issue in
  let issue := Issue.set_assignedTo (Some assignee) issue in
  let issue := Issue.set_assignedBy (Some actor) issue in
  let issue := Issue.set_assignedAt (Val now) issue in
  let issue :=
    Issue.set_status
      (match Issue.acceptedBy issue with
       | Some _ => "in-progress"
       | None => "assigned"
       end) issue in
  Issue.set_escalationDeadline
    (Val (spec_calculateEscalationDeadline now issue
            (default "medium"%string (Issue.priority issue)) role)) issue.

(** Modelled from the spec: [issue.escalate(role, actor, reason)] of the Issue
    model (not among the sources).  Section 4.4, step 4: appends a history
    entry, sets assignedRole = role and status = escalated, and recomputes
    the deadline for the new role. *)
Definition spec_escalate (now : Date) (role : string) (actor : ObjectId)
    (reason : string) (issue : Issue.t) : Issue.t :=
  let entry :=
    {| Issue.fromRole := Issue.assignedRole issue; Issue.toRole := role;
       Issue.escalatedBy := actor; Issue.reason := reason;
       Issue.escalatedAt := now |} in
  let issue :=
    Issue.set_escalationHistory (Issue.escalationHistory issue ++ [entry])
      issue in
  let issue := Issue.set_assignedRole (Val role) issue in
  let issue := Issue.set_status "escalated" issue in
  Issue.set_escalationDeadline
    (Val (spec_calculateEscalationDeadline now issue
            (default "medium"%string (Issue.priority issue)) role)) issue.

(** A decimal reader for the sample environment: an optional sign, digits,
    an optional fraction.  Anything else reads as NaN. *)
Definition digit_of (c : ascii) : option Z :=
  let n := Z.of_nat (nat_of_ascii c) in
  if (48 <=? n) && (n <=? 57) then Some (n - 48) else None.

Fixpoint read_digits (s : string) (num den : Z) (frac seen : bool)
  : option (Z * Z) :=
  match s with
  | EmptyString => if seen then Some (num, den) else None
  | String c rest =>
      match digit_of c with
      | Some d =>
          read_digits rest (10 * num + d) (if frac then 10 * den else den)
            frac true
      | None =>
          if (Ascii.eqb c "."%char) && negb frac
          then read_digits rest num den true seen
          else None
      end
  end.

Definition float_of_Z (z : Z) : float := PrimFloat.of_uint63 (Uint63.of_Z z).

Definition sample_parseFloat (s : string) : float :=
  let (negative, body) :=
    match s with
    | String "-"%char rest => (true, rest)
    | _ => (false, s)
    end in
  match read_digits body 0 1 false false with
  | Some (num, den) =>
      let x := (float_of_Z num / float_of_Z den)%float in
      if negative then (- x)%float else x
  | None => PrimFloat.nan
  end.

(** The sample environment: the Issue model as the design document has it,
    a store and a notification service that never fail, and numeric
    functions exact to the first order (enough at geofence distances). *)
Definition sample_env : Env :=
  {| calculateEscalationDeadline := spec_calculateEscalationDeadline;
     Issue_assign := spec_assign;
     Issue_escalate := spec_escalate;
     Issue_save_error := fun _ _ => None;
     User_save_error := fun _ _ => None;
     notify_error := fun _ => None;
     Math_sin := fun x => x;
     Math_cos := fun _ => 1%float;
     Math_atan2 := fun y x => (y / x)%float;
     parseFloat := sample_parseFloat |}.

Definition staff (role : string) (departments : list string) : User.t :=
  {| User.name := "staff"; User.role := role; User.isActive := true;
     User.departments := departments; User.department := None;
     User.loginCount := 0; User.lastLogin := None; User.points := None |}.

Definition citizen : User.t :=
  {| User.name := "citizen"; User.role := "citizen"; User.isActive := true;
     User.departments := []; User.department := None;
     User.loginCount := 0; User.lastLogin := None; User.points := None |}.

(** An issue that [accepter] has accepted, in the given status. *)
Definition accepted_issue (accepter : ObjectId) (status : string) : Issue.t :=
  Issue.set_status status
    (Issue.set_acceptedAt (Some 200)
       (Issue.set_acceptedBy (Some accepter)
          (Issue.set_assignedAt (Val 100)
             (Issue.set_assignedBy (Some accepter)
                (Issue.set_assignedTo (Some accepter)
                   (Issue.set_assignedRole (Val "field-staff"%string)
                      (reported_issue 0))))))).

(** [E] with the numeric functions of another runtime. *)
Definition with_math (sin cos : float -> float) (atan2 : float -> float -> float)
    (E : Env) : Env :=
  {| calculateEscalationDeadline := calculateEscalationDeadline E;
     Issue_assign := Issue_assign E;
     Issue_escalate := Issue_escalate E;
     Issue_save_error := Issue_save_error E;
     User_save_error := User_save_error E;
     notify_error := notify_error E;
     Math_sin := sin;
     Math_cos := cos;
     Math_atan2 := atan2;
     parseFloat := parseFloat E |}.

(** One issue (with [_id] 1), a field officer (30), a supervisor (40), a
    commissioner (20) and the reporting citizen (100). *)
Definition officer : doc User.t := (30%nat, staff "field-staff" ["All"%string]).

Definition sample_world (issue : Issue.t) : World :=
  {| issues := {[ 1%nat := issue ]};
     users := {[ 20%nat := staff "commissioner" ["All"%string];
                 30%nat := officer.2;
                 40%nat := staff "supervisor" ["All"%string];
                 100%nat := citizen ]};
     sent := [] |}.

Definition no_location : ResolveRequest :=
  {| latitude := None; longitude := None; file := None |}.

(** [E] with a user collection that refuses every save with [message]. *)
Definition with_failing_user_save (message : string) (E : Env) : Env :=
  {| calculateEscalationDeadline := calculateEscalationDeadline E;
     Issue_assign := Issue_assign E;
     Issue_escalate := Issue_escalate E;
     Issue_save_error := Issue_save_error E;
     User_save_error := fun _ _ => Some message;
     notify_error := notify_error E;
     Math_sin := Math_sin E;
     Math_cos := Math_cos E;
     Math_atan2 := Math_atan2 E;
     parseFloat := parseFloat E |}.

(** A resolution sent from about 150 meters north of the sample issue. *)
Definition from_150_meters : ResolveRequest :=
  {| latitude := Some "16.06385"%string; longitude := Some "77.90625"%string;
     file := None |}.


(** ** Reading the rest of the service and of the controller *)

(** The document the sweep saves when it moves a never-assigned issue
    straight to [targetRole], with [firstId] the first staff member found
    for that role. *)
Definition fastTracked (E : Env) (now : Date) (targetRole : string)
    (firstId : ObjectId) (issue : Issue.t) : Issue.t :=
  let moved :=
    Issue.set_status "escalated"
      (Issue.set_assignedAt (Val now)
         (Issue.set_assignedBy (Some firstId)
            (Issue.set_assignedTo (Some firstId)
               (Issue.set_assignedRole (Val targetRole) issue)))) in
  match Issue.priority issue with
  | Some priority =>
      if truthy_string (Some priority)
      then Issue.set_escalationDeadline
             (Val (calculateEscalationDeadline E now moved priority targetRole))
             moved
      else moved
  | None => moved
  end.

(** The document [escalateIssue] saves when it moves an issue from
    [currentRole] to [nextRole], with [firstId] the first staff member
    found for [nextRole]: the deadline of the current role is filled in
    when the document has none, then the Issue model's [escalate] runs,
    then assignedTo and assignedBy are set. *)
Definition escalatedDocument (E : Env) (now : Date)
    (currentRole nextRole : string) (firstId : ObjectId) (issue : Issue.t)
  : Issue.t :=
  let issue :=
    match field_value (Issue.escalationDeadline issue), Issue.priority issue with
    | None, Some priority =>
        if truthy_string (Some priority)
        then Issue.set_escalationDeadline
               (Val (calculateEscalationDeadline E now issue priority
                       currentRole)) issue
        else issue
    | _, _ => issue
    end in
  Issue.set_assignedBy (Some firstId)
    (Issue.set_assignedTo (Some firstId)
       (Issue_escalate E now nextRole firstId
          "Auto-escalated: Time limit exceeded" issue)).

(** The role an entry of the sweep's results reports the issue moved to. *)
Definition movedTo (r : ResultEntry) : option string :=
  match r with
  | Escalated _ _ _ toRole => Some toRole
  | Failed _ _ _ => None
  end.

(** [m] only adds notifications. *)
Definition only_notifies {A} (m : M A) : Prop :=
  forall w, sent w `prefix_of` sent (m w).2.

(** The three roles issues are routed to. *)
Definition hierarchy : list string :=
  ["field-staff"; "supervisor"; "commissioner"]%string.

(** ** The rest of the escalation service *)

Definition throw {A} (e : string) : M A := fun w => (inl e, w).

Definition get_issues : M (gmap ObjectId Issue.t) :=
  fun w => (inr (issues w), w).

(** [manualEscalate(issueId, toRole, escalatedBy, reason)]: the returned
    pair is the loaded document as the call leaves it and the staff member
    found. *)
Definition manualEscalate (E : Env) (now : Date) (issueId : ObjectId)
    (toRole : string) (escalatedBy : ObjectId) (reason : string)
  : M (Issue.t * doc User.t) :=
  store <- get_issues ;;
  match store !! issueId with
  | None => throw "Issue not found"
  | Some issue =>
      staff <- get_users ;;
      match findUserForRole staff toRole (Issue.category issue) with
      | None =>
          throw ("No " ++ toRole ++ " found for category "
                 ++ Issue.category issue)
      | Some assignedUser =>
          let issue := Issue_escalate E now toRole escalatedBy reason issue in
          Issue_save E issueId issue ;;;
          let issue :=
            Issue.set_assignedBy (Some escalatedBy)
              (Issue.set_assignedTo (Some assignedUser.1) issue) in
          Issue_save E issueId issue ;;;
          notifyIssueAssignment E issueId assignedUser.1 escalatedBy ;;;
          ret (issue, assignedUser)
      end
  end.

(** What [getEscalationTimeline(issueId)] returns for a stored issue. *)
Record Timeline := {
  currentRole : field string;
  currentDeadline : field Date;
  history : list Issue.HistoryEntry;
  timeline_priority : option string;
  timeline_status : string
}.

(** [getEscalationTimeline(issueId)]; [null] is [None]. *)
Definition getEscalationTimeline (issueId : ObjectId) (w : World)
  : option Timeline :=
  match issues w !! issueId with
  | None => None
  | Some issue =>
      Some {| currentRole := Issue.assignedRole issue;
              currentDeadline := Issue.escalationDeadline issue;
              history := Issue.escalationHistory issue;
              timeline_priority := Issue.priority issue;
              timeline_status := Issue.status issue |}
  end.

(** ** The escalation job

    The callback of the cron schedule and [runNow] are asynchronous: each
    runs up to its [await] in one piece, and its [finally] runs when the
    awaited check is over.  The job is therefore a machine that takes one
    event at a time.  [inFlight] counts the calls of
    [checkAndEscalateIssues] that have started and are not over; the code
    does not hold it. *)
Record Job := {
  isRunning : bool;
  scheduled : bool;
  inFlight : nat
}.

(** [new EscalationJob()] *)
Definition newJob : Job :=
  {| isRunning := false; scheduled := false; inFlight := 0 |}.

Inductive JobEvent : Type :=
  | Start      (* [start()] *)
  | Stop       (* [stop()] *)
  | Tick       (* the schedule fires the callback *)
  | RunNow     (* [runNow()] is called *)
  | CheckOver. (* a check that was awaited is over: its [finally] runs *)

(** What an event answers: nothing to say, the check was skipped, it was
    started, or [runNow] threw. *)
Inductive JobAnswer : Type :=
  | Done
  | Skipped
  | Started
  | AlreadyInProgress.

Definition jobStep (e : JobEvent) (j : Job) : JobAnswer * Job :=
  match e with
  | Start =>
      (Done, {| isRunning := isRunning j; scheduled := true;
                inFlight := inFlight j |})
  | Stop =>
      (Done, {| isRunning := isRunning j; scheduled := false;
                inFlight := inFlight j |})
  | Tick =>
      if scheduled j then
        if isRunning j then (Skipped, j)
        else (Started, {| isRunning := true; scheduled := scheduled j;
                          inFlight := S (inFlight j) |})
      else (Done, j)
  | RunNow =>
      if isRunning j then (AlreadyInProgress, j)
      else (Started, {| isRunning := true; scheduled := scheduled j;
                        inFlight := S (inFlight j) |})
  | CheckOver =>
      match inFlight j with
      | O => (Done, j)
      | S n => (Done, {| isRunning := false; scheduled := scheduled j;
                         inFlight := n |})
      end
  end.

(** The job after a sequence of events. *)
Definition jobRun (events : list JobEvent) (j : Job) : Job :=
  foldl (fun j e => (jobStep e j).2) j events.

(** ** Listing the issues of a staff member ([listAssignedIssues])

    The handler builds a filter object, step by step, and hands it to
    [Issue.find] and [Issue.countDocuments].  The filter is embedded as
    data, with the store's reading of it. *)

(** A condition on a string field: [field: s] or [field: { $in: l }]. *)
Inductive StringQuery : Type :=
  | Equals (s : string)
  | OneOf (l : list string).

Definition string_matches (q : option StringQuery) (v : string) : bool :=
  match q with
  | None => true
  | Some (Equals s) => (v =? s)%string
  | Some (OneOf l) => string_in v l
  end.

(** One member of [filter.$or].  [c_unassigned] stands for
    [$or: [{ assignedTo: null }, { assignedTo: { $exists: false } }]]. *)
Record Condition := {
  c_assignedTo : option ObjectId;
  c_assignedRole : option string;
  c_unassigned : bool;
  c_category : option StringQuery;
  c_status : option StringQuery
}.

Record ListFilter := {
  f_or : option (list Condition);
  f_assignedTo : option ObjectId;
  f_status : option StringQuery;
  f_category : option StringQuery;
  f_priority : option string
}.

Definition id_matches (q : option ObjectId) (v : option ObjectId) : bool :=
  match q with
  | None => true
  | Some u => match v with
              | Some x => (x =? u)%nat
              | None => false
              end
  end.

Definition condition_matches (c : Condition) (i : Issue.t) : bool :=
  id_matches (c_assignedTo c) (Issue.assignedTo i)
  && match c_assignedRole c with
     | None => true
     | Some r => q_in (Issue.assignedRole i) [r]
     end
  && (if c_unassigned c
      then match Issue.assignedTo i with
           | None => true
           | Some _ => false
           end
      else true)
  && string_matches (c_category c) (Issue.category i)
  && string_matches (c_status c) (Issue.status i).

Definition filter_matches (f : ListFilter) (i : Issue.t) : bool :=
  match f_or f with
  | None => true
  | Some conditions => existsb (fun c => condition_matches c i) conditions
  end
  && id_matches (f_assignedTo f) (Issue.assignedTo i)
  && string_matches (f_status f) (Issue.status i)
  && string_matches (f_category f) (Issue.category i)
  && match f_priority f with
     | None => true
     | Some p => match Issue.priority i with
                 | Some x => (x =? p)%string
                 | None => false
                 end
     end.

(** [req.query], with [page] and [limit] as [parseInt] reads them: the
    embedding covers the requests where each is missing or a positive
    integer. *)
Record ListQuery := {
  page : option positive;
  limit : option positive;
  query_status : option string;
  query_category : option string;
  query_priority : option string
}.

(** [user.departments && user.departments.length > 0 ? user.departments
     : (user.department ? [user.department] : [])] *)
Definition userDepartments (u : User.t) : list string :=
  if is_empty (User.departments u)
  then match User.department u with
       | Some d => if truthy_string (Some d) then [d] else []
       | None => []
       end
  else User.departments u.

Definition assignedToUser (userId : ObjectId) : Condition :=
  {| c_assignedTo := Some userId; c_assignedRole := None;
     c_unassigned := false; c_category := None; c_status := None |}.

(** [baseCondition], with [category: { $in: userDepartments }] when
    [restricted]. *)
Definition baseCondition (assignedRole : string) (restricted : bool)
    (departments : list string) : Condition :=
  {| c_assignedTo := None; c_assignedRole := Some assignedRole;
     c_unassigned := true;
     c_category := if restricted then Some (OneOf departments) else None;
     c_status := None |}.

Definition unresolvedStatuses : list string :=
  ["reported"; "in-progress"; "escalated"]%string.

(** A query parameter that is given and is not ['all']. *)
Definition given (p : option string) : option string :=
  match p with
  | Some s => if truthy_string (Some s) && negb (s =? "all")%string
              then Some s else None
  | None => None
  end.

(** The filter built "based on role". *)
Definition roleFilter (user : doc User.t) : ListFilter :=
  let role := User.role user.2 in
  let empty :=
    {| f_or := None; f_assignedTo := None; f_status := None;
       f_category := None; f_priority := None |} in
  if string_in role employeeRoles then
    let departments := userDepartments user.2 in
    let hasAllDepartments := string_in "All" departments in
    let conditions (base : Condition) :=
      {| f_or := Some [assignedToUser user.1; base]; f_assignedTo := None;
         f_status := None; f_category := None; f_priority := None |} in
    if (role =? "field-staff")%string || (role =? "employee")%string then
      conditions
        (baseCondition "field-staff"
           (negb hasAllDepartments && negb (is_empty departments)) departments)
    else if (role =? "supervisor")%string then
      conditions
        (baseCondition "supervisor" (negb (is_empty departments)) departments)
    else if (role =? "commissioner")%string then
      conditions
        (baseCondition "commissioner"
           (negb hasAllDepartments && negb (is_empty departments)) departments)
    else empty
  else
    {| f_or := None; f_assignedTo := Some user.1; f_status := None;
       f_category := None; f_priority := None |}.

(** The status step. *)
Definition withStatus (status : option string) (f : ListFilter) : ListFilter :=
  match given status with
  | Some s =>
      {| f_or := f_or f; f_assignedTo := f_assignedTo f;
         f_status := Some (Equals s); f_category := f_category f;
         f_priority := f_priority f |}
  | None =>
      match f_or f with
      | Some conditions =>
          {| f_or :=
               Some (map (fun c =>
                            {| c_assignedTo := c_assignedTo c;
                               c_assignedRole := c_assignedRole c;
                               c_unassigned := c_unassigned c;
                               c_category := c_category c;
                               c_status := Some (OneOf unresolvedStatuses) |})
                       conditions);
             f_assignedTo := f_assignedTo f; f_status := f_status f;
             f_category := f_category f; f_priority := f_priority f |}
      | None =>
          {| f_or := None; f_assignedTo := f_assignedTo f;
             f_status := Some (OneOf unresolvedStatuses);
             f_category := f_category f; f_priority := f_priority f |}
      end
  end.

(** [Array.isArray(c.$in) ? { $in: c.$in.filter(c => c === category) }
     : category] *)
Definition narrowCategory (category : string) (q : option StringQuery)
  : option StringQuery :=
  match q with
  | Some (OneOf l) =>
      Some (OneOf (List.filter (fun c => (c =? category)%string) l))
  | _ => Some (Equals category)
  end.

(** The category step. *)
Definition withCategory (category : option string) (f : ListFilter)
  : ListFilter :=
  match given category with
  | Some category =>
      match f_or f with
      | Some conditions =>
          {| f_or :=
               Some (map (fun c =>
                            {| c_assignedTo := c_assignedTo c;
                               c_assignedRole := c_assignedRole c;
                               c_unassigned := c_unassigned c;
                               c_category :=
                                 narrowCategory category (c_category c);
                               c_status := c_status c |})
                       conditions);
             f_assignedTo := f_assignedTo f; f_status := f_status f;
             f_category := f_category f; f_priority := f_priority f |}
      | None =>
          {| f_or := None; f_assignedTo := f_assignedTo f;
             f_status := f_status f;
             f_category := narrowCategory category (f_category f);
             f_priority := f_priority f |}
      end
  | None => f
  end.

(** The priority step. *)
Definition withPriority (priority : option string) (f : ListFilter)
  : ListFilter :=
  match given priority with
  | Some p =>
      {| f_or := f_or f; f_assignedTo := f_assignedTo f;
         f_status := f_status f; f_category := f_category f;
         f_priority := Some p |}
  | None => f
  end.

(** The filter [listAssignedIssues] queries with. *)
Definition listFilter (user : doc User.t) (q : ListQuery) : ListFilter :=
  withPriority (query_priority q)
    (withCategory (query_category q)
       (withStatus (query_status q) (roleFilter user))).

(** The store's order on values of one field: a missing value sorts below
    every value. *)
Definition compare_option {A} (cmp : A -> A -> comparison)
    (a b : option A) : comparison :=
  match a, b with
  | None, None => Eq
  | None, Some _ => Lt
  | Some _, None => Gt
  | Some x, Some y => cmp x y
  end.

(** [.sort({ priority: -1, createdAt: -1 })]: [a] may stand before [b].
    Priorities are strings and compare as strings. *)
Definition listing_le (a b : doc Issue.t) : bool :=
  match compare_option OrdersEx.String_as_OT.compare
          (Issue.priority b.2) (Issue.priority a.2) with
  | Lt => true
  | Gt => false
  | Eq =>
      match compare_option Z.compare (Issue.createdAt b.2)
              (Issue.createdAt a.2) with
      | Gt => false
      | _ => true
      end
  end.

(** [Issue.find(filter).sort(...)], before [skip] and [limit]. *)
Definition Issue_find_sorted (f : ListFilter) (w : World)
  : list (doc Issue.t) :=
  sort_by listing_le
    (List.filter (fun d => filter_matches f d.2) (map_to_list (issues w))).

(** [data] of the response. *)
Record Listing := {
  listed : list (doc Issue.t);
  currentPage : nat;
  totalPages : nat;
  totalItems : nat;
  itemsPerPage : nat
}.

(** [const { page = 1, limit = 50, ... } = req.query] *)
Definition pageOf (q : ListQuery) : nat :=
  Pos.to_nat (default 1%positive (page q)).
Definition limitOf (q : ListQuery) : nat :=
  Pos.to_nat (default 50%positive (limit q)).

(** [(parseInt(page) - 1) * parseInt(limit)] *)
Definition skipOf (q : ListQuery) : nat := ((pageOf q - 1) * limitOf q)%nat.

(** [Math.ceil(total / limit)] for a positive [limit]. *)
Definition ceil_div (total limit : nat) : nat :=
  ((total + limit - 1) / limit)%nat.

(** [listAssignedIssues(req, res)] for [req.user = user] and
    [req.query = q]: the [data] of the response. *)
Definition listAssignedIssues (user : doc User.t) (q : ListQuery) (w : World)
  : Listing :=
  let filter := listFilter user q in
  let found :=
    take (limitOf q) (drop (skipOf q) (Issue_find_sorted filter w)) in
  let total :=
    length (List.filter (fun d => filter_matches filter d.2)
              (map_to_list (issues w))) in
  {| listed := found;
     currentPage := pageOf q;
     totalPages := ceil_div total (limitOf q);
     totalItems := total;
     itemsPerPage := limitOf q |}.

(** What a staff member is shown, read from the role: the issues assigned
    to them, and the unassigned issues waiting at their level, within
    their departments where the role is held to them. *)
Definition levelOf (role : string) : option string :=
  if (role =? "field-staff")%string || (role =? "employee")%string
  then Some "field-staff"%string
  else if (role =? "supervisor")%string then Some "supervisor"%string
  else if (role =? "commissioner")%string then Some "commissioner"%string
  else None.

Definition heldToDepartments (u : User.t) : bool :=
  negb (is_empty (userDepartments u))
  && ((User.role u =? "supervisor")%string
      || negb (string_in "All" (userDepartments u))).

Definition waitingAtLevel (u : User.t) (i : Issue.t) : bool :=
  match levelOf (User.role u), Issue.assignedTo i with
  | Some level, None =>
      q_in (Issue.assignedRole i) [level]
      && (if heldToDepartments u
          then string_in (Issue.category i) (userDepartments u)
          else true)
  | _, _ => false
  end.

Definition asked (p : option string) (v : option string) : bool :=
  match given p with
  | Some s => match v with
              | Some x => (x =? s)%string
              | None => false
              end
  | None => true
  end.

Definition visible (user : doc User.t) (q : ListQuery) (i : Issue.t) : bool :=
  (id_matches (Some user.1) (Issue.assignedTo i) || waitingAtLevel user.2 i)
  && match given (query_status q) with
     | Some s => (Issue.status i =? s)%string
     | None => string_in (Issue.status i) unresolvedStatuses
     end
  && asked (query_category q) (Some (Issue.category i))
  && asked (query_priority q) (Issue.priority i).

(** The order of [compare_option], as a relation: a missing value is below
    every value. *)
Definition option_lt {A} (lt : A -> A -> Prop) (a b : option A) : Prop :=
  match a, b with
  | None, Some _ => True
  | Some x, Some y => lt x y
  | _, None => False
  end.

(** Priorities in the order of their strings, creation times in the order
    of the clock. *)
Definition priority_lt : option string -> option string -> Prop :=
  option_lt OrdersEx.String_as_OT.lt.

Definition created_lt : option Date -> option Date -> Prop := option_lt Z.lt.

(** An unassigned issue waiting at [level]. *)
Definition waiting_issue (level category priority status : string)
    (created : Date) : Issue.t :=
  {| Issue.title := "Pothole"; Issue.category := category;
     Issue.priority := Some priority; Issue.status := status;
     Issue.latitude := None; Issue.longitude := None;
     Issue.reportedBy := Some 100%nat; Issue.assignedRole := Val level;
     Issue.assignedTo := None; Issue.assignedBy := None;
     Issue.assignedAt := Absent; Issue.acceptedBy := None;
     Issue.acceptedAt := None; Issue.escalationDeadline := Absent;
     Issue.escalationHistory := []; Issue.createdAt := Some created;
     Issue.resolvedAt := None; Issue.resolved := None;
     Issue.actualResolutionTime := None; Issue.pointsAwarded := false |}.

(** Three issues waiting for a supervisor and one that supervisor 40 has
    resolved. *)
Definition listing_world : World :=
  {| issues :=
       {[ 1%nat := waiting_issue "supervisor" "Roads" "high" "escalated" 10;
          2%nat := waiting_issue "supervisor" "Roads" "urgent" "escalated" 20;
          3%nat := waiting_issue "supervisor" "Water" "low" "escalated" 30;
          4%nat := accepted_issue 40 "resolved" ]};
     users := ∅;
     sent := [] |}.

Definition plain_query : ListQuery :=
  {| page := None; limit := None; query_status := None;
     query_category := None; query_priority := None |}.

Definition status_query (status : string) : ListQuery :=
  {| page := None; limit := None; query_status := Some status;
     query_category := None; query_priority := None |}.

(** ** The order of the directory lookup *)

(** [l] is in the order of [.sort({ loginCount: 1, lastLogin: -1 })]: of
    two users of [l], the earlier one has no more logins than the later
    one, and with as many logins its last login is not the earlier of the
    two (a missing last login being earlier than every date). *)
Definition by_logins_then_recency (l : list (doc User.t)) : Prop :=
  forall (i j : nat) (a b : doc User.t),
    (i < j)%nat -> l !! i = Some a -> l !! j = Some b ->
    User.loginCount a.2 <= User.loginCount b.2 /\
    (User.loginCount a.2 = User.loginCount b.2 ->
     ~ option_lt Z.lt (User.lastLogin a.2) (User.lastLogin b.2)).

(** ** The sweep, iteration by iteration *)







(** A resolution sent from the spot of the sample issue, with a photo. *)
Definition from_the_spot : ResolveRequest :=
  {| latitude := Some "16.0625"%string; longitude := Some "77.90625"%string;
     file := Some "uploads/resolved.jpg"%string |}.

(** * Properties *)

(** *** Sorting facts *)

Lemma insert_sorted_perm {A} (le : A -> A -> bool) x l :
  Permutation (insert_sorted le x l) (x :: l).
Proof.
  induction l as [|y l IH]; simpl; [reflexivity|].
  destruct (le x y); [reflexivity|].
  rewrite IH. apply perm_swap.
Qed.

Lemma sort_by_perm {A} (le : A -> A -> bool) l :
  Permutation (sort_by le l) l.
Proof.
  induction l as [|x l IH]; simpl; [reflexivity|].
  unfold sort_by in *. rewrite insert_sorted_perm. by constructor.
Qed.

Lemma insert_sorted_Sorted {A} (le : A -> A -> bool) x l :
  (forall a b, le a b = false -> le b a = true) ->
  Sorted (fun a b => le a b = true) l ->
  Sorted (fun a b => le a b = true) (insert_sorted le x l).
Proof.
  intros Htot. induction l as [|y l IH]; simpl; intros Hs.
  - repeat constructor.
  - destruct (le x y) eqn:Hxy.
    + constructor; [done|]. by constructor.
    + apply Sorted_inv in Hs as [Hs Hhd].
      constructor; [by apply IH|].
      destruct l as [|z l]; simpl.
      * constructor. by apply Htot.
      * destruct (le x z); constructor; [by apply Htot|].
        by apply HdRel_inv in Hhd.
Qed.

Lemma sort_by_Sorted {A} (le : A -> A -> bool) l :
  (forall a b, le a b = false -> le b a = true) ->
  Sorted (fun a b => le a b = true) (sort_by le l).
Proof.
  intros Htot. induction l as [|x l IH]; simpl; [constructor|].
  by apply insert_sorted_Sorted.
Qed.

Lemma sort_key_le_total a b : sort_key_le a b = false -> sort_key_le b a = true.
Proof.
  unfold sort_key_le, lastLogin_desc.
  destruct (User.lastLogin a.2), (User.lastLogin b.2);
    intros H; apply orb_false_iff in H as [H1 H2];
    apply andb_false_iff in H2; apply orb_true_iff;
    rewrite ?andb_true_iff; lia.
Qed.

(** *** What the three queries select *)

Lemma string_in_spec s l : string_in s l = true <-> s ∈ l.
Proof.
  unfold string_in. rewrite existsb_exists, list_elem_of_In. split.
  - intros (x & Hx & Heq). by apply String.eqb_eq in Heq as ->.
  - intros H. exists s. split; [done|]. apply String.eqb_refl.
Qed.

Lemma q_role_spec role u :
  q_role role u = true <-> User.role u = role /\ User.isActive u = true.
Proof. unfold q_role. by rewrite andb_true_iff, String.eqb_eq. Qed.

Lemma department_in d (department : option string) :
  d ∈ option_list department <-> department = Some d.
Proof.
  destruct department as [x|]; simpl.
  - rewrite list_elem_of_singleton. split; congruence.
  - split; [by intros ?%elem_of_nil|done].
Qed.

Lemma q_department_all_spec u :
  q_department_all u = true <-> "All" ∈ user_departments u.
Proof.
  unfold q_department_all, user_departments.
  rewrite orb_true_iff, existsb_exists, elem_of_app, department_in. split.
  - intros [(d & Hd & Heq)|H].
    + left. apply String.eqb_eq in Heq as ->. by apply list_elem_of_In.
    + right. destruct (User.department u) as [d|]; [|done].
      by apply String.eqb_eq in H as ->.
  - intros [H| ->].
    + left. exists "All"%string. by rewrite <- list_elem_of_In.
    + by right.
Qed.

Lemma q_department_in_spec category u :
  q_department_in category u = true <->
  category ∈ user_departments u \/ "All" ∈ user_departments u.
Proof.
  assert (forall d, string_in d [category; "All"] = true <->
                    d = category \/ d = "All"%string) as Hin.
  { intros d. unfold string_in. simpl.
    by rewrite orb_false_r, orb_true_iff, !String.eqb_eq. }
  unfold q_department_in, user_departments.
  rewrite orb_true_iff, existsb_exists, !elem_of_app, !department_in. split.
  - intros [(d & Hd & Hd')|H].
    + apply list_elem_of_In in Hd. apply Hin in Hd' as [->| ->]; tauto.
    + destruct (User.department u) as [d|]; [|done].
      apply Hin in H as [->| ->]; tauto.
  - intros [[H| ->]|[H| ->]].
    + left. exists category. rewrite <- list_elem_of_In, Hin. tauto.
    + right. apply Hin. tauto.
    + left. exists "All"%string. rewrite <- list_elem_of_In, Hin. tauto.
    + right. apply Hin. tauto.
Qed.

Lemma q_department_all_in category u :
  q_department_all u = true -> q_department_in category u = true.
Proof. rewrite q_department_all_spec, q_department_in_spec. tauto. Qed.

Lemma elem_of_User_find q users (d : doc User.t) :
  d ∈ User_find q users <-> users !! d.1 = Some d.2 /\ q d.2 = true.
Proof.
  unfold User_find. rewrite (sort_by_perm sort_key_le).
  rewrite list_elem_of_In, filter_In, <- list_elem_of_In.
  destruct d as [i u]. simpl. by rewrite elem_of_map_to_list.
Qed.

Lemma User_find_Sorted q users :
  Sorted (fun a b => sort_key_le a b = true) (User_find q users).
Proof. apply sort_by_Sorted, sort_key_le_total. Qed.

Lemma User_find_nil q users :
  User_find q users = [] <->
  forall i u, users !! i = Some u -> q u = false.
Proof.
  split.
  - intros H i u Hu. destruct (q u) eqn:Hq; [|done].
    assert ((i, u) ∈ User_find q users) as Hin
      by (by apply elem_of_User_find).
    rewrite H in Hin. by apply elem_of_nil in Hin.
  - intros H. destruct (User_find q users) as [|[i u] l] eqn:Hf; [done|].
    assert ((i, u) ∈ User_find q users) as Hin by (rewrite Hf; left).
    apply elem_of_User_find in Hin as [Hu Hq]. simpl in *.
    by rewrite (H i u Hu) in Hq.
Qed.

Lemma sort_key_le_trans (a b c : doc User.t) :
  sort_key_le a b = true -> sort_key_le b c = true -> sort_key_le a c = true.
Proof.
  unfold sort_key_le, lastLogin_desc.
  rewrite !orb_true_iff, !andb_true_iff, !Z.ltb_lt, !Z.eqb_eq.
  intros [H1|[H1 H1']] [H2|[H2 H2']]; [left; lia..|].
  right. split; [lia|].
  destruct (User.lastLogin a.2), (User.lastLogin b.2), (User.lastLogin c.2);
    try done.
  apply Z.leb_le in H1', H2'. apply Z.leb_le. lia.
Qed.

Lemma StronglySorted_lookup {A} (R : A -> A -> Prop) (l : list A)
    (i j : nat) (a b : A) :
  StronglySorted R l -> (i < j)%nat ->
  l !! i = Some a -> l !! j = Some b -> R a b.
Proof.
  intros Hs. revert i j. induction Hs as [|x l Hs IH Hall]; intros i j Hij Hi Hj.
  - done.
  - destruct j as [|j]; [lia|]. destruct i as [|i]; simpl in *.
    + injection Hi as ->. rewrite Forall_lookup in Hall. by eapply Hall.
    + eapply (IH i j); [lia|done..].
Qed.

Lemma sort_key_le_spec (a b : doc User.t) :
  sort_key_le a b = true <->
  User.loginCount a.2 < User.loginCount b.2 \/
  User.loginCount a.2 = User.loginCount b.2 /\
  ~ option_lt Z.lt (User.lastLogin a.2) (User.lastLogin b.2).
Proof.
  unfold sort_key_le, lastLogin_desc.
  rewrite orb_true_iff, andb_true_iff, Z.ltb_lt, Z.eqb_eq.
  destruct (User.lastLogin a.2) as [x|], (User.lastLogin b.2) as [y|];
    simpl; rewrite ?Z.leb_le; intuition (try lia; try done).
Qed.

Lemma User_find_by_logins_then_recency q users :
  by_logins_then_recency (User_find q users).
Proof.
  intros i j a b Hij Ha Hb.
  pose proof (Sorted_StronglySorted
                (fun a b c => sort_key_le_trans a b c)
                (User_find_Sorted q users)) as Hs.
  pose proof (StronglySorted_lookup _ _ i j a b Hs Hij Ha Hb) as Hle.
  apply sort_key_le_spec in Hle. split; [lia|].
  intros Heq. destruct Hle as [Hlt|[_ Hle]]; [lia|done].
Qed.

(** *** C9: the directory lookup *)

(** C9. [findAllUsersForRole] returns the first non-empty of three tiers:
    (1) the active staff with the role whose departments contain the
    category or "All", (2) the active staff with the role whose departments
    contain "All", (3) all active staff with the role.  Every tier is
    ordered by ascending login count, then descending last login: of two
    users of a tier the earlier one has no more logins than the later one,
    and with as many logins its last login is not the earlier one (a
    missing last login counting as the earliest).  The result is empty
    only when no active staff member carries the role, and
    [findUserForRole] returns the head of the same list. *)
Theorem findAllUsersForRole_first_nonempty_tier
    (users : gmap ObjectId User.t) (role category : string) :
  let tier1 :=
    User_find (fun u => q_role role u && q_department_in category u) users in
  let tier2 :=
    User_find (fun u => q_role role u && q_department_all u) users in
  let tier3 := User_find (q_role role) users in
  let found := findAllUsersForRole users role category in
  (forall d, d ∈ tier1 <->
     active_with_role users role d /\
     (category ∈ user_departments d.2 \/ "All" ∈ user_departments d.2)) /\
  (forall d, d ∈ tier2 <->
     active_with_role users role d /\ "All" ∈ user_departments d.2) /\
  (forall d, d ∈ tier3 <-> active_with_role users role d) /\
  Forall (fun t => by_logins_then_recency t /\
                   Sorted (fun a b => sort_key_le a b = true) t /\ NoDup t)
    [tier1; tier2; tier3] /\
  found = (if is_empty tier1 then if is_empty tier2 then tier3 else tier2
           else tier1) /\
  (found = [] <-> forall d, ~ active_with_role users role d) /\
  findUserForRole users role category = head found.
Proof.
  intros tier1 tier2 tier3 found.
  assert (forall q, NoDup (User_find q users)) as Hnodup.
  { intros q. unfold User_find. rewrite (sort_by_perm sort_key_le).
    apply NoDup_ListNoDup, List.NoDup_filter, NoDup_ListNoDup.
    apply NoDup_map_to_list. }
  assert (forall d, d ∈ tier3 <-> active_with_role users role d) as H3.
  { intros d. unfold tier3, active_with_role.
    by rewrite elem_of_User_find, q_role_spec. }
  assert (tier1 = [] -> tier2 = []) as H12.
  { unfold tier1, tier2. rewrite !User_find_nil. intros H i u Hu.
    specialize (H i u Hu). apply andb_false_iff in H as [H|H].
    - by rewrite H.
    - destruct (q_department_all u) eqn:Hall; [|by rewrite andb_false_r].
      by rewrite (q_department_all_in category u Hall) in H. }
  assert (forall d, d ∈ tier1 <->
     active_with_role users role d /\
     (category ∈ user_departments d.2 \/ "All" ∈ user_departments d.2)) as H1.
  { intros d. unfold tier1, active_with_role.
    rewrite elem_of_User_find, andb_true_iff, q_role_spec,
      q_department_in_spec. tauto. }
  assert (forall d, d ∈ tier2 <->
     active_with_role users role d /\ "All" ∈ user_departments d.2) as H2.
  { intros d. unfold tier2, active_with_role.
    rewrite elem_of_User_find, andb_true_iff, q_role_spec,
      q_department_all_spec. tauto. }
  split; [exact H1|]. split; [exact H2|]. split; [exact H3|].
  split; [|split; [|split; [split|]]].
  - repeat apply List.Forall_cons; [..|apply List.Forall_nil];
      (split; [apply User_find_by_logins_then_recency|];
       split; [apply User_find_Sorted|apply Hnodup]).
  - unfold found, findAllUsersForRole. fold tier1 tier2 tier3.
    destruct tier1; simpl; [|done]. by destruct tier2.
  - intros Hnil d Hd. apply H3 in Hd.
    unfold found, findAllUsersForRole in Hnil. fold tier1 tier2 tier3 in Hnil.
    destruct tier1; simpl in Hnil; [|done].
    destruct tier2; simpl in Hnil; [|done].
    rewrite Hnil in Hd. by apply elem_of_nil in Hd.
  - intros Hnone. unfold found, findAllUsersForRole. fold tier1 tier2 tier3.
    assert (tier3 = []) as ->.
    { destruct tier3 as [|d t] eqn:Ht; [done|].
      destruct (Hnone d). apply H3. left. }
    assert (forall q, User_find (fun u => q_role role u && q u) users = [])
      as Hsub.
    { intros q. apply User_find_nil. intros i u Hu.
      destruct (q_role role u) eqn:Hr; [|done].
      destruct (Hnone (i, u)). split; [done|]. by apply q_role_spec. }
    unfold tier1, tier2. by rewrite !Hsub.
  - unfold found, findUserForRole, findAllUsersForRole, User_findOne.
    fold tier1 tier2 tier3.
    destruct tier1; simpl; [|done]. by destruct tier2.
Qed.

(** *** C4: which issues the sweep selects *)

Lemma q_exists_spec {A} (f : field A) : q_exists f = true <-> f <> Absent.
Proof. destruct f; simpl; split; congruence. Qed.

Lemma q_not_exists_spec {A} (f : field A) :
  negb (q_exists f) = true <-> f = Absent.
Proof. destruct f; simpl; split; congruence. Qed.

Lemma q_null_spec {A} (f : field A) :
  q_null f = true <-> f = Null \/ f = Absent.
Proof. destruct f; simpl; intuition congruence. Qed.

Lemma q_lte_spec f d :
  q_lte f d = true <-> exists x, f = Some x /\ x <= d.
Proof.
  destruct f as [x|]; simpl.
  - rewrite Z.leb_le. split; [eauto|]. by intros (? & [= <-] & ?).
  - split; [done|]. by intros (? & ? & ?).
Qed.

Lemma q_lte_field_spec (f : field Date) d :
  q_lte (field_value f) d = true <-> exists x, f = Val x /\ x <= d.
Proof.
  rewrite q_lte_spec. destruct f; simpl; split;
    intros (x & Hx & Hle); try done; exists x; split; congruence.
Qed.

Lemma role_below_commissioner_spec i :
  q_in (Issue.assignedRole i) ["field-staff"; "supervisor"] = true <->
  role_below_commissioner i.
Proof.
  unfold role_below_commissioner.
  destruct (Issue.assignedRole i) as [| |r]; simpl.
  - split; [done|]. by intros [?|?].
  - split; [done|]. by intros [?|?].
  - rewrite orb_false_r, orb_true_iff, !String.eqb_eq.
    split; intros [H|H]; [left|right|left|right]; congruence.
Qed.

Lemma role_below_commissioner_ne i :
  role_below_commissioner i ->
  q_ne (Issue.assignedRole i) "commissioner" = true /\
  q_exists (Issue.assignedRole i) = true.
Proof. by intros [->| ->]. Qed.

Lemma sweep_status_spec i :
  string_in (Issue.status i) ["reported"; "in-progress"; "escalated"] = true
  <-> sweep_status i.
Proof.
  unfold sweep_status, string_in. simpl.
  rewrite orb_false_r, !orb_true_iff, !String.eqb_eq. tauto.
Qed.

Lemma older_than_grace_spec now i :
  q_lte (Issue.createdAt i) (now - 5 * 60 * 1000) = true <->
  older_than_grace false now i.
Proof.
  rewrite q_lte_spec. unfold older_than_grace, graceWindow.
  split; intros (c & Hc & Hle); exists c; split; try done; lia.
Qed.

Lemma overdueFilter_iff now i :
  overdueFilter now i = true <-> selected_by_query now i.
Proof.
  unfold overdueFilter, selected_by_query.
  rewrite !andb_true_iff, !orb_true_iff, !andb_true_iff.
  rewrite sweep_status_spec, !role_below_commissioner_spec,
    q_lte_field_spec, !older_than_grace_spec, !q_not_exists_spec,
    q_null_spec, !q_exists_spec, String.eqb_eq.
  pose proof (role_below_commissioner_ne i) as Hne.
  rewrite !q_exists_spec in Hne.
  split.
  - intros [Hs [[[H|H]|H]|H]]; (split; [done|]).
    + left. tauto.
    + right; left. tauto.
    + right; right; left. tauto.
    + right; right; right. tauto.
  - intros [Hs [H|[H|[H|H]]]]; (split; [done|]).
    + left; left; left. destruct H as [Hr (d & Hd & Hle)].
      destruct (Hne Hr). repeat split; eauto. congruence.
    + left; left; right. destruct H as (Hr & Hd & Ha).
      destruct (Hne Hr). tauto.
    + left; right. destruct H as (Hr & Hd & Ha).
      destruct (Hne Hr). tauto.
    + right. tauto.
Qed.

(** C4 (as the query has it). The sweep selects an issue exactly when its
    status is reported, in-progress or escalated and (a) its role is
    field-staff or supervisor and its deadline is set and not after now, or
    (b) its role is field-staff or supervisor, its deadline is missing and
    assignedAt is present, or (c) its role is field-staff or supervisor,
    its deadline is null or missing and it was created at least the grace
    window ago, or (d) its role is missing, its status is reported and it
    was created at least the grace window ago.  An issue whose role is
    commissioner is never selected. *)
Theorem overdueFilter_selects (now : Date) (i : Issue.t) :
  (overdueFilter now i = true <-> selected_by_query now i) /\
  (Issue.assignedRole i = Val "commissioner"%string ->
   overdueFilter now i = false).
Proof.
  split; [apply overdueFilter_iff|].
  intros Hrole. apply not_true_is_false. intros Hsel.
  apply overdueFilter_iff in Hsel as [_ [H|[H|[H|H]]]].
  - destruct H as [[Hr|Hr] _]; congruence.
  - destruct H as [[Hr|Hr] _]; congruence.
  - destruct H as [[Hr|Hr] _]; congruence.
  - destruct H as [Hr _]; congruence.
Qed.

(** C4, counterexample.  An issue at field-staff whose deadline and
    assignedAt are both missing and that was created exactly the grace
    window ago is selected by the query, although none of the documented
    clauses (deadline null, age exceeding the window) covers it. *)
Lemma overdueFilter_not_as_documented :
  let i := Issue.set_assignedRole (Val "field-staff"%string)
             (reported_issue 1000) in
  let now := 1000 + graceWindow in
  overdueFilter now i = true /\ ~ selected_as_documented now i.
Proof.
  split; [reflexivity|].
  intros [_ [H|[H|[H|H]]]].
  - by destruct H as [_ (d & Hd & _)].
  - destruct H as (_ & _ & Ha). by apply Ha.
  - by destruct H as (_ & Hd & _).
  - by destruct H as (Hr & _).
Qed.

(** *** C5: escalating at the top of the hierarchy *)

(** C5. For an issue whose role is commissioner, [escalateIssue] returns
    [null] without throwing and changes nothing: the loaded document, the
    stored issues (so no history entry is appended) and the notifications
    sent are what they were; the sweep's loop body pushes no entry for it. *)
Theorem escalateIssue_commissioner_noop
    (E : Env) (now : Date) (id : ObjectId) (issue : Issue.t) (w : World) :
  Issue.assignedRole issue = Val "commissioner"%string ->
  escalateIssue E now id issue w = (inr (None, issue), w) /\
  processIssue E now id issue w = (inr None, w).
Proof.
  intros Hrole. unfold processIssue, escalateIssue, bind.
  rewrite Hrole. simpl. done.
Qed.

Lemma escalateIssue_commissioner_noop_witness :
  let issue := Issue.set_assignedRole (Val "commissioner"%string)
                 (reported_issue 0) in
  let w := {| issues := {[ 1%nat := issue ]}; users := ∅; sent := [] |} in
  escalateIssue sample_env 1000 1 issue w = (inr (None, issue), w) /\
  processIssue sample_env 1000 1 issue w = (inr None, w).
Proof. intros issue w. by apply escalateIssue_commissioner_noop. Defined.

(** *** What the sweep reports: accounting *)

Lemma sweepLoop_results E now l acc w :
  (sweepLoop E now l acc w).1 = acc ++ omap entry_of (outcomes E now l w).
Proof.
  revert acc w. induction l as [|issue rest IH]; intros acc w; simpl.
  - by rewrite app_nil_r.
  - unfold entry_of at 1. simpl.
    destruct (processIssue E now issue.1 issue.2 w) as [[error|[entry|]] w'];
      simpl; rewrite IH; by rewrite <- ?app_assoc.
Qed.






(** *** What one iteration of the sweep may touch *)

Lemma touches_only_ret {A} id (a : A) : touches_only id (ret a).
Proof. by intros w. Qed.

Lemma touches_only_get_users id : touches_only id get_users.
Proof. by intros w. Qed.

Lemma touches_only_bind {A B} id (m : M A) (k : A -> M B) :
  touches_only id m -> (forall a, touches_only id (k a)) ->
  touches_only id (bind m k).
Proof.
  intros Hm Hk w. unfold bind. specialize (Hm w).
  destruct (m w) as [[e|a] w']; simpl in *; [done|].
  destruct (Hk a w') as [Hu Hi]. destruct Hm as [Hu' Hi']. split.
  - by rewrite Hu.
  - intros j Hj. by rewrite Hi, Hi'.
Qed.

Lemma touches_only_Issue_save E id issue : touches_only id (Issue_save E id issue).
Proof.
  intros w. unfold Issue_save.
  destruct (Issue_save_error E id issue); simpl; [done|].
  split; [done|]. intros j Hj. by rewrite lookup_insert_ne.
Qed.

Lemma touches_only_notifyIssueAssignment E id j r a :
  touches_only id (notifyIssueAssignment E j r a).
Proof.
  intros w. unfold notifyIssueAssignment.
  by destruct (notify_error E (AssignmentNotice j r a)).
Qed.

Lemma touches_only_notifyAll E id j rs a :
  touches_only id (notifyAll E j rs a).
Proof.
  induction rs as [|r rs IH]; intros w; simpl; [done|].
  pose proof (touches_only_notifyIssueAssignment E id j r.1 a w) as [Hu Hi].
  destruct (notifyIssueAssignment E j r.1 a w) as [[e|[]] w']; simpl in *.
  - destruct (IH w') as [Hu' Hi']. split; [by rewrite Hu'|].
    intros k Hk. by rewrite Hi', Hi.
  - destruct (IH w') as [Hu' Hi']. split; [by rewrite Hu'|].
    intros k Hk. by rewrite Hi', Hi.
Qed.

Ltac touches_only_step :=
  first
    [ apply touches_only_ret
    | apply touches_only_get_users
    | apply touches_only_Issue_save
    | apply touches_only_notifyIssueAssignment
    | apply touches_only_notifyAll
    | apply touches_only_bind; [|intros ?]
    | case_match ].

Lemma touches_only_assignToFieldStaff E now id issue :
  touches_only id (assignToFieldStaff E now id issue).
Proof. unfold assignToFieldStaff. repeat touches_only_step. Qed.

Lemma touches_only_escalateIssue E now id issue :
  touches_only id (escalateIssue E now id issue).
Proof.
  unfold escalateIssue.
  repeat first [ apply touches_only_assignToFieldStaff | touches_only_step ].
Qed.

Lemma touches_only_processIssue E now id issue :
  touches_only id (processIssue E now id issue).
Proof.
  unfold processIssue.
  repeat first [ apply touches_only_assignToFieldStaff
               | apply touches_only_escalateIssue
               | touches_only_step ].
Qed.

Lemma sweepLoop_frame E now l acc w j :
  j ∉ l.*1 ->
  users (sweepLoop E now l acc w).2 = users w /\
  issues (sweepLoop E now l acc w).2 !! j = issues w !! j.
Proof.
  revert acc w. induction l as [|issue rest IH]; intros acc w Hj; simpl;
    [done|].
  apply not_elem_of_cons in Hj as [Hne Hj].
  pose proof (touches_only_processIssue E now issue.1 issue.2 w) as [Hu Hi].
  destruct (processIssue E now issue.1 issue.2 w) as [[e|[entry|]] w'];
    simpl in *;
    match goal with
    | |- context [sweepLoop E now rest ?a w'] =>
        destruct (IH a w' Hj) as [Hu' Hi']
    end; (split; [by rewrite Hu'|]); rewrite Hi'; by apply Hi.
Qed.

(** Each listed issue is processed once, in a world that has the users and
    that issue as the sweep found them; what its processing stored for it
    is what the sweep leaves, and its outcome is among the outcomes. *)
Lemma sweepLoop_processes E now l acc w id issue :
  NoDup l.*1 -> (id, issue) ∈ l ->
  exists wk,
    users wk = users w /\
    issues wk !! id = issues w !! id /\
    issues (sweepLoop E now l acc w).2 !! id
      = issues (processIssue E now id issue wk).2 !! id /\
    ((id, issue), (processIssue E now id issue wk).1) ∈ outcomes E now l w.
Proof.
  revert acc w. induction l as [|d rest IH]; intros acc w Hnd Hin;
    [by apply elem_of_nil in Hin|].
  simpl in Hnd. apply NoDup_cons in Hnd as [Hd Hnd].
  apply elem_of_cons in Hin as [<-|Hin].
  - exists w. split; [done|]. split; [done|]. simpl. split; [|left].
    destruct (processIssue E now id issue w) as [[e|[entry|]] w']; simpl;
      by apply sweepLoop_frame.
  - assert (d.1 <> id) as Hne.
    { intros <-. apply Hd. by apply (list_elem_of_fmap_2 fst) in Hin. }
    pose proof (touches_only_processIssue E now d.1 d.2 w) as [Hu Hi].
    simpl.
    destruct (processIssue E now d.1 d.2 w) as [[e|[entry|]] w'];
      simpl in *;
      match goal with
      | |- context [sweepLoop E now rest ?a w'] =>
          destruct (IH a w' Hnd Hin) as (wk & Hwu & Hwi & Hfin & Hout)
      end;
      (exists wk; split; [by rewrite Hwu|]; split; [by rewrite Hwi, Hi|];
       split; [done|]; by right).
Qed.

(** *** C7: the fast track of a never-assigned issue *)

Lemma hoursOld_sixth issueAge :
  Qle_bool (1 / 6) (hoursOld issueAge) = true <-> 10 * 60 * 1000 <= issueAge.
Proof.
  rewrite Qle_bool_iff. unfold hoursOld, Qle, Qdiv, Qmult, Qinv. simpl. lia.
Qed.

Lemma hoursOld_twelfth issueAge :
  Qle_bool (1 / 12) (hoursOld issueAge) = true <-> 5 * 60 * 1000 <= issueAge.
Proof.
  rewrite Qle_bool_iff. unfold hoursOld, Qle, Qdiv, Qmult, Qinv. simpl. lia.
Qed.

(** The three priority branches of the sweep compute the same role. *)
Lemma targetRoleOf_age priority issueAge :
  targetRoleOf priority (hoursOld issueAge) =
  if 10 * 60 * 1000 <=? issueAge then "commissioner"%string
  else if 5 * 60 * 1000 <=? issueAge then "supervisor"%string
  else "field-staff"%string.
Proof.
  assert (Qle_bool (1 / 6) (hoursOld issueAge) = (10 * 60 * 1000 <=? issueAge))
    as H6.
  { apply eq_true_iff_eq. by rewrite hoursOld_sixth, Z.leb_le. }
  assert (Qle_bool (1 / 12) (hoursOld issueAge) = (5 * 60 * 1000 <=? issueAge))
    as H12.
  { apply eq_true_iff_eq. by rewrite hoursOld_twelfth, Z.leb_le. }
  unfold targetRoleOf. rewrite H6, H12. by repeat case_match.
Qed.

Lemma notifyAll_delivered E id recipients actor w :
  (forall r, notify_error E (AssignmentNotice id r actor) = None) ->
  notifyAll E id recipients actor w =
  (inr tt,
   set_sent
     (sent w ++ ((fun r => AssignmentNotice id r.1 actor) <$> recipients)) w).
Proof.
  intros Hok. revert w.
  induction recipients as [|r rs IH]; intros w; simpl.
  - unfold ret. rewrite app_nil_r. by destruct w.
  - unfold notifyIssueAssignment. rewrite Hok, IH. simpl.
    by rewrite <- app_assoc.
Qed.

#[local] Arguments notifyAll : simpl never.

(** C7 (as the sweep has it).  A reported issue with no role and priority
    high that was created at least ten minutes ago is, when the directory
    has a commissioner for its category and neither the save nor the
    notifications throw, moved by the sweep straight to commissioner:
    assignedTo and assignedBy are the first commissioner found, assignedAt
    is now, status is escalated, the deadline is the one computed for
    (high, commissioner), and the sweep's results hold the entry for this
    issue with fromRole "unassigned" and toRole "commissioner". *)
Theorem checkAndEscalateIssues_fast_track_commissioner
    (E : Env) (now : Date) (w : World) (id : ObjectId) (issue : Issue.t)
    (created : Date) (first : doc User.t) (others : list (doc User.t)) :
  issues w !! id = Some issue ->
  Issue.status issue = "reported"%string ->
  Issue.assignedRole issue = Absent ->
  Issue.priority issue = Some "high"%string ->
  Issue.createdAt issue = Some created ->
  10 * 60 * 1000 <= now - created ->
  findAllUsersForRole (users w) "commissioner" (Issue.category issue)
    = first :: others ->
  (forall d, Issue_save_error E id d = None) ->
  (forall r, notify_error E (AssignmentNotice id r first.1) = None) ->
  let out := checkAndEscalateIssues E now w in
  let moved :=
    Issue.set_status "escalated"
      (Issue.set_assignedAt (Val now)
         (Issue.set_assignedBy (Some first.1)
            (Issue.set_assignedTo (Some first.1)
               (Issue.set_assignedRole (Val "commissioner"%string) issue)))) in
  overdueFilter now issue = true /\
  (exists stored,
     issues out.2 !! id = Some stored /\
     Issue.assignedRole stored = Val "commissioner"%string /\
     Issue.assignedTo stored = Some first.1 /\
     Issue.assignedBy stored = Some first.1 /\
     Issue.assignedAt stored = Val now /\
     Issue.status stored = "escalated"%string /\
     Issue.escalationDeadline stored =
       Val (calculateEscalationDeadline E now moved "high" "commissioner")) /\
  Escalated id (Issue.title issue) (Val "unassigned"%string) "commissioner"
    ∈ results out.1.
Proof.
  intros Hw Hst Hrole Hprio Hcreated Hage Hstaff Hsave Hnotify out moved.
  assert (overdueFilter now issue = true) as Hsel.
  { apply overdueFilter_iff. split; [by left|].
    right; right; right. split; [done|]. split; [done|].
    exists created. split; [done|]. unfold graceWindow. lia. }
  split; [done|].
  assert ((id, issue) ∈ overdueIssuesOf now w) as Hin.
  { unfold overdueIssuesOf. apply list_elem_of_In, filter_In.
    split; [|done]. by apply list_elem_of_In, elem_of_map_to_list. }
  assert (NoDup (overdueIssuesOf now w).*1) as Hnd.
  { unfold overdueIssuesOf.
    apply (sublist_NoDup _ (map_to_list (issues w)).*1);
      [apply (NoDup_fst_map_to_list (issues w))|].
    apply fmap_sublist. induction (map_to_list (issues w)) as [|d l IH];
      simpl; [done|].
    destruct (overdueFilter now d.2); by constructor. }
  destruct (sweepLoop_processes E now _ [] w id issue Hnd Hin)
    as (wk & Hu & Hi & Hfin & Hout).
  assert (processIssue E now id issue wk =
          (inr (Some (Escalated id (Issue.title issue)
                        (Val "unassigned"%string) "commissioner")),
           set_sent
             (sent wk ++ ((fun r => AssignmentNotice id r.1 first.1)
                            <$> (first :: others)))
             (set_issues
                (<[id := Issue.set_escalationDeadline
                           (Val (calculateEscalationDeadline E now moved
                                   "high" "commissioner")) moved]>
                   (issues wk)) wk))) as Hp.
  { unfold processIssue. rewrite Hrole, Hprio, Hcreated. simpl.
    rewrite targetRoleOf_age.
    destruct (10 * 60 * 1000 <=? now - created) eqn:Hle;
      [|apply Z.leb_gt in Hle; lia].
    simpl. unfold bind, get_users. rewrite Hu, Hstaff. simpl.
    rewrite Hprio. simpl. unfold Issue_save. rewrite Hsave.
    by rewrite notifyAll_delivered. }
  split.
  - eexists. split.
    + unfold out, checkAndEscalateIssues. simpl. rewrite Hfin, Hp. simpl.
      apply lookup_insert_eq.
    + done.
  - unfold out, checkAndEscalateIssues. simpl. rewrite sweepLoop_results.
    simpl. apply list_elem_of_omap. eexists. split; [exact Hout|].
    by rewrite Hp.
Qed.

(** C7, counterexample.  With a commissioner in the directory the sweep
    moves a ten-minute-old unassigned high-priority issue to commissioner
    and reports it with fromRole "unassigned", but the escalation history
    of the stored issue stays empty; with no commissioner in the directory
    the same issue is selected and left as it was, with no entry. *)
Lemma checkAndEscalateIssues_fast_track_no_history :
  let w := sample_world (reported_issue 0) in
  let out := checkAndEscalateIssues sample_env 600000 w in
  let w' := set_users {[ 30%nat := officer.2 ]} w in
  let out' := checkAndEscalateIssues sample_env 600000 w' in
  ((Issue.assignedRole <$> issues out.2 !! 1%nat)
     = Some (Val "commissioner"%string) /\
   (Issue.escalationHistory <$> issues out.2 !! 1%nat) = Some [] /\
   results out.1 =
     [Escalated 1 "Street light out" (Val "unassigned"%string) "commissioner"])
  /\
  (overdueIssuesOf 600000 w' = [(1%nat, reported_issue 0)] /\
   issues out'.2 !! 1%nat = Some (reported_issue 0) /\
   results out'.1 = []).
Proof. vm_compute. repeat split. Qed.

(** *** C1: exclusive acceptance *)

Lemma acceptFilter_spec userId issue :
  acceptFilter userId issue = true <-> acceptable userId issue.
Proof.
  unfold acceptFilter, acceptable, string_in. simpl.
  destruct (Issue.acceptedBy issue), (Issue.assignedTo issue) as [a|]; simpl;
    rewrite ?andb_true_iff, ?andb_false_r, ?orb_false_r, ?orb_true_iff,
      ?String.eqb_eq, ?Nat.eqb_eq; intuition congruence.
Qed.

Lemma assignedToAnother_spec issue userId :
  assignedToAnother issue userId = true <->
  exists other, Issue.assignedTo issue = Some other /\ other <> userId.
Proof.
  unfold assignedToAnother. destruct (Issue.assignedTo issue) as [a|].
  - rewrite negb_true_iff, Nat.eqb_neq. split; [eauto|].
    by intros (? & [= <-] & ?).
  - split; [done|]. by intros (? & ? & ?).
Qed.

Lemma acceptUpdate_claimed now userId issue :
  claimed now userId issue (acceptUpdate now userId issue issue).
Proof.
  unfold claimed, acceptUpdate. simpl.
  destruct (Issue.assignedBy issue), (Issue.assignedAt issue); simpl;
    repeat split.
Qed.

(** C1. For a caller with an employee role and an existing issue,
    [acceptIssue] succeeds exactly when the issue is reported or assigned,
    not accepted, and assigned to nobody or to the caller.  On success the
    stored issue is the claimed one (in-progress, acceptedBy, assignedTo
    the caller, acceptedAt now, assignedBy and assignedAt kept when
    present), returned with the response.  Otherwise the conditional update
    matches no document, the world is unchanged, and the response is a
    refusal that names the reason. *)
Theorem acceptIssue_exclusive
    (now : Date) (id : ObjectId) (user : doc User.t) (w : World)
    (issue : Issue.t) :
  User.role user.2 ∈ employeeRoles ->
  issues w !! id = Some issue ->
  let out := acceptIssue now id user w in
  let update :=
    Issue_updateOne (acceptFilter user.1) (acceptUpdate now user.1 issue) id w in
  (Response.success out.1 = true <-> acceptable user.1 issue) /\
  (acceptable user.1 issue ->
   exists accepted,
     claimed now user.1 issue accepted /\
     update.1 = 1%nat /\
     out = (Response.ok IssueAccepted (Some accepted),
            set_issues (<[id := accepted]> (issues w)) w)) /\
  (~ acceptable user.1 issue ->
   update = (0%nat, w) /\ out.2 = w /\ names_the_reason user.1 issue out.1).
Proof.
  intros Hrole Hw out update.
  apply string_in_spec in Hrole.
  assert (acceptable user.1 issue ->
          out = (Response.ok IssueAccepted
                   (Some (acceptUpdate now user.1 issue issue)),
                 set_issues
                   (<[id := acceptUpdate now user.1 issue issue]> (issues w)) w)
          /\ update.1 = 1%nat) as Hyes.
  { intros Hacc. unfold out, update, acceptIssue, Issue_updateOne.
    rewrite Hrole, Hw. simpl.
    assert (assignedToAnother issue user.1 = false) as ->.
    { apply not_true_is_false. rewrite assignedToAnother_spec.
      intros (other & Ho & Hne). destruct Hacc as (_ & _ & [Ht|Ht]); congruence. }
    apply acceptFilter_spec in Hacc. rewrite Hacc. simpl.
    by rewrite lookup_insert_eq. }
  assert (~ acceptable user.1 issue ->
          update = (0%nat, w) /\ out.2 = w /\
          names_the_reason user.1 issue out.1) as Hno.
  { intros Hacc. rewrite <- acceptFilter_spec in Hacc.
    apply not_true_is_false in Hacc.
    assert (update = (0%nat, w)) as Hupd.
    { unfold update, Issue_updateOne. by rewrite Hw, Hacc. }
    split; [done|].
    unfold out, acceptIssue. rewrite Hrole, Hw. simpl.
    destruct (assignedToAnother issue user.1) eqn:Hother; simpl.
    { split; [done|]. right; right. split; [done|].
      by apply assignedToAnother_spec. }
    unfold update in Hupd. rewrite Hupd. simpl. rewrite Hw.
    destruct (Issue.acceptedBy issue) as [a|] eqn:Hby; simpl.
    { split; [done|]. left. split; [done|]. by rewrite Hby. }
    destruct (string_in (Issue.status issue) ["reported"; "assigned"])
      eqn:Hst.
    - exfalso. unfold acceptFilter in Hacc. rewrite Hst, Hby in Hacc.
      unfold assignedToAnother in Hother.
      destruct (Issue.assignedTo issue); simpl in *; [|done].
      apply negb_false_iff in Hother. congruence.
    - unfold string_in in Hst. simpl in Hst. rewrite Hst. simpl.
      split; [done|]. right; left. split; [done|].
      rewrite orb_false_r in Hst. apply orb_false_iff in Hst as [H1 H2].
      by rewrite !String.eqb_neq in *. }
  split; [|split; [|done]].
  - split.
    + intros Hs. destruct (decide (acceptable user.1 issue)) as [|Hn]; [done|].
      exfalso.
      destruct (Hno Hn) as (_ & _ & [[Hr _]|[[Hr _]|[Hr _]]]);
        by rewrite Hr in Hs.
    + intros Hacc. destruct (Hyes Hacc) as [-> _]. done.
  - intros Hacc. destruct (Hyes Hacc) as [-> Hone].
    eexists. split; [apply acceptUpdate_claimed|]. done.
Qed.

(** *** C2: who may resolve, and from which status *)

Lemma attachPhoto_status req issue :
  Issue.status (attachPhoto req issue) = Issue.status issue.
Proof. unfold attachPhoto. by destruct (file req). Qed.

Lemma checkLocation_status E req issue issue' :
  checkLocation E req issue = inr issue' ->
  Issue.status issue' = Issue.status issue.
Proof.
  unfold checkLocation. intros H.
  repeat case_match; simplify_eq; done.
Qed.

Lemma awardPoints_issue E issue w :
  issues (awardPoints E issue w).2 = issues w /\
  forall issue', (awardPoints E issue w).1 = inr issue' ->
    Issue.status issue' = Issue.status issue.
Proof.
  unfold awardPoints.
  repeat case_match; simpl; (split; [done|]); intros ? ?; by simplify_eq.
Qed.

Lemma finishResolve_status E now id userId issue w :
  let out := finishResolve E now id userId issue w in
  (Issue.status issue <> "in-progress"%string ->
   out = (Response.error 400 (MustBeInProgress (Issue.status issue)), w)) /\
  (Response.success out.1 = true ->
   Issue.status issue = "in-progress"%string /\
   exists stored, issues out.2 !! id = Some stored /\
     Issue.status stored = "resolved"%string).
Proof.
  unfold finishResolve.
  destruct (Issue.status issue =? "in-progress")%string eqn:Hst; simpl.
  - apply String.eqb_eq in Hst. split; [done|].
    repeat case_match; simpl; intros Hs; try done;
      (split; [done|]); eexists; (split; [apply lookup_insert_eq|done]).
  - apply String.eqb_neq in Hst. split; done.
Qed.

(** C2. [resolveIssue] on an existing issue: when nobody accepted the
    issue it answers 400 and changes nothing; when somebody did, a caller
    who is neither that staff member nor an admin gets 403 and nothing
    changes; when the status is not in-progress no issue is written and
    the call fails; a call that succeeds found the issue in-progress and
    leaves it resolved. *)
Theorem resolveIssue_authorization
    (E : Env) (now : Date) (id : ObjectId) (user : doc User.t)
    (req : ResolveRequest) (w : World) (issue : Issue.t) :
  issues w !! id = Some issue ->
  let out := resolveIssue E now id user req w in
  (Issue.acceptedBy issue = None ->
   out = (Response.error 400 MustBeAcceptedFirst, w)) /\
  (forall accepter,
     Issue.acceptedBy issue = Some accepter ->
     accepter <> user.1 -> User.role user.2 <> "admin"%string ->
     out = (Response.error 403 OnlyAccepterCanResolve, w)) /\
  (Issue.status issue <> "in-progress"%string ->
   Response.success out.1 = false /\ issues out.2 = issues w) /\
  (Response.success out.1 = true ->
   Issue.status issue = "in-progress"%string /\
   exists stored, issues out.2 !! id = Some stored /\
     Issue.status stored = "resolved"%string).
Proof.
  intros Hw out. unfold out, resolveIssue. rewrite Hw.
  split; [by intros ->|]. split.
  { intros accepter -> Hne Hrole.
    apply Nat.eqb_neq in Hne. apply String.eqb_neq in Hrole.
    by rewrite Hne, Hrole. }
  destruct (Issue.acceptedBy issue) as [accepter|]; [|by split].
  destruct (negb (User.role user.2 =? "admin")%string
            && negb (accepter =? user.1)%nat); [by split|].
  destruct (checkLocation E req (attachPhoto req issue)) as [r|located]
    eqn:Hloc.
  { unfold checkLocation in Hloc.
    repeat case_match; simplify_eq; by split. }
  apply checkLocation_status in Hloc. rewrite attachPhoto_status in Hloc.
  pose proof (awardPoints_issue E located w) as [Hiss Hst].
  destruct (awardPoints E located w) as [[r|awarded] w'] eqn:Hpts; simpl in *.
  { unfold awardPoints in Hpts.
    repeat case_match; simplify_eq; by split. }
  specialize (Hst awarded eq_refl). rewrite Hloc in Hst.
  pose proof (finishResolve_status E now id user.1 awarded w') as [Hbad Hgood].
  rewrite Hst in Hbad, Hgood. split.
  - intros Hne. rewrite (Hbad Hne). by split.
  - exact Hgood.
Qed.

(** *** C3: the points of the reporter *)

(** C3, the code at a failing input.  An accepted issue that the sweep has
    moved to status escalated: each call of [resolveIssue] by the staff
    member who accepted it is refused (the issue is not in-progress) after
    the reporter was given ten points, and the stored issue keeps
    pointsAwarded = false.  Two calls give twenty points. *)
Theorem resolveIssue_awards_points_on_refused_calls :
  let issue := accepted_issue 30 "escalated" in
  let w := sample_world issue in
  let first := resolveIssue sample_env 1000 1 officer no_location w in
  let second := resolveIssue sample_env 2000 1 officer no_location first.2 in
  first.1 = Response.error 400 (MustBeInProgress "escalated") /\
  second.1 = Response.error 400 (MustBeInProgress "escalated") /\
  issues second.2 !! 1%nat = Some issue /\
  Issue.pointsAwarded issue = false /\
  User.points <$> users w !! 100%nat = Some None /\
  User.points <$> users first.2 !! 100%nat = Some (Some 10) /\
  User.points <$> users second.2 !! 100%nat = Some (Some 20).
Proof. vm_compute. repeat split. Qed.

(** The state of that input arises from the operations themselves, with
    the Issue model as the design document has it: the issue is assigned
    to field-staff, the officer accepts it, its deadline passes and the
    sweep escalates it to the supervisors.  It is then escalated and still
    accepted by the officer, whose two attempts to resolve it are refused
    and give the reporter twenty points. *)
Lemma resolveIssue_refused_calls_reachable :
  let assigned := spec_assign 0 30 30 "field-staff" (reported_issue 0) in
  let w0 := sample_world assigned in
  let accepted := acceptIssue 1000 1 officer w0 in
  let swept := checkAndEscalateIssues sample_env 400000 accepted.2 in
  let first := resolveIssue sample_env 500000 1 officer no_location swept.2 in
  let second := resolveIssue sample_env 600000 1 officer no_location first.2 in
  Response.success accepted.1 = true /\
  escalated swept.1 = 1%nat /\
  (Issue.status <$> issues swept.2 !! 1%nat) = Some "escalated"%string /\
  (Issue.acceptedBy <$> issues swept.2 !! 1%nat) = Some (Some 30%nat) /\
  Response.code first.1 = 400%nat /\
  Response.code second.1 = 400%nat /\
  (Issue.pointsAwarded <$> issues second.2 !! 1%nat) = Some false /\
  User.points <$> users second.2 !! 100%nat = Some (Some 20).
Proof. vm_compute. repeat split. Qed.

(** *** C8: the geofence *)

(** C8, the code at a failing input.  An issue reported on the equator
    (latitude 0) is resolved from latitude 45, some five thousand
    kilometers away; an issue reported on the Greenwich meridian
    (longitude 0) is resolved from three degrees further south.  Whatever
    the runtime's sine, cosine and arc tangent compute, the distance is
    never looked at: both calls succeed and store the supplied location. *)
Theorem resolveIssue_zero_coordinate_skips_geofence
    (sin cos : float -> float) (atan2 : float -> float -> float) :
  let E := with_math sin cos atan2 sample_env in
  let equator :=
    Issue.set_latitude (Some 0%float) (accepted_issue 30 "in-progress") in
  let greenwich :=
    Issue.set_longitude (Some 0%float)
      (Issue.set_latitude (Some 51.5%float)
         (accepted_issue 30 "in-progress")) in
  let from_north :=
    {| latitude := Some "45"%string; longitude := Some "77.90625"%string;
       file := None |} in
  let from_south :=
    {| latitude := Some "48.5"%string; longitude := Some "0"%string;
       file := None |} in
  let out := resolveIssue E 1000 1 officer from_north (sample_world equator) in
  let out' :=
    resolveIssue E 1000 1 officer from_south (sample_world greenwich) in
  (Response.code out.1 = 200%nat /\
   Response.success out.1 = true /\
   (Issue.status <$> issues out.2 !! 1%nat) = Some "resolved"%string /\
   stored_location out.2 1 = Some (45%float, 77.90625%float)) /\
  (Response.code out'.1 = 200%nat /\
   Response.success out'.1 = true /\
   (Issue.status <$> issues out'.2 !! 1%nat) = Some "resolved"%string /\
   stored_location out'.2 1 = Some (48.5%float, 0%float)).
Proof. vm_compute. repeat split. Qed.

(** *** C10: no stored coordinates, no geofence *)

Lemma truthy_string_Some s : s <> ""%string -> truthy_string (Some s) = true.
Proof. intros H. simpl. by apply negb_true_iff, String.eqb_neq. Qed.

Lemma may_resolve_passes user issue accepter :
  Issue.acceptedBy issue = Some accepter -> may_resolve user issue ->
  negb (User.role user.2 =? "admin")%string && negb (accepter =? user.1)%nat
  = false.
Proof.
  intros Hby (a & Ha & Hor). rewrite Hby in Ha. injection Ha as <-.
  destruct Hor as [->| ->].
  - by rewrite Nat.eqb_refl, andb_false_r.
  - by rewrite String.eqb_refl.
Qed.

Lemma awardPoints_ok E issue w :
  (forall i u, User_save_error E i u = None) ->
  exists awarded w',
    awardPoints E issue w = (inr awarded, w') /\
    issues w' = issues w /\
    Issue.status awarded = Issue.status issue /\
    Issue.resolved awarded = Issue.resolved issue.
Proof.
  intros Hok. unfold awardPoints.
  repeat case_match; try (by eauto 10).
  by rewrite Hok in *.
Qed.

Lemma finishResolve_ok E now id userId issue w :
  Issue.status issue = "in-progress"%string ->
  (forall d, Issue_save_error E id d = None) ->
  notify_error E (ResolutionNotice id userId) = None ->
  let out := finishResolve E now id userId issue w in
  Response.success out.1 = true /\
  exists stored,
    issues out.2 !! id = Some stored /\
    Issue.status stored = "resolved"%string /\
    Issue.resolved stored =
      Some {| Issue.photo := Issue.photo (resolved_or_empty issue);
              Issue.location := Issue.location (resolved_or_empty issue);
              Issue.resolvedBy := Some userId |}.
Proof.
  intros Hst Hsave Hnotify. unfold finishResolve.
  rewrite Hst, Hsave, Hnotify. simpl. split; [done|].
  eexists. split; [apply lookup_insert_eq|].
  by destruct (Issue.createdAt issue).
Qed.

(** C10. When the stored issue lacks its latitude or its longitude,
    [resolveIssue] measures no distance: for every supplied location
    (non-empty latitude and longitude fields) the geofence block keeps the
    request and records the location, the response is never the geofence
    refusal, and a call that is allowed (caller may resolve, issue
    in-progress, no failure of the store or the notifications) succeeds
    and stores the supplied location in resolved.location. *)
Theorem resolveIssue_no_geofence_without_coordinates
    (E : Env) (now : Date) (id : ObjectId) (user : doc User.t)
    (req : ResolveRequest) (w : World) (issue : Issue.t) (lat lng : string) :
  issues w !! id = Some issue ->
  Issue.latitude issue = None \/ Issue.longitude issue = None ->
  latitude req = Some lat -> longitude req = Some lng ->
  lat <> ""%string -> lng <> ""%string ->
  let out := resolveIssue E now id user req w in
  let supplied := (parseFloat E lat, parseFloat E lng) in
  (exists located,
     checkLocation E req (attachPhoto req issue) = inr located /\
     (Issue.location <$> Issue.resolved located) = Some (Some supplied)) /\
  (forall allowed distance,
     Response.message out.1 <> TooFarFromReportedLocation allowed distance) /\
  (may_resolve user issue ->
   Issue.status issue = "in-progress"%string ->
   (forall d, Issue_save_error E id d = None) ->
   (forall i u, User_save_error E i u = None) ->
   notify_error E (ResolutionNotice id user.1) = None ->
   Response.success out.1 = true /\
   (Issue.status <$> issues out.2 !! id) = Some "resolved"%string /\
   stored_location out.2 id = Some supplied).
Proof.
  intros Hw Hcoord Hlat Hlng Hlat_ne Hlng_ne out supplied.
  assert (checkLocation E req (attachPhoto req issue) =
          inr (Issue.set_resolved
                 (Some {| Issue.photo :=
                            Issue.photo
                              (resolved_or_empty (attachPhoto req issue));
                          Issue.location := Some supplied;
                          Issue.resolvedBy :=
                            Issue.resolvedBy
                              (resolved_or_empty (attachPhoto req issue)) |})
                 (attachPhoto req issue))) as Hloc.
  { unfold checkLocation. rewrite Hlat, Hlng.
    rewrite (truthy_string_Some lat Hlat_ne), (truthy_string_Some lng Hlng_ne).
    simpl.
    assert (Issue.latitude (attachPhoto req issue) = Issue.latitude issue
            /\ Issue.longitude (attachPhoto req issue) = Issue.longitude issue)
      as [-> ->] by (unfold attachPhoto; by destruct (file req)).
    destruct Hcoord as [-> | ->]; [done|].
    by destruct (Issue.latitude issue). }
  split; [eexists; split; [exact Hloc|done]|].
  split.
  - intros allowed distance. unfold out, resolveIssue. rewrite Hw, Hloc.
    unfold awardPoints, finishResolve.
    repeat case_match; simplify_eq; simpl; done.
  - intros Hmay Hst Hsave Husave Hnotify.
    destruct Hmay as (accepter & Hby & Hor).
    unfold out, stored_location, resolveIssue. rewrite Hw, Hby.
    rewrite (may_resolve_passes user issue accepter Hby)
      by (exists accepter; by split).
    rewrite Hloc.
    match goal with
    | |- context [awardPoints E ?i w] =>
        destruct (awardPoints_ok E i w Husave)
          as (awarded & w' & -> & _ & Hst' & Hres)
    end.
    simpl in Hst', Hres. rewrite attachPhoto_status, Hst in Hst'.
    destruct (finishResolve_ok E now id user.1 awarded w' Hst' Hsave Hnotify)
      as (Hok & stored & Hstored & Hresolved & Hr).
    split; [done|]. rewrite Hstored. split; [by rewrite <- Hresolved|].
    rewrite Hr. unfold resolved_or_empty. by rewrite Hres.
Qed.

(** *** Further properties of [resolveIssue] *)

(** The geofence where it does run.  A caller who may resolve the issue
    supplies a location (non-empty latitude and longitude fields); the
    stored coordinates are both truthy numbers (not 0, not NaN); the
    distance computed exceeds 100 meters.  Then the call answers 400 with
    the distance and changes nothing. *)
Theorem resolveIssue_geofence_rejects
    (E : Env) (now : Date) (id : ObjectId) (user : doc User.t)
    (req : ResolveRequest) (w : World) (issue : Issue.t) (lat lng : string)
    (originalLat originalLng : float) :
  issues w !! id = Some issue ->
  may_resolve user issue ->
  latitude req = Some lat -> longitude req = Some lng ->
  lat <> ""%string -> lng <> ""%string ->
  Issue.latitude issue = Some originalLat ->
  Issue.longitude issue = Some originalLng ->
  truthy_number (Some originalLat) = true ->
  truthy_number (Some originalLng) = true ->
  PrimFloat.ltb allowedDistanceMeters
    (haversine E (parseFloat E lat) (parseFloat E lng) originalLat originalLng)
  = true ->
  resolveIssue E now id user req w =
  (Response.error 400
     (TooFarFromReportedLocation allowedDistanceMeters
        (haversine E (parseFloat E lat) (parseFloat E lng)
           originalLat originalLng)), w).
Proof.
  intros Hw (accepter & Hby & Hor) Hlat Hlng Hlat_ne Hlng_ne Holat Holng
    Htlat Htlng Hfar.
  unfold resolveIssue. rewrite Hw, Hby.
  rewrite (may_resolve_passes user issue accepter Hby)
    by (exists accepter; by split).
  unfold checkLocation. rewrite Hlat, Hlng.
  rewrite (truthy_string_Some lat Hlat_ne), (truthy_string_Some lng Hlng_ne).
  assert (Issue.latitude (attachPhoto req issue) = Issue.latitude issue
          /\ Issue.longitude (attachPhoto req issue) = Issue.longitude issue)
    as [-> ->] by (unfold attachPhoto; by destruct (file req)).
  rewrite Holat, Holng. cbn [andb].
  rewrite Htlat, Htlng. cbn [andb]. by rewrite Hfar.
Qed.

(** Once the issue is resolved, or its points are flagged as awarded, no
    call of [resolveIssue] changes any user: the reporter's points stay. *)
Theorem resolveIssue_no_second_award
    (E : Env) (now : Date) (id : ObjectId) (user : doc User.t)
    (req : ResolveRequest) (w : World) (issue : Issue.t) :
  issues w !! id = Some issue ->
  Issue.status issue = "resolved"%string \/ Issue.pointsAwarded issue = true ->
  users (resolveIssue E now id user req w).2 = users w.
Proof.
  intros Hw Hdone. unfold resolveIssue. rewrite Hw.
  destruct (Issue.acceptedBy issue); [|done].
  destruct (_ && _); [done|].
  destruct (checkLocation E req (attachPhoto req issue)) as [r|located]
    eqn:Hloc; [done|].
  assert (Issue.status located = Issue.status issue /\
          Issue.pointsAwarded located = Issue.pointsAwarded issue) as [Hs Hp].
  { unfold checkLocation, attachPhoto in Hloc.
    repeat case_match; simplify_eq; done. }
  assert (awardPoints E located w = (inr located, w)) as ->.
  { unfold awardPoints. rewrite Hs, Hp.
    destruct Hdone as [-> | ->]; [done|].
    by repeat case_match. }
  unfold finishResolve. by repeat case_match.
Qed.

(** A failure while awarding the points fails the whole call, whatever the
    request: when saving the reporter throws, the answer is 500 "Failed to
    award points", unless the geofence has already refused the supplied
    location with 400; either way nothing is changed. *)
Theorem resolveIssue_points_failure_is_fatal
    (E : Env) (now : Date) (id : ObjectId) (user : doc User.t)
    (req : ResolveRequest) (w : World) (issue : Issue.t)
    (reporterId : ObjectId) (reporter : User.t) (message : string) :
  issues w !! id = Some issue ->
  may_resolve user issue ->
  Issue.status issue <> "resolved"%string ->
  Issue.pointsAwarded issue = false ->
  Issue.reportedBy issue = Some reporterId ->
  users w !! reporterId = Some reporter ->
  (forall u, User_save_error E reporterId u = Some message) ->
  resolveIssue E now id user req w
  = (Response.error 500 (FailedToAwardPoints message), w)
  \/ exists lat lng originalLat originalLng,
       latitude req = Some lat /\ longitude req = Some lng /\
       Issue.latitude issue = Some originalLat /\
       Issue.longitude issue = Some originalLng /\
       PrimFloat.ltb allowedDistanceMeters
         (haversine E (parseFloat E lat) (parseFloat E lng)
            originalLat originalLng) = true /\
       resolveIssue E now id user req w
       = (Response.error 400
            (TooFarFromReportedLocation allowedDistanceMeters
               (haversine E (parseFloat E lat) (parseFloat E lng)
                  originalLat originalLng)), w).
Proof.
  intros Hw (accepter & Hby & Hor) Hst Hpts Hrep Hu Hfail.
  unfold resolveIssue. rewrite Hw, Hby.
  rewrite (may_resolve_passes user issue accepter Hby)
    by (exists accepter; by split).
  apply String.eqb_neq in Hst.
  assert (forall located,
            Issue.status located = Issue.status issue ->
            Issue.pointsAwarded located = false ->
            Issue.reportedBy located = Some reporterId ->
            awardPoints E located w
            = (inl (Response.error 500 (FailedToAwardPoints message)), w))
    as Haward.
  { intros located Hs Hp Hr. unfold awardPoints.
    by rewrite Hs, Hst, Hr, Hu, Hp, Hfail. }
  assert (Issue.status (attachPhoto req issue) = Issue.status issue /\
          Issue.pointsAwarded (attachPhoto req issue) = false /\
          Issue.reportedBy (attachPhoto req issue) = Some reporterId /\
          Issue.latitude (attachPhoto req issue) = Issue.latitude issue /\
          Issue.longitude (attachPhoto req issue) = Issue.longitude issue)
    as (Hs & Hp & Hr & Hlat & Hlng).
  { unfold attachPhoto. by destruct (file req). }
  unfold checkLocation. rewrite Hlat, Hlng.
  destruct (latitude req) as [lat|]; [|left; by rewrite Haward].
  destruct (longitude req) as [lng|]; [|left; by rewrite Haward].
  destruct (truthy_string (Some lat) && truthy_string (Some lng));
    [|left; by rewrite Haward].
  destruct (Issue.latitude issue) as [originalLat|];
    [|left; by rewrite Haward].
  destruct (Issue.longitude issue) as [originalLng|];
    [|left; by rewrite Haward].
  destruct (truthy_number (Some originalLat)
            && truthy_number (Some originalLng));
    [|left; by rewrite Haward].
  destruct (PrimFloat.ltb allowedDistanceMeters _) eqn:Hfar;
    [|left; by rewrite Haward].
  right. by exists lat, lng, originalLat, originalLng.
Qed.

(** *** The theorems at sample inputs *)

(** A field officer accepts a freshly reported issue. *)
Lemma acceptIssue_exclusive_witness :
  Response.success
    (acceptIssue 1000 1 officer (sample_world (reported_issue 0))).1 = true
  <-> acceptable officer.1 (reported_issue 0).
Proof.
  refine (proj1 (acceptIssue_exclusive 1000 1 officer
                   (sample_world (reported_issue 0)) (reported_issue 0) _ _)).
  - unfold employeeRoles. simpl. left.
  - reflexivity.
Defined.

(** Nobody accepted the issue: the call is refused and nothing changes. *)
Lemma resolveIssue_authorization_witness :
  resolveIssue sample_env 1000 1 officer no_location
    (sample_world (reported_issue 0))
  = (Response.error 400 MustBeAcceptedFirst, sample_world (reported_issue 0)).
Proof.
  refine (proj1
    (resolveIssue_authorization sample_env 1000 1 officer no_location
       (sample_world (reported_issue 0)) (reported_issue 0) _) _);
    reflexivity.
Defined.

(** A high-priority issue reported ten minutes ago, with a commissioner in
    the directory. *)
Lemma checkAndEscalateIssues_fast_track_commissioner_witness :
  Escalated 1 (Issue.title (reported_issue 0)) (Val "unassigned"%string)
    "commissioner"
  ∈ results
      (checkAndEscalateIssues sample_env 600000
         (sample_world (reported_issue 0))).1.
Proof.
  refine (proj2 (proj2
    (checkAndEscalateIssues_fast_track_commissioner sample_env 600000
       (sample_world (reported_issue 0)) 1 (reported_issue 0) 0
       (20%nat, staff "commissioner" ["All"%string]) [] _ _ _ _ _ _ _ _ _)));
    try reflexivity.
Defined.

(** A legacy issue without coordinates, resolved from anywhere. *)
Lemma resolveIssue_no_geofence_without_coordinates_witness :
  let issue := Issue.set_latitude None (accepted_issue 30 "in-progress") in
  let req :=
    {| latitude := Some "45"%string; longitude := Some "77.90625"%string;
       file := None |} in
  let out := resolveIssue sample_env 1000 1 officer req (sample_world issue) in
  Response.success out.1 = true /\
  (Issue.status <$> issues out.2 !! 1%nat) = Some "resolved"%string /\
  stored_location out.2 1 = Some (45%float, 77.90625%float).
Proof.
  refine (proj2 (proj2
    (resolveIssue_no_geofence_without_coordinates sample_env 1000 1 officer
       {| latitude := Some "45"%string; longitude := Some "77.90625"%string;
          file := None |}
       (sample_world (Issue.set_latitude None (accepted_issue 30 "in-progress")))
       (Issue.set_latitude None (accepted_issue 30 "in-progress"))
       "45" "77.90625" _ _ _ _ _ _)) _ _ _ _ _);
    try reflexivity; try discriminate.
  - by left.
  - exists 30%nat. split; [reflexivity|]. by left.
Defined.

(** The officer who accepted the issue sends the resolution from 150
    meters away. *)
Lemma resolveIssue_geofence_rejects_witness :
  let w := sample_world (accepted_issue 30 "in-progress") in
  resolveIssue sample_env 1000 1 officer from_150_meters w =
  (Response.error 400
     (TooFarFromReportedLocation allowedDistanceMeters
        (haversine sample_env (sample_parseFloat "16.06385")
           (sample_parseFloat "77.90625") 16.0625%float 77.90625%float)), w).
Proof.
  refine (resolveIssue_geofence_rejects sample_env 1000 1 officer
            from_150_meters (sample_world (accepted_issue 30 "in-progress"))
            (accepted_issue 30 "in-progress") "16.06385" "77.90625"
            16.0625%float 77.90625%float _ _ _ _ _ _ _ _ _ _ _);
    try reflexivity; try discriminate.
  exists 30%nat. split; [reflexivity|]. by left.
Defined.

(** A second call on a resolved issue. *)
Lemma resolveIssue_no_second_award_witness :
  let w := sample_world (accepted_issue 30 "resolved") in
  users (resolveIssue sample_env 1000 1 officer no_location w).2 = users w.
Proof.
  refine (resolveIssue_no_second_award sample_env 1000 1 officer no_location
            (sample_world (accepted_issue 30 "resolved"))
            (accepted_issue 30 "resolved") _ _).
  - reflexivity.
  - by left.
Defined.

(** The user collection is down while the officer resolves the issue on
    the spot. *)
Lemma resolveIssue_points_failure_is_fatal_witness :
  let w := sample_world (accepted_issue 30 "in-progress") in
  resolveIssue (with_failing_user_save "users are read-only" sample_env)
    1000 1 officer from_the_spot w =
  (Response.error 500 (FailedToAwardPoints "users are read-only"), w).
Proof.
  assert (Hmay : may_resolve officer (accepted_issue 30 "in-progress")).
  { exists 30%nat. split; [reflexivity|]. by left. }
  destruct (resolveIssue_points_failure_is_fatal
              (with_failing_user_save "users are read-only" sample_env)
              1000 1 officer from_the_spot
              (sample_world (accepted_issue 30 "in-progress"))
              (accepted_issue 30 "in-progress") 100 citizen
              "users are read-only" eq_refl Hmay ltac:(discriminate)
              eq_refl eq_refl eq_refl (fun _ => eq_refl))
    as [H|(lat & lng & olat & olng & Hlat & Hlng & Holat & Holng & Hfar & _)].
  - exact H.
  - injection Hlat as <-. injection Hlng as <-.
    injection Holat as <-. injection Holng as <-.
    vm_compute in Hfar. discriminate.
Defined.


(** * Further properties of the gate and of the escalation service *)

(** *** [acceptIssue]: what a call can do *)

Lemma acceptIssue_accepts now id user w issue :
  User.role user.2 ∈ employeeRoles ->
  issues w !! id = Some issue ->
  acceptable user.1 issue ->
  acceptIssue now id user w =
  (Response.ok IssueAccepted (Some (acceptUpdate now user.1 issue issue)),
   set_issues (<[id := acceptUpdate now user.1 issue issue]> (issues w)) w).
Proof.
  intros Hrole Hw Hacc. apply string_in_spec in Hrole.
  unfold acceptIssue, Issue_updateOne. rewrite Hrole, Hw. simpl.
  assert (assignedToAnother issue user.1 = false) as ->.
  { apply not_true_is_false. rewrite assignedToAnother_spec.
    intros (other & Ho & Hne). destruct Hacc as (_ & _ & [Ht|Ht]); congruence. }
  apply acceptFilter_spec in Hacc. rewrite Hacc. simpl.
  by rewrite lookup_insert_eq.
Qed.

Lemma acceptIssue_refuses now id user w :
  (forall issue, issues w !! id = Some issue ->
     User.role user.2 ∈ employeeRoles -> ~ acceptable user.1 issue) ->
  Response.success (acceptIssue now id user w).1 = false /\
  (acceptIssue now id user w).2 = w.
Proof.
  intros Hno. unfold acceptIssue.
  destruct (string_in (User.role user.2) employeeRoles) eqn:Hrole;
    [|by split].
  apply string_in_spec in Hrole. simpl.
  destruct (issues w !! id) as [issue|] eqn:Hw; [|by split].
  specialize (Hno issue eq_refl Hrole).
  destruct (assignedToAnother issue user.1); [by split|].
  rewrite <- acceptFilter_spec in Hno. apply not_true_is_false in Hno.
  unfold Issue_updateOne. rewrite Hw, Hno. simpl. rewrite Hw.
  by repeat case_match.
Qed.

Lemma acceptIssue_success_inv now id user w :
  Response.success (acceptIssue now id user w).1 = true ->
  User.role user.2 ∈ employeeRoles /\
  exists issue, issues w !! id = Some issue /\ acceptable user.1 issue.
Proof.
  intros Hs.
  destruct (decide (User.role user.2 ∈ employeeRoles)) as [Hrole|Hrole].
  - split; [done|]. destruct (issues w !! id) as [issue|] eqn:Hw.
    + exists issue. split; [done|].
      destruct (decide (acceptable user.1 issue)) as [|Hn]; [done|].
      destruct (acceptIssue_refuses now id user w) as [Hf _]; [|congruence].
      intros issue' Hi' _. by simplify_eq.
    + destruct (acceptIssue_refuses now id user w) as [Hf _]; [|congruence].
      intros issue' Hi'. by rewrite Hw in Hi'.
  - destruct (acceptIssue_refuses now id user w) as [Hf _]; [|congruence].
    by intros.
Qed.

(** An accepted issue stays accepted: after a successful [acceptIssue],
    every later [acceptIssue] on the same issue, by whichever user
    (the same one included) and at whichever time, is refused and changes
    nothing. *)
Theorem acceptIssue_at_most_once
    (now later : Date) (id : ObjectId) (user other : doc User.t) (w : World) :
  Response.success (acceptIssue now id user w).1 = true ->
  Response.success
    (acceptIssue later id other (acceptIssue now id user w).2).1 = false /\
  (acceptIssue later id other (acceptIssue now id user w).2).2
  = (acceptIssue now id user w).2.
Proof.
  intros Hs. apply acceptIssue_success_inv in Hs as (Hrole & issue & Hw & Hacc).
  rewrite (acceptIssue_accepts now id user w issue Hrole Hw Hacc). simpl.
  apply acceptIssue_refuses. simpl. intros issue'.
  rewrite lookup_insert_eq. intros [= <-] _ (_ & Hby & _). done.
Qed.

Lemma acceptIssue_at_most_once_witness :
  let w1 := (acceptIssue 1000 1 officer (sample_world (reported_issue 0))).2 in
  Response.success
    (acceptIssue 2000 1 (40%nat, staff "supervisor" ["All"%string]) w1).1
  = false /\
  (acceptIssue 2000 1 (40%nat, staff "supervisor" ["All"%string]) w1).2 = w1.
Proof.
  refine (acceptIssue_at_most_once 1000 2000 1 officer
            (40%nat, staff "supervisor" ["All"%string])
            (sample_world (reported_issue 0)) _).
  reflexivity.
Defined.

(** [acceptIssue] touches one issue and nothing else: the users, the
    notifications and every other issue are as before, and it creates no
    issue (an unknown id stays unknown). *)
Theorem acceptIssue_frame
    (now : Date) (id : ObjectId) (user : doc User.t) (w : World) :
  let w' := (acceptIssue now id user w).2 in
  users w' = users w /\
  sent w' = sent w /\
  (forall j, j <> id -> issues w' !! j = issues w !! j) /\
  (issues w !! id = None -> w' = w).
Proof.
  intros w'. unfold w'.
  assert ((forall issue, issues w !! id = Some issue ->
             User.role user.2 ∈ employeeRoles -> acceptable user.1 issue ->
             False) \/
          (exists issue, issues w !! id = Some issue /\
             User.role user.2 ∈ employeeRoles /\ acceptable user.1 issue))
    as [Hno|(issue & Hw & Hrole & Hacc)].
  { destruct (issues w !! id) as [issue|]; [|by left].
    destruct (decide (User.role user.2 ∈ employeeRoles)) as [Hrole|Hrole];
      [|left; by intros ? ? ?].
    destruct (decide (acceptable user.1 issue)) as [Hacc|Hacc];
      [right; eauto|].
    left. intros ? [= <-] _ ?. done. }
  - destruct (acceptIssue_refuses now id user w) as [_ ->]; [|done].
    intros issue Hw Hrole Hacc. by apply (Hno issue).
  - rewrite (acceptIssue_accepts now id user w issue Hrole Hw Hacc). simpl.
    split; [done|]. split; [done|]. split; [|congruence].
    intros j Hj. by rewrite lookup_insert_ne.
Qed.

(** *** [resolveIssue]: what a call can do *)

Lemma attachPhoto_fields req issue :
  let issue' := attachPhoto req issue in
  Issue.status issue' = Issue.status issue /\
  Issue.acceptedBy issue' = Issue.acceptedBy issue /\
  Issue.assignedTo issue' = Issue.assignedTo issue /\
  Issue.reportedBy issue' = Issue.reportedBy issue /\
  Issue.pointsAwarded issue' = Issue.pointsAwarded issue.
Proof. unfold attachPhoto. by destruct (file req). Qed.

Lemma checkLocation_fields E req issue issue' :
  checkLocation E req issue = inr issue' ->
  Issue.status issue' = Issue.status issue /\
  Issue.acceptedBy issue' = Issue.acceptedBy issue /\
  Issue.assignedTo issue' = Issue.assignedTo issue /\
  Issue.reportedBy issue' = Issue.reportedBy issue /\
  Issue.pointsAwarded issue' = Issue.pointsAwarded issue.
Proof.
  unfold checkLocation. intros H.
  repeat case_match; simplify_eq; done.
Qed.

Lemma checkLocation_no_location E issue :
  checkLocation E no_location issue = inr issue.
Proof. done. Qed.

(** The points block when saving a user does not fail: the reporter, if
    the issue names one that exists and the points are not flagged yet,
    gets ten points and the document is flagged. *)
Lemma awardPoints_fields E issue w :
  (forall i u, User_save_error E i u = None) ->
  exists awarded w',
    awardPoints E issue w = (inr awarded, w') /\
    issues w' = issues w /\ sent w' = sent w /\
    Issue.status awarded = Issue.status issue /\
    Issue.acceptedBy awarded = Issue.acceptedBy issue /\
    Issue.assignedTo awarded = Issue.assignedTo issue /\
    Issue.resolved awarded = Issue.resolved issue /\
    Issue.createdAt awarded = Issue.createdAt issue /\
    (forall reporterId reporter,
       Issue.status issue <> "resolved"%string ->
       Issue.pointsAwarded issue = false ->
       Issue.reportedBy issue = Some reporterId ->
       users w !! reporterId = Some reporter ->
       Issue.pointsAwarded awarded = true /\
       users w' =
         <[reporterId :=
             User.set_points (Some (default 0 (User.points reporter) + 10))
               reporter]> (users w)).
Proof.
  intros Hok. unfold awardPoints.
  destruct (Issue.status issue =? "resolved")%string eqn:Hst; simpl.
  { apply String.eqb_eq in Hst. eexists _, _. repeat split; try done.
    all: by intros. }
  destruct (Issue.reportedBy issue) as [r|] eqn:Hr;
    [|eexists _, _; repeat split; try done; by intros].
  destruct (users w !! r) as [u|] eqn:Hu;
    [|eexists _, _; repeat split; try done; intros; by simplify_eq].
  destruct (Issue.pointsAwarded issue) eqn:Hp; simpl;
    [eexists _, _; repeat split; try done; by intros|].
  rewrite Hok. eexists _, _. repeat split; try done.
  all: intros; by simplify_eq.
Qed.

(** The end of a resolution that goes through. *)
Lemma finishResolve_fields E now id userId issue w :
  Issue.status issue = "in-progress"%string ->
  (forall d, Issue_save_error E id d = None) ->
  notify_error E (ResolutionNotice id userId) = None ->
  exists stored,
    finishResolve E now id userId issue w =
    (Response.ok IssueResolved (Some stored),
     set_sent (sent w ++ [ResolutionNotice id userId])
       (set_issues (<[id := stored]> (issues w)) w)) /\
    Issue.status stored = "resolved"%string /\
    Issue.resolvedAt stored = Some now /\
    Issue.acceptedBy stored = Issue.acceptedBy issue /\
    Issue.assignedTo stored = Issue.assignedTo issue /\
    Issue.pointsAwarded stored = Issue.pointsAwarded issue /\
    (Issue.resolvedBy <$> Issue.resolved stored) = Some (Some userId) /\
    (forall created, Issue.createdAt issue = Some created ->
       Issue.actualResolutionTime stored
       = Some ((now - created) / (1000 * 60 * 60 * 24))).
Proof.
  intros Hst Hsave Hnotify. unfold finishResolve.
  rewrite Hst, Hsave, Hnotify. simpl.
  eexists. split; [reflexivity|].
  destruct (Issue.createdAt issue); repeat split; try done.
  all: intros; by simplify_eq.
Qed.

(** Accepting and then resolving.  After a successful [acceptIssue] by
    [user], and when neither the store nor the notification fails, the
    same user's [resolveIssue] succeeds: the stored issue is resolved at
    the time of the call by that user, still accepted by and assigned to
    that user, and its resolution time is the whole number of days since
    its creation.  Any other user who is not an admin is refused with 403
    and changes nothing. *)
Theorem accept_then_resolve
    (E : Env) (now later : Date) (id : ObjectId) (user : doc User.t)
    (w : World) :
  Response.success (acceptIssue now id user w).1 = true ->
  (forall d, Issue_save_error E id d = None) ->
  (forall i u, User_save_error E i u = None) ->
  notify_error E (ResolutionNotice id user.1) = None ->
  let w1 := (acceptIssue now id user w).2 in
  let out := resolveIssue E later id user no_location w1 in
  (Response.success out.1 = true /\
   exists stored,
     issues out.2 !! id = Some stored /\
     Issue.status stored = "resolved"%string /\
     Issue.resolvedAt stored = Some later /\
     (Issue.resolvedBy <$> Issue.resolved stored) = Some (Some user.1) /\
     Issue.acceptedBy stored = Some user.1 /\
     Issue.assignedTo stored = Some user.1 /\
     (forall issue created,
        issues w !! id = Some issue -> Issue.createdAt issue = Some created ->
        Issue.actualResolutionTime stored
        = Some ((later - created) / (1000 * 60 * 60 * 24)))) /\
  (forall (other : doc User.t) (req : ResolveRequest),
     other.1 <> user.1 -> User.role other.2 <> "admin"%string ->
     resolveIssue E later id other req w1
     = (Response.error 403 OnlyAccepterCanResolve, w1)).
Proof.
  intros Hs Hsave Husave Hnotify w1 out.
  apply acceptIssue_success_inv in Hs as (Hrole & issue & Hw & Hacc).
  unfold out, w1. clear out w1.
  rewrite (acceptIssue_accepts now id user w issue Hrole Hw Hacc). simpl.
  set (accepted := acceptUpdate now user.1 issue issue).
  set (w1 := set_issues (<[id := accepted]> (issues w)) w).
  assert (issues w1 !! id = Some accepted) as Hw1
    by apply lookup_insert_eq.
  split.
  - unfold resolveIssue. rewrite Hw1. simpl.
    rewrite Nat.eqb_refl, andb_false_r.
    change (attachPhoto no_location accepted) with accepted.
    destruct (awardPoints_fields E accepted w1 Husave)
      as (awarded & w2 & -> & Hi & _ & Hst & Hby & Hto & _ & Hcr & _).
    simpl in Hst, Hby, Hto, Hcr.
    destruct (finishResolve_fields E later id user.1 awarded w2 Hst Hsave
                Hnotify)
      as (stored & -> & Hs1 & Hs2 & Hs3 & Hs4 & _ & Hs5 & Hs6).
    simpl. split; [done|]. exists stored. rewrite lookup_insert_eq.
    split; [done|]. split; [done|]. split; [done|]. split; [done|].
    split; [congruence|]. split; [congruence|].
    intros issue' created Hw' Hc. rewrite Hw in Hw'. injection Hw' as <-.
    apply Hs6. by rewrite Hcr.
  - intros other req Hne Hadmin. unfold resolveIssue. rewrite Hw1. simpl.
    apply not_eq_sym, Nat.eqb_neq in Hne. apply String.eqb_neq in Hadmin.
    by rewrite Hne, Hadmin.
Qed.

Lemma accept_then_resolve_witness :
  let w1 := (acceptIssue 1000 1 officer (sample_world (reported_issue 0))).2 in
  let supervisor := (40%nat, staff "supervisor" ["All"%string]) in
  resolveIssue sample_env 2000 1 supervisor no_location w1
  = (Response.error 403 OnlyAccepterCanResolve, w1).
Proof.
  refine (proj2 (accept_then_resolve sample_env 1000 2000 1 officer
                   (sample_world (reported_issue 0)) _ _ _ _)
            (40%nat, staff "supervisor" ["All"%string]) no_location _ _);
    try reflexivity; discriminate.
Defined.

Lemma resolveIssue_keeps_users E now id user req w issue :
  issues w !! id = Some issue ->
  Issue.status issue = "resolved"%string \/ Issue.pointsAwarded issue = true ->
  users (resolveIssue E now id user req w).2 = users w.
Proof.
  intros Hw Hdone. unfold resolveIssue. rewrite Hw.
  destruct (Issue.acceptedBy issue); [|done].
  destruct (_ && _); [done|].
  destruct (checkLocation E req (attachPhoto req issue)) as [r|located]
    eqn:Hloc; [done|].
  apply checkLocation_fields in Hloc as (Hs & _ & _ & _ & Hp).
  destruct (attachPhoto_fields req issue) as (Hs' & _ & _ & _ & Hp').
  rewrite Hs' in Hs. rewrite Hp' in Hp.
  assert (awardPoints E located w = (inr located, w)) as ->.
  { unfold awardPoints. rewrite Hs, Hp.
    destruct Hdone as [-> | ->]; [done|].
    by repeat case_match. }
  unfold finishResolve. by repeat case_match.
Qed.

(** The points of a resolution that succeeds.  When [resolveIssue]
    succeeds on an issue whose points are not flagged and whose reporter
    exists, the reporter has exactly ten points more, the stored issue is
    resolved and flagged, and no later [resolveIssue] on that issue, by
    anyone and with any request, changes any user. *)
Theorem resolveIssue_success_awards_once
    (E : Env) (now : Date) (id : ObjectId) (user : doc User.t)
    (req : ResolveRequest) (w : World) (issue : Issue.t)
    (reporterId : ObjectId) (reporter : User.t) :
  issues w !! id = Some issue ->
  Issue.pointsAwarded issue = false ->
  Issue.reportedBy issue = Some reporterId ->
  users w !! reporterId = Some reporter ->
  Response.success (resolveIssue E now id user req w).1 = true ->
  let w' := (resolveIssue E now id user req w).2 in
  users w' =
    <[reporterId :=
        User.set_points (Some (default 0 (User.points reporter) + 10))
          reporter]> (users w) /\
  (exists stored,
     issues w' !! id = Some stored /\
     Issue.status stored = "resolved"%string /\
     Issue.pointsAwarded stored = true) /\
  (forall E' later user' req',
     users (resolveIssue E' later id user' req' w').2 = users w').
Proof.
  intros Hw Hpts Hrep Hu Hs w'.
  assert (exists stored,
            users w' =
              <[reporterId :=
                  User.set_points
                    (Some (default 0 (User.points reporter) + 10)) reporter]>
                (users w) /\
            issues w' !! id = Some stored /\
            Issue.status stored = "resolved"%string /\
            Issue.pointsAwarded stored = true) as (stored & Hus & Hst & Hres & Hfl).
  { unfold w' in *. clear w'. unfold resolveIssue in *. rewrite Hw in *.
    destruct (Issue.acceptedBy issue); [|done].
    destruct (_ && _); [done|].
    destruct (checkLocation E req (attachPhoto req issue)) as [r|located]
      eqn:Hloc.
    { unfold checkLocation in Hloc. repeat case_match; by simplify_eq. }
    apply checkLocation_fields in Hloc as (Hs1 & _ & _ & Hr1 & Hp1).
    destruct (attachPhoto_fields req issue) as (Hs2 & _ & _ & Hr2 & Hp2).
    rewrite Hs2 in Hs1. rewrite Hr2, Hrep in Hr1. rewrite Hp2, Hpts in Hp1.
    unfold awardPoints in *.
    destruct (Issue.status located =? "resolved")%string eqn:Hnot; simpl in *.
    { apply String.eqb_eq in Hnot. unfold finishResolve in Hs.
      rewrite Hnot in Hs. done. }
    rewrite Hr1, Hu, Hp1 in *. simpl in *.
    destruct (User_save_error E reporterId _); [done|].
    unfold finishResolve in *. simpl in *.
    destruct (negb (Issue.status located =? "in-progress")%string); [done|].
    match goal with
    | H : context [Issue_save_error E id ?d] |- _ =>
        destruct (Issue_save_error E id d); [done|]
    end.
    destruct (notify_error E (ResolutionNotice id user.1)); [done|].
    simpl. eexists. split; [done|]. rewrite lookup_insert_eq.
    split; [done|]. by destruct (Issue.createdAt located). }
  split; [done|]. split; [eauto|].
  intros E' later user' req'.
  apply (resolveIssue_keeps_users E' later id user' req' w' stored Hst).
  by left.
Qed.

Lemma resolveIssue_success_awards_once_witness :
  let w := sample_world (accepted_issue 30 "in-progress") in
  let w' := (resolveIssue sample_env 1000 1 officer no_location w).2 in
  users w' = <[100%nat := User.set_points (Some 10) citizen]> (users w).
Proof.
  refine (proj1 (resolveIssue_success_awards_once sample_env 1000 1 officer
                   no_location (sample_world (accepted_issue 30 "in-progress"))
                   (accepted_issue 30 "in-progress") 100 citizen _ _ _ _ _));
    reflexivity.
Defined.

(** [resolveIssue] touches the issue it is called on, its reporter, and
    the notifications: every other issue and every user but the reporter
    are as before, the notifications are as before or one resolution
    notice longer, and on an unknown id the call answers 404 and changes
    nothing. *)
Theorem resolveIssue_frame
    (E : Env) (now : Date) (id : ObjectId) (user : doc User.t)
    (req : ResolveRequest) (w : World) :
  let out := resolveIssue E now id user req w in
  (forall j, j <> id -> issues out.2 !! j = issues w !! j) /\
  (forall u,
     (forall issue, issues w !! id = Some issue ->
        Issue.reportedBy issue <> Some u) ->
     users out.2 !! u = users w !! u) /\
  (sent out.2 = sent w \/ sent out.2 = sent w ++ [ResolutionNotice id user.1]) /\
  (issues w !! id = None -> out = (Response.error 404 IssueNotFound, w)).
Proof.
  unfold resolveIssue.
  destruct (issues w !! id) as [issue|] eqn:Hw; [|by repeat split; eauto].
  destruct (Issue.acceptedBy issue); [|by repeat split; eauto].
  destruct (_ && _); [by repeat split; eauto|].
  destruct (checkLocation E req (attachPhoto req issue)) as [r|located]
    eqn:Hloc; [by repeat split; eauto|].
  apply checkLocation_fields in Hloc as (_ & _ & _ & Hr1 & _).
  destruct (attachPhoto_fields req issue) as (_ & _ & _ & Hr2 & _).
  rewrite Hr2 in Hr1.
  assert (issues (awardPoints E located w).2 = issues w /\
          sent (awardPoints E located w).2 = sent w /\
          forall u, Issue.reportedBy issue <> Some u ->
            users (awardPoints E located w).2 !! u = users w !! u)
    as (Hi & Hse & Hu).
  { unfold awardPoints. rewrite Hr1.
    repeat case_match; simpl; repeat split; try done.
    intros u Hne. rewrite lookup_insert_ne; [done|congruence]. }
  destruct (awardPoints E located w) as [[r|awarded] w1]; simpl in *.
  { rewrite Hi, Hse. repeat split; eauto. done. }
  assert (issues (finishResolve E now id user.1 awarded w1).2
            = issues w1 \/
          exists d, issues (finishResolve E now id user.1 awarded w1).2
                    = <[id := d]> (issues w1)) as Hfi.
  { unfold finishResolve. repeat case_match; simpl; eauto. }
  assert (users (finishResolve E now id user.1 awarded w1).2 = users w1 /\
          (sent (finishResolve E now id user.1 awarded w1).2 = sent w1 \/
           sent (finishResolve E now id user.1 awarded w1).2
           = sent w1 ++ [ResolutionNotice id user.1])) as [Hfu Hfs].
  { unfold finishResolve. repeat case_match; simpl; eauto. }
  split; [|split; [|split; [|done]]].
  - intros j Hj. destruct Hfi as [-> | [d ->]]; rewrite <- Hi;
      [done|by rewrite lookup_insert_ne].
  - intros u Hne. rewrite Hfu. apply Hu. by apply Hne.
  - rewrite <- Hse. exact Hfs.
Qed.

(** *** The sweep and the gate together *)

Lemma notifyAll_cons E id r rs actor w :
  notifyAll E id (r :: rs) actor w =
  match notifyIssueAssignment E id r.1 actor w with
  | (inl e, w') => (inl e, (notifyAll E id rs actor w').2)
  | (inr _, w') => notifyAll E id rs actor w'
  end.
Proof. reflexivity. Qed.

Lemma notifyAll_issues E id recipients actor w :
  issues (notifyAll E id recipients actor w).2 = issues w.
Proof.
  revert w. induction recipients as [|r rs IH]; intros w; [done|].
  rewrite notifyAll_cons. unfold notifyIssueAssignment.
  destruct (notify_error E (AssignmentNotice id r.1 actor)); simpl;
    by rewrite IH.
Qed.

Lemma processIssue_fast_track_store E now id issue w created first others :
  Issue.assignedRole issue = Absent ->
  Issue.createdAt issue = Some created ->
  5 * 60 * 1000 <= now - created ->
  let target :=
    if 10 * 60 * 1000 <=? now - created then "commissioner"%string
    else "supervisor"%string in
  findAllUsersForRole (users w) target (Issue.category issue)
    = first :: others ->
  (forall d, Issue_save_error E id d = None) ->
  issues (processIssue E now id issue w).2 !! id
  = Some (fastTracked E now target first.1 issue).
Proof.
  intros Hrole Hcreated Hage target Hstaff Hsave.
  assert ((5 * 60 * 1000 <=? now - created) = true) as H5
    by (apply Z.leb_le; lia).
  assert ((if 10 * 60 * 1000 <=? now - created then "commissioner"%string
           else if 5 * 60 * 1000 <=? now - created then "supervisor"%string
                else "field-staff"%string) = target) as Ht.
  { unfold target. by rewrite H5. }
  assert ((target =? "field-staff")%string = false) as Hnf.
  { unfold target. by destruct (10 * 60 * 1000 <=? now - created). }
  unfold processIssue. rewrite Hrole, Hcreated. simpl.
  rewrite targetRoleOf_age, Ht, Hnf.
  unfold bind, get_users. rewrite Hstaff.
  unfold Issue_save. rewrite Hsave.
  match goal with
  | |- context [notifyAll E id ?rs ?a ?w0] =>
      pose proof (notifyAll_issues E id rs a w0) as Hn;
      destruct (notifyAll E id rs a w0) as [[e|[]] w2]
  end; simpl in *; rewrite Hn, lookup_insert_eq; unfold fastTracked;
    by destruct (Issue.priority issue).
Qed.

(** A fast-tracked issue is a dead end.  When the sweep moves a reported,
    never-assigned, unaccepted issue straight to commissioner, the issue
    is stored with status escalated, so that from then on every
    [acceptIssue] on it is refused, every [resolveIssue] on it answers
    "must be accepted first", neither changes anything, and no later sweep
    selects it. *)
Theorem fast_tracked_issue_is_a_dead_end
    (E : Env) (now : Date) (w : World) (id : ObjectId) (issue : Issue.t)
    (created : Date) (first : doc User.t) (others : list (doc User.t)) :
  issues w !! id = Some issue ->
  Issue.status issue = "reported"%string ->
  Issue.assignedRole issue = Absent ->
  Issue.acceptedBy issue = None ->
  Issue.createdAt issue = Some created ->
  10 * 60 * 1000 <= now - created ->
  findAllUsersForRole (users w) "commissioner" (Issue.category issue)
    = first :: others ->
  (forall d, Issue_save_error E id d = None) ->
  let w1 := (checkAndEscalateIssues E now w).2 in
  issues w1 !! id = Some (fastTracked E now "commissioner" first.1 issue) /\
  (forall later user,
     Response.success (acceptIssue later id user w1).1 = false /\
     (acceptIssue later id user w1).2 = w1) /\
  (forall E' later user req,
     resolveIssue E' later id user req w1
     = (Response.error 400 MustBeAcceptedFirst, w1)) /\
  (forall later,
     overdueFilter later (fastTracked E now "commissioner" first.1 issue)
     = false).
Proof.
  intros Hw Hst Hrole Hby Hcreated Hage Hstaff Hsave w1.
  assert (overdueFilter now issue = true) as Hsel.
  { apply overdueFilter_iff. split; [by left|].
    right; right; right. split; [done|]. split; [done|].
    exists created. split; [done|]. unfold graceWindow. lia. }
  assert ((id, issue) ∈ overdueIssuesOf now w) as Hin.
  { unfold overdueIssuesOf. apply list_elem_of_In, filter_In.
    split; [|done]. by apply list_elem_of_In, elem_of_map_to_list. }
  assert (NoDup (overdueIssuesOf now w).*1) as Hnd.
  { unfold overdueIssuesOf.
    apply (sublist_NoDup _ (map_to_list (issues w)).*1);
      [apply (NoDup_fst_map_to_list (issues w))|].
    apply fmap_sublist. induction (map_to_list (issues w)) as [|d l IH];
      simpl; [done|].
    destruct (overdueFilter now d.2); by constructor. }
  destruct (sweepLoop_processes E now _ [] w id issue Hnd Hin)
    as (wk & Hu & _ & Hfin & _).
  assert (issues w1 !! id
          = Some (fastTracked E now "commissioner" first.1 issue)) as Hw1.
  { unfold w1, checkAndEscalateIssues. simpl. rewrite Hfin.
    pose proof (processIssue_fast_track_store E now id issue wk created
                  first others Hrole Hcreated) as Hp.
    assert ((10 * 60 * 1000 <=? now - created) = true) as H10
      by (apply Z.leb_le; lia).
    rewrite H10 in Hp. apply Hp; [lia| |done]. by rewrite Hu. }
  assert (Issue.status (fastTracked E now "commissioner" first.1 issue)
          = "escalated"%string /\
          Issue.acceptedBy (fastTracked E now "commissioner" first.1 issue)
          = None /\
          Issue.assignedRole (fastTracked E now "commissioner" first.1 issue)
          = Val "commissioner"%string) as (Fs & Fby & Frole).
  { unfold fastTracked. by repeat case_match. }
  split; [done|]. split; [|split].
  - intros later user. apply acceptIssue_refuses.
    intros issue'. rewrite Hw1. intros [= <-] _ ([Hs|Hs] & _); congruence.
  - intros E' later user req. unfold resolveIssue. by rewrite Hw1, Fby.
  - intros later. apply not_true_is_false. intros Hsel'.
    apply overdueFilter_iff in Hsel' as [_ [H|[H|[H|H]]]].
    + destruct H as [[Hr|Hr] _]; congruence.
    + destruct H as [[Hr|Hr] _]; congruence.
    + destruct H as [[Hr|Hr] _]; congruence.
    + destruct H as [Hr _]; congruence.
Qed.

Lemma fast_tracked_issue_is_a_dead_end_witness :
  let w1 :=
    (checkAndEscalateIssues sample_env 600000
       (sample_world (reported_issue 0))).2 in
  resolveIssue sample_env 700000 1 (20%nat, staff "commissioner" ["All"%string])
    no_location w1
  = (Response.error 400 MustBeAcceptedFirst, w1).
Proof.
  refine (proj1 (proj2 (proj2
    (fast_tracked_issue_is_a_dead_end sample_env 600000
       (sample_world (reported_issue 0)) 1 (reported_issue 0) 0
       (20%nat, staff "commissioner" ["All"%string]) [] _ _ _ _ _ _ _ _)))
    sample_env 700000 (20%nat, staff "commissioner" ["All"%string])
    no_location); reflexivity.
Defined.

(** *** The escalation transition *)

Lemma nextRoleOf_spec current next :
  nextRoleOf current = Some next <->
  (current = "field-staff"%string /\ next = "supervisor"%string) \/
  (current = "supervisor"%string /\ next = "commissioner"%string).
Proof.
  unfold nextRoleOf.
  destruct (current =? "field-staff")%string eqn:H1.
  { apply String.eqb_eq in H1 as ->. split.
    - intros [= <-]. by left.
    - by intros [[_ ->]|[? _]]. }
  destruct (current =? "supervisor")%string eqn:H2.
  { apply String.eqb_eq in H2 as ->. split.
    - intros [= <-]. by right.
    - by intros [[? _]|[_ ->]]. }
  apply String.eqb_neq in H1, H2.
  split; [by repeat case_match|]. by intros [[? _]|[? _]].
Qed.

(** One step up the hierarchy.  For an issue at field-staff or supervisor
    whose next role has staff [first :: others] in the directory, and when
    neither the saves nor the notifications throw, [escalateIssue] returns
    the next role with the first staff member found, stores the escalated
    document with assignedTo and assignedBy set to that staff member,
    changes no user, and sends exactly one notification to every staff
    member found, in order, each naming the first one as the actor. *)
Theorem escalateIssue_moves_and_notifies_all
    (E : Env) (now : Date) (id : ObjectId) (issue : Issue.t) (w : World)
    (current next : string) (first : doc User.t) (others : list (doc User.t)) :
  Issue.assignedRole issue = Val current ->
  nextRoleOf current = Some next ->
  findAllUsersForRole (users w) next (Issue.category issue) = first :: others ->
  (forall d, Issue_save_error E id d = None) ->
  (forall r, notify_error E (AssignmentNotice id r first.1) = None) ->
  let stored := escalatedDocument E now current next first.1 issue in
  escalateIssue E now id issue w =
  (inr (Some {| toRole := next; assignedTo := first.1;
                notifiedUsers := Some (S (length others)) |}, stored),
   {| issues := <[id := stored]> (issues w);
      users := users w;
      sent := sent w ++ ((fun r => AssignmentNotice id r.1 first.1)
                           <$> (first :: others)) |}) /\
  Issue.assignedTo stored = Some first.1 /\
  Issue.assignedBy stored = Some first.1.
Proof.
  intros Hrole Hnext Hstaff Hsave Hnotify stored.
  split; [|done].
  assert (truthy_string (Some current) = true) as Htruthy.
  { apply nextRoleOf_spec in Hnext as [[-> _]|[-> _]]; done. }
  unfold escalateIssue. rewrite Hrole. cbn [field_value].
  rewrite Htruthy, Hnext. cbn [negb].
  unfold bind, get_users. rewrite Hstaff.
  unfold Issue_save. rewrite !Hsave.
  rewrite notifyAll_delivered by done. unfold ret.
  f_equal. unfold set_sent, set_issues. simpl. f_equal.
  apply insert_insert_eq.
Qed.

Lemma escalateIssue_moves_and_notifies_all_witness :
  let issue :=
    Issue.set_escalationDeadline (Val 500)
      (Issue.set_assignedRole (Val "field-staff"%string) (reported_issue 0)) in
  Issue.assignedTo
    (escalatedDocument sample_env 1000 "field-staff" "supervisor" 40 issue)
  = Some 40%nat.
Proof.
  refine (proj1 (proj2
    (escalateIssue_moves_and_notifies_all sample_env 1000 1
       (Issue.set_escalationDeadline (Val 500)
          (Issue.set_assignedRole (Val "field-staff"%string) (reported_issue 0)))
       (sample_world
          (Issue.set_escalationDeadline (Val 500)
             (Issue.set_assignedRole (Val "field-staff"%string)
                (reported_issue 0))))
       "field-staff" "supervisor"
       (40%nat, staff "supervisor" ["All"%string]) [] _ _ _ _ _)));
    reflexivity.
Defined.

(** Nobody to escalate to.  When the role of the issue is outside the
    hierarchy, or at its top, or when the directory has no active staff for
    the next role, [escalateIssue] returns [null] without throwing: the
    loaded document and the world are unchanged. *)
Theorem escalateIssue_without_target_is_noop
    (E : Env) (now : Date) (id : ObjectId) (issue : Issue.t) (w : World)
    (current : string) :
  Issue.assignedRole issue = Val current ->
  current <> ""%string ->
  (forall next, nextRoleOf current = Some next ->
     findAllUsersForRole (users w) next (Issue.category issue) = []) ->
  escalateIssue E now id issue w = (inr (None, issue), w).
Proof.
  intros Hrole Hne Hnone. unfold escalateIssue. rewrite Hrole.
  cbn [field_value]. rewrite (truthy_string_Some current Hne). cbn [negb].
  destruct (nextRoleOf current) as [next|] eqn:Hnext; [|done].
  unfold bind, get_users. by rewrite (Hnone next eq_refl).
Qed.

Lemma escalateIssue_without_target_is_noop_witness :
  let issue :=
    Issue.set_assignedRole (Val "supervisor"%string) (reported_issue 0) in
  let w := set_users {[ 30%nat := officer.2 ]} (sample_world issue) in
  escalateIssue sample_env 1000 1 issue w = (inr (None, issue), w).
Proof.
  refine (escalateIssue_without_target_is_noop sample_env 1000 1
            (Issue.set_assignedRole (Val "supervisor"%string) (reported_issue 0))
            (set_users {[ 30%nat := officer.2 ]}
               (sample_world
                  (Issue.set_assignedRole (Val "supervisor"%string)
                     (reported_issue 0))))
            "supervisor" _ _ _).
  - reflexivity.
  - discriminate.
  - intros next Hnext. vm_compute in Hnext. injection Hnext as <-.
    reflexivity.
Defined.

(** *** What the sweep leaves alone *)

Lemma only_notifies_ret {A} (a : A) : only_notifies (ret a).
Proof. by intros w. Qed.

Lemma only_notifies_get_users : only_notifies get_users.
Proof. by intros w. Qed.

Lemma only_notifies_bind {A B} (m : M A) (k : A -> M B) :
  only_notifies m -> (forall a, only_notifies (k a)) ->
  only_notifies (bind m k).
Proof.
  intros Hm Hk w. unfold bind. specialize (Hm w).
  destruct (m w) as [[e|a] w']; simpl in *; [done|].
  by etrans; [|apply Hk].
Qed.

Lemma only_notifies_Issue_save E id issue : only_notifies (Issue_save E id issue).
Proof.
  intros w. unfold Issue_save. by destruct (Issue_save_error E id issue).
Qed.

Lemma only_notifies_notifyIssueAssignment E id r a :
  only_notifies (notifyIssueAssignment E id r a).
Proof.
  intros w. unfold notifyIssueAssignment.
  destruct (notify_error E (AssignmentNotice id r a)); simpl; [done|].
  by apply prefix_app_r.
Qed.

Lemma only_notifies_notifyAll E id rs a : only_notifies (notifyAll E id rs a).
Proof.
  induction rs as [|r rs IH]; intros w; [done|].
  rewrite notifyAll_cons.
  pose proof (only_notifies_notifyIssueAssignment E id r.1 a w) as H.
  destruct (notifyIssueAssignment E id r.1 a w) as [[e|[]] w']; simpl in *;
    by (etrans; [|apply IH]).
Qed.

Ltac only_notifies_step :=
  first
    [ apply only_notifies_ret
    | apply only_notifies_get_users
    | apply only_notifies_Issue_save
    | apply only_notifies_notifyIssueAssignment
    | apply only_notifies_notifyAll
    | apply only_notifies_bind; [|intros ?]
    | case_match ].

Lemma only_notifies_assignToFieldStaff E now id issue :
  only_notifies (assignToFieldStaff E now id issue).
Proof. unfold assignToFieldStaff. repeat only_notifies_step. Qed.

Lemma only_notifies_escalateIssue E now id issue :
  only_notifies (escalateIssue E now id issue).
Proof.
  unfold escalateIssue.
  repeat first [ apply only_notifies_assignToFieldStaff | only_notifies_step ].
Qed.

Lemma only_notifies_processIssue E now id issue :
  only_notifies (processIssue E now id issue).
Proof.
  unfold processIssue.
  repeat first [ apply only_notifies_assignToFieldStaff
               | apply only_notifies_escalateIssue
               | only_notifies_step ].
Qed.

Lemma sweepLoop_only_notifies E now l acc w :
  sent w `prefix_of` sent (sweepLoop E now l acc w).2.
Proof.
  revert acc w. induction l as [|issue rest IH]; intros acc w; simpl; [done|].
  pose proof (only_notifies_processIssue E now issue.1 issue.2 w) as H.
  destruct (processIssue E now issue.1 issue.2 w) as [[e|[entry|]] w'];
    simpl in *; by (etrans; [|apply IH]).
Qed.

Lemma sweepLoop_keeps_users E now l acc w :
  users (sweepLoop E now l acc w).2 = users w.
Proof.
  revert acc w. induction l as [|issue rest IH]; intros acc w; simpl; [done|].
  pose proof (touches_only_processIssue E now issue.1 issue.2 w) as [Hu _].
  destruct (processIssue E now issue.1 issue.2 w) as [[e|[entry|]] w'];
    simpl in *; by rewrite IH.
Qed.

(** The sweep changes no user, leaves every issue that it did not select
    as it was (and creates none), and only adds to the notifications
    sent. *)
Theorem checkAndEscalateIssues_frame (E : Env) (now : Date) (w : World) :
  let w' := (checkAndEscalateIssues E now w).2 in
  users w' = users w /\
  (forall j,
     (forall issue, issues w !! j = Some issue ->
        overdueFilter now issue = false) ->
     issues w' !! j = issues w !! j) /\
  sent w `prefix_of` sent w'.
Proof.
  unfold checkAndEscalateIssues. simpl.
  split; [|split].
  - apply sweepLoop_keeps_users.
  - intros j Hj. apply sweepLoop_frame.
    intros Hin. apply list_elem_of_fmap in Hin as ([j' issue] & -> & Hin).
    unfold overdueIssuesOf in Hin.
    apply list_elem_of_In, filter_In in Hin as [Hin Hsel].
    apply list_elem_of_In, elem_of_map_to_list in Hin. simpl in *.
    by rewrite (Hj issue Hin) in Hsel.
  - apply sweepLoop_only_notifies.
Qed.

(** *** Where the sweep moves issues *)

(** The role derived for a never-assigned issue depends on its age only:
    commissioner from ten minutes on, supervisor from five minutes on,
    field-staff below, whatever the priority. *)
Theorem targetRoleOf_depends_on_age_only (priority : string) (issueAge : Z) :
  targetRoleOf priority (hoursOld issueAge) =
  if 10 * 60 * 1000 <=? issueAge then "commissioner"%string
  else if 5 * 60 * 1000 <=? issueAge then "supervisor"%string
  else "field-staff"%string.
Proof. apply targetRoleOf_age. Qed.

Lemma escalateIssue_toRole E now id issue w result issue' w' :
  truthy_string (field_value (Issue.assignedRole issue)) = true ->
  escalateIssue E now id issue w = (inr (Some result, issue'), w') ->
  toRole result = "supervisor"%string \/ toRole result = "commissioner"%string.
Proof.
  unfold escalateIssue. intros Htruthy.
  destruct (field_value (Issue.assignedRole issue)) as [current|]; [|done].
  rewrite Htruthy. cbn [negb].
  destruct (nextRoleOf current) as [next|] eqn:Hnext; [|by intros [= ]].
  apply nextRoleOf_spec in Hnext.
  unfold bind, get_users, ret, Issue_save.
  intros H. repeat case_match; simplify_eq; simpl;
    destruct Hnext as [[_ ->]|[_ ->]]; eauto.
Qed.

Lemma processIssue_movedTo E now id issue w entry w' :
  overdueFilter now issue = true ->
  processIssue E now id issue w = (inr (Some entry), w') ->
  movedTo entry = Some "supervisor"%string \/
  movedTo entry = Some "commissioner"%string.
Proof.
  intros Hsel. unfold processIssue.
  destruct (truthy_string (field_value (Issue.assignedRole issue))) eqn:Hrole;
    cbn [negb].
  - unfold bind. intros H.
    destruct (escalateIssue E now id issue w) as [[e|[[result|] issue']] w1]
      eqn:Hesc; simplify_eq.
    apply escalateIssue_toRole in Hesc; [|done].
    simpl in H. unfold ret in H. injection H as <- _. simpl.
    destruct Hesc as [-> | ->]; eauto.
  - apply overdueFilter_iff in Hsel as [_ Hsel].
    assert (exists created, Issue.createdAt issue = Some created /\
                            5 * 60 * 1000 <= now - created)
      as (created & Hcreated & Hage).
    { destruct Hsel as [H|[H|[H|H]]].
      - destruct H as [[Hr|Hr] _]; by rewrite Hr in Hrole.
      - destruct H as [[Hr|Hr] _]; by rewrite Hr in Hrole.
      - destruct H as [[Hr|Hr] _]; by rewrite Hr in Hrole.
      - destruct H as (_ & _ & c & Hc & Hle). exists c. split; [done|].
        unfold graceWindow in Hle. lia. }
    rewrite Hcreated. simpl. rewrite targetRoleOf_age.
    assert ((5 * 60 * 1000 <=? now - created) = true) as ->
      by (apply Z.leb_le; lia).
    unfold bind, get_users, ret, Issue_save.
    intros H. repeat case_match; simplify_eq; simpl; eauto.
Qed.

Lemma outcomes_elem E now l w o :
  o ∈ outcomes E now l w ->
  o.1 ∈ l /\ exists wk, o.2 = (processIssue E now o.1.1 o.1.2 wk).1.
Proof.
  revert w. induction l as [|issue rest IH]; intros w; simpl.
  - by intros ?%elem_of_nil.
  - intros [->|Hin]%elem_of_cons.
    + split; [left|]. simpl. eauto.
    + destruct (IH _ Hin) as [Hl Hwk]. split; [by right|done].
Qed.

(** The sweep never makes a first assignment.  Every success entry of its
    results reports a move to supervisor or to commissioner: an issue that
    was never assigned is selected only once it is five minutes old, and
    by then its derived role is past field-staff. *)
Theorem checkAndEscalateIssues_never_assigns_field_staff
    (E : Env) (now : Date) (w : World) (entry : ResultEntry) :
  entry ∈ results (checkAndEscalateIssues E now w).1 ->
  success entry = true ->
  movedTo entry = Some "supervisor"%string \/
  movedTo entry = Some "commissioner"%string.
Proof.
  unfold checkAndEscalateIssues. simpl. rewrite sweepLoop_results. simpl.
  intros Hin Hs. apply list_elem_of_omap in Hin as (o & Ho & Hentry).
  apply outcomes_elem in Ho as [Hl (wk & Hwk)].
  unfold overdueIssuesOf in Hl.
  apply list_elem_of_In, filter_In in Hl as [_ Hsel].
  unfold entry_of in Hentry. rewrite Hwk in Hentry.
  destruct (processIssue E now o.1.1 o.1.2 wk) as [[e|[entry'|]] w'] eqn:Hp;
    simpl in Hentry; simplify_eq; try done.
  by apply (processIssue_movedTo E now o.1.1 o.1.2 wk entry w').
Qed.

Lemma checkAndEscalateIssues_never_assigns_field_staff_witness :
  movedTo (Escalated 1 "Street light out" (Val "unassigned"%string)
             "commissioner")
  = Some "supervisor"%string \/
  movedTo (Escalated 1 "Street light out" (Val "unassigned"%string)
             "commissioner")
  = Some "commissioner"%string.
Proof.
  refine (checkAndEscalateIssues_never_assigns_field_staff sample_env 600000
            (sample_world (reported_issue 0))
            (Escalated 1 "Street light out" (Val "unassigned"%string)
               "commissioner") _ _).
  - vm_compute. left.
  - reflexivity.
Defined.

(** *** C6: what the sweep reports, and what it did *)










(** *** An empty directory *)

Lemma findUserForRole_head users role category :
  findUserForRole users role category
  = head (findAllUsersForRole users role category).
Proof.
  unfold findUserForRole, findAllUsersForRole, User_findOne.
  destruct (User_find _ users); simpl; [|done].
  by destruct (User_find _ users).
Qed.

Lemma processIssue_without_staff E now id issue w :
  (forall role category, role ∈ hierarchy ->
     findAllUsersForRole (users w) role category = []) ->
  processIssue E now id issue w = (inr None, w).
Proof.
  intros Hnone.
  assert (forall i, assignToFieldStaff E now id i w = (inr (None, i), w))
    as Hassign.
  { intros i. unfold assignToFieldStaff, bind, get_users.
    rewrite findUserForRole_head, Hnone; [done|]. left. }
  assert (forall i, exists i',
            escalateIssue E now id i w = (inr (None, i'), w)) as Hesc.
  { intros i. unfold escalateIssue.
    destruct (field_value (Issue.assignedRole i)) as [current|];
      [|rewrite Hassign; eauto].
    destruct (negb (truthy_string (Some current))); [rewrite Hassign; eauto|].
    destruct (nextRoleOf current) as [next|] eqn:Hnext; [|eauto].
    unfold bind, get_users. rewrite Hnone; [eauto|].
    apply nextRoleOf_spec in Hnext as [[_ ->]|[_ ->]]; unfold hierarchy;
      by repeat constructor. }
  unfold processIssue.
  destruct (negb (truthy_string (field_value (Issue.assignedRole issue)))).
  - rewrite targetRoleOf_age.
    destruct (10 * 60 * 1000 <=? _); [|destruct (5 * 60 * 1000 <=? _)]; simpl.
    + unfold bind, get_users. rewrite Hnone; [done|].
      unfold hierarchy. by repeat constructor.
    + unfold bind, get_users. rewrite Hnone; [done|].
      unfold hierarchy. by repeat constructor.
    + unfold bind. by rewrite Hassign.
  - unfold bind. destruct (Hesc issue) as [i' ->]. done.
Qed.

(** With no active staff in any of the three roles, the sweep changes
    nothing and reports nothing, however many issues are overdue: checked
    counts the selected issues, escalated and failed are zero. *)
Theorem checkAndEscalateIssues_without_staff
    (E : Env) (now : Date) (w : World) :
  (forall role category, role ∈ hierarchy ->
     findAllUsersForRole (users w) role category = []) ->
  checkAndEscalateIssues E now w =
  ({| checked := length (overdueIssuesOf now w); escalated := 0; failed := 0;
      results := [] |}, w).
Proof.
  intros Hnone. unfold checkAndEscalateIssues.
  assert (forall l, sweepLoop E now l [] w = ([], w)) as ->; [|done].
  induction l as [|issue rest IH]; simpl; [done|].
  by rewrite (processIssue_without_staff E now issue.1 issue.2 w Hnone).
Qed.

Lemma checkAndEscalateIssues_without_staff_witness :
  let w := set_users {[ 100%nat := citizen ]} (sample_world (reported_issue 0)) in
  checkAndEscalateIssues sample_env 600000 w =
  ({| checked := length (overdueIssuesOf 600000 w); escalated := 0;
      failed := 0; results := [] |}, w).
Proof.
  refine (checkAndEscalateIssues_without_staff sample_env 600000
            (set_users {[ 100%nat := citizen ]}
               (sample_world (reported_issue 0))) _).
  intros role category Hrole. unfold hierarchy in Hrole.
  repeat (apply elem_of_cons in Hrole as [->|Hrole]; [reflexivity|]).
  by apply elem_of_nil in Hrole.
Defined.

(** *** [manualEscalate] *)

(** A manual escalation either throws before it writes anything, or moves
    the issue.  On an unknown id it throws "Issue not found"; when the
    directory has nobody for the requested role it throws "No <role> found
    for category <category>"; in both cases the world is unchanged.
    Otherwise, when neither the saves nor the notification throw, the
    issue is stored as the Issue model's [escalate] left it with
    assignedTo the staff member found and assignedBy the caller, no user
    is changed and exactly one notification goes to that staff member.
    The current role of the issue is not looked at. *)
Theorem manualEscalate_outcomes
    (E : Env) (now : Date) (id : ObjectId) (toRole : string)
    (escalatedBy : ObjectId) (reason : string) (w : World) :
  let out := manualEscalate E now id toRole escalatedBy reason w in
  (issues w !! id = None -> out = (inl "Issue not found"%string, w)) /\
  (forall issue,
     issues w !! id = Some issue ->
     findUserForRole (users w) toRole (Issue.category issue) = None ->
     out = (inl ("No " ++ toRole ++ " found for category "
                 ++ Issue.category issue)%string, w)) /\
  (forall issue assignedUser,
     issues w !! id = Some issue ->
     findUserForRole (users w) toRole (Issue.category issue)
       = Some assignedUser ->
     (forall d, Issue_save_error E id d = None) ->
     notify_error E (AssignmentNotice id assignedUser.1 escalatedBy) = None ->
     let stored :=
       Issue.set_assignedBy (Some escalatedBy)
         (Issue.set_assignedTo (Some assignedUser.1)
            (Issue_escalate E now toRole escalatedBy reason issue)) in
     out =
     (inr (stored, assignedUser),
      {| issues := <[id := stored]> (issues w);
         users := users w;
         sent := sent w ++ [AssignmentNotice id assignedUser.1 escalatedBy] |})).
Proof.
  unfold manualEscalate, bind, get_issues, get_users, throw.
  split; [by intros ->|]. split.
  - intros issue -> ->. done.
  - intros issue assignedUser -> -> Hsave Hnotify. simpl.
    unfold Issue_save, notifyIssueAssignment. rewrite !Hsave. simpl.
    rewrite Hnotify. unfold ret, set_sent, set_issues. simpl.
    by rewrite insert_insert_eq.
Qed.

(** *** The escalation job *)

Lemma jobRun_inv events :
  (inFlight (jobRun events newJob) <= 1)%nat /\
  (isRunning (jobRun events newJob) = true
   <-> inFlight (jobRun events newJob) = 1%nat).
Proof.
  unfold jobRun.
  assert (forall j,
            (inFlight j <= 1)%nat /\ (isRunning j = true <-> inFlight j = 1%nat) ->
            (inFlight (foldl (fun j e => (jobStep e j).2) j events) <= 1)%nat /\
            (isRunning (foldl (fun j e => (jobStep e j).2) j events) = true
             <-> inFlight (foldl (fun j e => (jobStep e j).2) j events) = 1%nat))
    as H.
  { induction events as [|e events IH]; intros j Hj; [done|].
    simpl. apply IH. destruct Hj as [Hle Hiff].
    destruct e, j as [[] sch n]; simpl in *;
      repeat case_match; simpl; split; try split; intros; try lia; try done;
      try (destruct Hiff as [H1 H2]; specialize (H1 eq_refl); lia);
      try (destruct Hiff as [H1 H2]; simplify_eq; lia).
    all: try (destruct Hiff as [H1 H2]; apply H2; lia).
    all: try (destruct Hiff as [H1 H2];
              assert (false = true) by (apply H2; lia); done). }
  apply H. simpl. split; [lia|]. split; [done|lia].
Qed.

(** Checks never overlap.  Whatever sequence of starts, stops, ticks,
    manual runs and check endings the job goes through, at most one check
    is in flight, and [isRunning] says whether one is; while one is, a
    tick is skipped and a manual run throws "already in progress", and
    neither changes the job. *)
Theorem jobRun_one_check_at_a_time (events : list JobEvent) :
  let j := jobRun events newJob in
  (inFlight j <= 1)%nat /\
  (isRunning j = true <-> inFlight j = 1%nat) /\
  (inFlight j = 1%nat ->
   (scheduled j = true -> jobStep Tick j = (Skipped, j)) /\
   jobStep RunNow j = (AlreadyInProgress, j)).
Proof.
  intros j. destruct (jobRun_inv events) as [Hle Hiff]. fold j in Hle, Hiff.
  split; [done|]. split; [done|].
  intros Hin. apply Hiff in Hin. simpl. rewrite Hin.
  split; [by intros ->|done].
Qed.

(** *** [listAssignedIssues]: who is shown what *)

Lemma string_in_filter_eqb (v c : string) (l : list string) :
  string_in v (List.filter (fun x => (x =? c)%string) l)
  = string_in v l && (v =? c)%string.
Proof.
  unfold string_in. induction l as [|x l IH]; simpl; [done|].
  destruct (String.eqb_spec x c) as [->|Hx]; simpl; rewrite IH;
    destruct (String.eqb_spec v c) as [->|Hv];
    destruct (existsb (String.eqb _) l); simpl;
    rewrite ?orb_true_r, ?orb_false_r, ?andb_true_r, ?andb_false_r,
      ?String.eqb_refl; try done.
  by destruct (String.eqb_spec c x); [subst|].
Qed.

Lemma roleFilter_cases (user : doc User.t) :
  roleFilter user
  = match levelOf (User.role user.2) with
    | Some level =>
        {| f_or :=
             Some [assignedToUser user.1;
                   baseCondition level (heldToDepartments user.2)
                     (userDepartments user.2)];
           f_assignedTo := None; f_status := None; f_category := None;
           f_priority := None |}
    | None =>
        {| f_or := None; f_assignedTo := Some user.1; f_status := None;
           f_category := None; f_priority := None |}
    end.
Proof.
  destruct user as [userId u].
  unfold roleFilter, levelOf, heldToDepartments, employeeRoles, string_in.
  cbn [fst snd existsb].
  destruct (User.role u =? "field-staff")%string eqn:Hf;
    destruct (User.role u =? "employee")%string eqn:He;
    destruct (User.role u =? "supervisor")%string eqn:Hs;
    destruct (User.role u =? "commissioner")%string eqn:Hc;
    cbn [orb andb negb];
    repeat match goal with
      | H : (_ =? _)%string = true |- _ => apply String.eqb_eq in H
      end;
    try congruence;
    destruct (is_empty (userDepartments u)),
      (existsb (String.eqb "All") (userDepartments u)); reflexivity.
Qed.

Lemma listFilter_visible (user : doc User.t) (q : ListQuery) (i : Issue.t) :
  filter_matches (listFilter user q) i = visible user q i.
Proof.
  unfold listFilter, visible, waitingAtLevel, asked.
  rewrite roleFilter_cases.
  destruct user as [userId u], q as [pg lim qs qc qp].
  cbn [fst snd query_status query_category query_priority].
  unfold withPriority, withCategory, withStatus, narrowCategory,
    baseCondition, assignedToUser.
  destruct (levelOf (User.role u)) as [level|],
    (given qs) as [s|], (given qc) as [c|], (given qp) as [p|],
    (heldToDepartments u);
    cbn [f_or f_assignedTo f_status f_category f_priority map
         c_assignedTo c_assignedRole c_unassigned c_category c_status];
    unfold filter_matches, condition_matches, id_matches, string_matches;
    cbn [f_or f_assignedTo f_status f_category f_priority existsb
         c_assignedTo c_assignedRole c_unassigned c_category c_status];
    rewrite ?string_in_filter_eqb;
    destruct (Issue.assignedTo i) as [a|];
    repeat match goal with
      | |- context [?x && true] => rewrite (andb_true_r x)
      | |- context [?x && false] => rewrite (andb_false_r x)
      | |- context [?x || false] => rewrite (orb_false_r x)
      | |- context [?x || true] => rewrite (orb_true_r x)
      end;
    cbn [negb andb orb];
    try reflexivity.
  all: repeat match goal with
    | |- context [(?x =? ?y)%nat] => destruct (x =? y)%nat
    | |- context [(?x =? ?y)%string] => destruct (x =? y)%string
    | |- context [q_in ?x ?y] => destruct (q_in x y)
    | |- context [string_in ?x ?y] => destruct (string_in x y)
    | |- context [Issue.priority ?i] => destruct (Issue.priority i)
    end; reflexivity.
Qed.

Lemma Issue_find_sorted_elem (f : ListFilter) (w : World) (d : doc Issue.t) :
  d ∈ Issue_find_sorted f w
  <-> issues w !! d.1 = Some d.2 /\ filter_matches f d.2 = true.
Proof.
  unfold Issue_find_sorted. rewrite (sort_by_perm listing_le).
  rewrite list_elem_of_In, filter_In, <- list_elem_of_In.
  destruct d as [k v]. by rewrite elem_of_map_to_list.
Qed.

Lemma listed_elem (user : doc User.t) (q : ListQuery) (w : World)
    (d : doc Issue.t) :
  d ∈ listed (listAssignedIssues user q w) ->
  issues w !! d.1 = Some d.2 /\ visible user q d.2 = true.
Proof.
  unfold listAssignedIssues; cbn [listed]. intros Hd.
  eapply elem_of_sublist in Hd;
    [|etrans; [apply sublist_take|apply sublist_drop]].
  apply Issue_find_sorted_elem in Hd.
  by rewrite listFilter_visible in Hd.
Qed.

(** The listing shows visible issues only, and counts all of them.  Every
    issue on a page is stored and is visible to the caller: it is assigned
    to the caller or, for a staff role, it is unassigned and waits at the
    level of that role (field-staff for the roles field-staff and
    employee), within the caller's departments where the role is held to
    them; its status is the one asked for, or one of reported, in-progress
    and escalated when none (or 'all') is asked for; its category and
    its priority are the ones asked for, issues assigned to the caller
    included.  [totalItems] is the number of stored issues that are
    visible in this sense. *)
Theorem listAssignedIssues_shows_the_visible_issues
    (user : doc User.t) (q : ListQuery) (w : World) :
  (forall d, d ∈ listed (listAssignedIssues user q w) ->
     issues w !! d.1 = Some d.2 /\ visible user q d.2 = true) /\
  totalItems (listAssignedIssues user q w)
  = length (List.filter (fun d => visible user q d.2)
              (map_to_list (issues w))).
Proof.
  split; [apply listed_elem|].
  unfold listAssignedIssues; cbn [totalItems]. f_equal.
  apply filter_ext. intros d. apply listFilter_visible.
Qed.

(** A resolved issue is listed only when the request names the status
    'resolved': not by default and not under status 'all', which lists
    what the default lists. *)
Theorem listAssignedIssues_resolved_only_on_request
    (user : doc User.t) (q : ListQuery) (w : World) (d : doc Issue.t) :
  d ∈ listed (listAssignedIssues user q w) ->
  Issue.status d.2 = "resolved" ->
  query_status q = Some "resolved"%string.
Proof.
  intros Hd Hs. apply listed_elem in Hd as [_ Hv].
  unfold visible in Hv. rewrite !andb_true_iff in Hv.
  destruct Hv as [[[_ Hst] _] _]. rewrite Hs in Hst.
  unfold given in Hst. destruct (query_status q) as [s|]; [|done].
  destruct (truthy_string (Some s) && negb (s =? "all")%string); [|done].
  by apply String.eqb_eq in Hst as <-.
Qed.

Lemma listAssignedIssues_resolved_only_on_request_witness :
  (4%nat, accepted_issue 40 "resolved")
    ∈ listed (listAssignedIssues (40%nat, staff "supervisor" ["Roads"])
                (status_query "resolved") listing_world)
  /\ query_status (status_query "resolved") = Some "resolved"%string.
Proof.
  assert (H : (4%nat, accepted_issue 40 "resolved")
                ∈ listed (listAssignedIssues
                            (40%nat, staff "supervisor" ["Roads"])
                            (status_query "resolved") listing_world)).
  { vm_compute. by repeat constructor. }
  split; [exact H|].
  exact (listAssignedIssues_resolved_only_on_request _ _ _ _ H eq_refl).
Defined.

(** A supervisor with at least one department is shown, besides the
    issues assigned to them, only unassigned supervisor-level issues
    whose category is literally one of their departments: the department
    'All' opens no other category to a supervisor (it does to field
    staff and to a commissioner). *)
Theorem listAssignedIssues_supervisor_within_departments
    (user : doc User.t) (q : ListQuery) (w : World) (d : doc Issue.t) :
  User.role user.2 = "supervisor" ->
  userDepartments user.2 <> [] ->
  d ∈ listed (listAssignedIssues user q w) ->
  Issue.assignedTo d.2 = Some user.1
  \/ Issue.assignedTo d.2 = None
     /\ Issue.assignedRole d.2 = Val "supervisor"%string
     /\ Issue.category d.2 ∈ userDepartments user.2.
Proof.
  intros Hrole Hdeps Hd. apply listed_elem in Hd as [_ Hv].
  unfold visible in Hv. rewrite !andb_true_iff, orb_true_iff in Hv.
  destruct Hv as [[[[Hmine|Hwait] _] _] _].
  - left. unfold id_matches in Hmine.
    destruct (Issue.assignedTo d.2) as [a|]; [|done].
    by apply Nat.eqb_eq in Hmine as ->.
  - right. unfold waitingAtLevel, heldToDepartments, levelOf in Hwait.
    assert (He : is_empty (userDepartments user.2) = false)
      by (by destruct (userDepartments user.2)).
    rewrite Hrole, He in Hwait. cbn in Hwait.
    destruct (Issue.assignedTo d.2); [done|].
    rewrite andb_true_iff in Hwait.
    destruct Hwait as [Hlevel Hcat]. split; [done|]. split.
    + unfold q_in in Hlevel. destruct (Issue.assignedRole d.2); try done.
      cbn in Hlevel. rewrite orb_false_r in Hlevel.
      by apply String.eqb_eq in Hlevel as ->.
    + unfold string_in in Hcat. apply existsb_exists in Hcat as (y & Hy & Heq).
      apply String.eqb_eq in Heq as ->. by apply list_elem_of_In.
Qed.

Lemma listAssignedIssues_supervisor_within_departments_witness :
  (1%nat, waiting_issue "supervisor" "Roads" "high" "escalated" 10)
    ∈ listed (listAssignedIssues (40%nat, staff "supervisor" ["All"; "Roads"])
                plain_query listing_world)
  /\ (Issue.assignedTo (waiting_issue "supervisor" "Roads" "high" "escalated" 10)
      = Some 40%nat
      \/ Issue.assignedTo
           (waiting_issue "supervisor" "Roads" "high" "escalated" 10) = None
         /\ Issue.assignedRole
              (waiting_issue "supervisor" "Roads" "high" "escalated" 10)
            = Val "supervisor"%string
         /\ "Roads"%string ∈ ["All"; "Roads"]%string).
Proof.
  assert (H : (1%nat, waiting_issue "supervisor" "Roads" "high" "escalated" 10)
                ∈ listed (listAssignedIssues
                            (40%nat, staff "supervisor" ["All"; "Roads"])
                            plain_query listing_world)).
  { vm_compute. by repeat constructor. }
  split; [exact H|].
  refine (listAssignedIssues_supervisor_within_departments
            (40%nat, staff "supervisor" ["All"; "Roads"]) plain_query
            listing_world _ eq_refl _ H).
  discriminate.
Defined.

Lemma Issue_find_sorted_length (f : ListFilter) (w : World) :
  length (Issue_find_sorted f w)
  = length (List.filter (fun d => filter_matches f d.2)
              (map_to_list (issues w))).
Proof.
  unfold Issue_find_sorted. by rewrite (sort_by_perm listing_le).
Qed.

Lemma ceil_div_le (total limit p : nat) :
  (0 < limit)%nat -> (0 < p)%nat ->
  (p <= ceil_div total limit)%nat <-> ((p - 1) * limit < total)%nat.
Proof.
  intros Hl Hp. unfold ceil_div. split; intros H.
  - assert (limit * ((total + limit - 1) / limit) <= total + limit - 1)%nat
      by (apply Nat.Div0.mul_div_le). nia.
  - apply Nat.div_le_lower_bound; nia.
Qed.

(** The page of the answer.  The page number and the page size are at
    least 1; the page holds min(itemsPerPage, totalItems - (currentPage -
    1) * itemsPerPage) issues; and it is non-empty exactly when
    currentPage <= totalPages. *)
Theorem listAssignedIssues_pagination
    (user : doc User.t) (q : ListQuery) (w : World) :
  let L := listAssignedIssues user q w in
  (1 <= currentPage L)%nat /\ (1 <= itemsPerPage L)%nat /\
  length (listed L)
  = Nat.min (itemsPerPage L)
      (totalItems L - (currentPage L - 1) * itemsPerPage L) /\
  (listed L <> [] <-> (currentPage L <= totalPages L)%nat).
Proof.
  cbn zeta. unfold listAssignedIssues.
  cbn [listed currentPage itemsPerPage totalItems totalPages].
  assert (Hp : (1 <= pageOf q)%nat) by (unfold pageOf; lia).
  assert (Hl : (1 <= limitOf q)%nat) by (unfold limitOf; lia).
  assert (Hlen : length (take (limitOf q)
                           (drop (skipOf q)
                              (Issue_find_sorted (listFilter user q) w)))
                 = Nat.min (limitOf q)
                     (length (List.filter
                                (fun d => filter_matches (listFilter user q) d.2)
                                (map_to_list (issues w)))
                      - (pageOf q - 1) * limitOf q)).
  { by rewrite length_take, length_drop, Issue_find_sorted_length. }
  split; [done|]. split; [done|]. split; [done|].
  rewrite ceil_div_le by lia.
  rewrite <- length_zero_iff_nil, Hlen. lia.
Qed.

(** *** The order of the listing *)

Section CompareOption.
Context {A : Type} (cmp : A -> A -> comparison) (lt : A -> A -> Prop).
Context (lt_strict : StrictOrder lt).
Context (cmp_spec : forall x y, CompareSpec (x = y) (lt x y) (lt y x) (cmp x y)).

Lemma compare_option_spec (a b : option A) :
  CompareSpec (a = b) (option_lt lt a b) (option_lt lt b a)
    (compare_option cmp a b).
Proof using cmp_spec.
  destruct a as [x|], b as [y|]; simpl; try by constructor.
  destruct (cmp_spec x y); constructor; by subst.
Qed.

Lemma option_lt_irrefl (a : option A) : ~ option_lt lt a a.
Proof using lt_strict.
  destruct a as [x|]; simpl; [apply irreflexivity, _|tauto].
Qed.

Lemma option_lt_trans (a b c : option A) :
  option_lt lt a b -> option_lt lt b c -> option_lt lt a c.
Proof using lt_strict.
  destruct a, b, c; simpl; try tauto. apply transitivity.
Qed.

Lemma compare_option_Lt (a b : option A) :
  compare_option cmp a b = Lt <-> option_lt lt a b.
Proof using lt_strict cmp_spec.
  destruct (compare_option_spec a b) as [->|H|H]; split; try done.
  - intros H. by apply option_lt_irrefl in H.
  - intros H'. destruct (option_lt_irrefl a). by eapply option_lt_trans.
Qed.

Lemma compare_option_Eq (a b : option A) :
  compare_option cmp a b = Eq <-> a = b.
Proof using lt_strict cmp_spec.
  destruct (compare_option_spec a b) as [->|H|H]; split; try done.
  - intros ->. by apply option_lt_irrefl in H.
  - intros ->. by apply option_lt_irrefl in H.
Qed.

Lemma compare_option_Gt (a b : option A) :
  compare_option cmp a b = Gt <-> option_lt lt b a.
Proof using lt_strict cmp_spec.
  destruct (compare_option_spec a b) as [->|H|H]; split; try done.
  - intros H. by apply option_lt_irrefl in H.
  - intros H'. destruct (option_lt_irrefl a). by eapply option_lt_trans.
Qed.
End CompareOption.

Lemma listing_le_spec (a b : doc Issue.t) :
  listing_le a b = true
  <-> priority_lt (Issue.priority b.2) (Issue.priority a.2)
      \/ Issue.priority a.2 = Issue.priority b.2
         /\ ~ created_lt (Issue.createdAt a.2) (Issue.createdAt b.2).
Proof.
  unfold listing_le, priority_lt, created_lt.
  pose proof (compare_option_spec _ _ OrdersEx.String_as_OT.compare_spec
                (Issue.priority b.2) (Issue.priority a.2)) as Hp.
  pose proof (compare_option_Gt _ _ Z.lt_strorder Z.compare_spec
                (Issue.createdAt b.2) (Issue.createdAt a.2)) as Hc.
  pose proof (option_lt_irrefl _ OrdersEx.String_as_OT.lt_strorder) as Hirr.
  pose proof (option_lt_trans _ OrdersEx.String_as_OT.lt_strorder) as Htr.
  destruct Hp as [Hp|Hp|Hp].
  - destruct (compare_option Z.compare _ _); split; try done;
      try (intros _; right; split; [done|]; intros H; apply Hc in H; done).
    intros [H|[_ H]]; [rewrite Hp in H; by apply Hirr in H|].
    destruct H. by apply Hc.
  - split; [by left|done].
  - split; [done|]. intros [H|[H _]].
    + destruct (Hirr (Issue.priority a.2)). by eapply Htr.
    + rewrite H in Hp. by apply Hirr in Hp.
Qed.

Lemma listing_le_total (a b : doc Issue.t) :
  listing_le a b = false -> listing_le b a = true.
Proof.
  intros H. apply listing_le_spec.
  assert (Hn : ~ listing_le a b = true) by (by rewrite H).
  rewrite listing_le_spec in Hn.
  pose proof (compare_option_spec _ _ OrdersEx.String_as_OT.compare_spec
                (Issue.priority a.2) (Issue.priority b.2)) as Hp.
  pose proof (compare_option_spec _ _ Z.compare_spec
                (Issue.createdAt a.2) (Issue.createdAt b.2)) as Hc.
  pose proof (option_lt_irrefl _ Z.lt_strorder) as Hirr.
  pose proof (option_lt_trans _ Z.lt_strorder) as Htr.
  fold priority_lt in Hp. fold created_lt in Hc, Hirr, Htr.
  destruct Hp as [Hp|Hp|Hp]; [|by left|tauto].
  right. split; [done|].
  destruct Hc as [Hc|Hc|Hc].
  - rewrite Hc in Hn |- *. destruct Hn. right. split; [done|apply Hirr].
  - intros H'. destruct (Hirr (Issue.createdAt a.2)). by eapply Htr.
  - destruct Hn. right. split; [done|]. intros H'.
    destruct (Hirr (Issue.createdAt a.2)). by eapply Htr.
Qed.

Lemma listing_le_trans (a b c : doc Issue.t) :
  listing_le a b = true -> listing_le b c = true -> listing_le a c = true.
Proof.
  rewrite !listing_le_spec.
  pose proof (option_lt_trans _ OrdersEx.String_as_OT.lt_strorder) as Htr.
  pose proof (compare_option_spec _ _ Z.compare_spec
                (Issue.createdAt a.2) (Issue.createdAt b.2)) as Hab.
  pose proof (compare_option_spec _ _ Z.compare_spec
                (Issue.createdAt b.2) (Issue.createdAt c.2)) as Hbc.
  pose proof (option_lt_trans _ Z.lt_strorder) as Htc.
  fold priority_lt in Htr. fold created_lt in Hab, Hbc, Htc.
  intros [H1|[H1 H1']] [H2|[H2 H2']].
  - left. by eapply Htr.
  - left. by rewrite <- H2.
  - left. by rewrite H1.
  - right. split; [congruence|]. intros H.
    destruct Hab as [Hab|Hab|Hab]; [|done|].
    + rewrite Hab in H. done.
    + destruct Hbc as [Hbc|Hbc|Hbc]; [|done|].
      * rewrite <- Hbc in H. 
        destruct (option_lt_irrefl _ Z.lt_strorder (Issue.createdAt a.2)).
        by eapply Htc.
      * destruct (option_lt_irrefl _ Z.lt_strorder (Issue.createdAt a.2)).
        eapply Htc; [exact H|]. by eapply Htc.
Qed.

Lemma Issue_find_sorted_sorted (f : ListFilter) (w : World) :
  StronglySorted (fun a b => listing_le a b = true) (Issue_find_sorted f w).
Proof.
  apply Sorted_StronglySorted.
  - intros a b c. apply listing_le_trans.
  - apply sort_by_Sorted, listing_le_total.
Qed.

(** The order on a page.  Of two issues on one page, the earlier one does
    not have the smaller priority, priorities compared as strings (a
    missing priority below every string), and among equal priorities it
    is not the older one.  So an issue of priority 'high' never stands
    before one of priority 'low', 'medium' or 'urgent'. *)
Theorem listAssignedIssues_order
    (user : doc User.t) (q : ListQuery) (w : World) (i j : nat)
    (a b : doc Issue.t) :
  (i < j)%nat ->
  listed (listAssignedIssues user q w) !! i = Some a ->
  listed (listAssignedIssues user q w) !! j = Some b ->
  ~ priority_lt (Issue.priority a.2) (Issue.priority b.2) /\
  (Issue.priority a.2 = Issue.priority b.2 ->
   ~ created_lt (Issue.createdAt a.2) (Issue.createdAt b.2)) /\
  (Issue.priority a.2 = Some "high"%string ->
   Issue.priority b.2 ∉ [Some "low"; Some "medium"; Some "urgent"]%string).
Proof.
  intros Hij Ha Hb.
  assert (Hle : listing_le a b = true).
  { unfold listAssignedIssues in Ha, Hb; cbn [listed] in Ha, Hb.
    apply lookup_take_Some in Ha as [Ha _], Hb as [Hb _].
    rewrite lookup_drop in Ha, Hb.
    eapply (StronglySorted_lookup (fun a b => listing_le a b = true) _
              (skipOf q + i) (skipOf q + j));
      [apply Issue_find_sorted_sorted|lia|done..]. }
  apply listing_le_spec in Hle.
  pose proof (option_lt_irrefl _ OrdersEx.String_as_OT.lt_strorder) as Hirr.
  pose proof (option_lt_trans _ OrdersEx.String_as_OT.lt_strorder) as Htr.
  fold priority_lt in Hirr, Htr.
  assert (Hp : ~ priority_lt (Issue.priority a.2) (Issue.priority b.2)).
  { intros H. destruct Hle as [Hle|[Hle _]].
    - destruct (Hirr (Issue.priority a.2)). by eapply Htr.
    - rewrite Hle in H. by apply Hirr in H. }
  split; [done|]. split.
  - intros Heq. destruct Hle as [Hle|[_ Hle]]; [|done].
    rewrite Heq in Hle. by apply Hirr in Hle.
  - intros Hhigh Hin. apply Hp. rewrite Hhigh.
    apply (compare_option_Lt OrdersEx.String_as_OT.compare _
             OrdersEx.String_as_OT.lt_strorder
             OrdersEx.String_as_OT.compare_spec).
    rewrite !elem_of_cons, elem_of_nil in Hin.
    by destruct Hin as [-> | [-> | [-> | []]]].
Qed.

Lemma listAssignedIssues_order_witness :
  listed (listAssignedIssues (40%nat, staff "supervisor" ["Roads"; "Water"])
            plain_query listing_world) !! 1%nat
  = Some (3%nat, waiting_issue "supervisor" "Water" "low" "escalated" 30)
  /\ listed (listAssignedIssues (40%nat, staff "supervisor" ["Roads"; "Water"])
               plain_query listing_world) !! 2%nat
     = Some (1%nat, waiting_issue "supervisor" "Roads" "high" "escalated" 10)
  /\ ~ priority_lt (Some "low"%string) (Some "high"%string).
Proof.
  split; [by vm_compute|]. split; [by vm_compute|].
  refine (proj1 (listAssignedIssues_order
                   (40%nat, staff "supervisor" ["Roads"; "Water"])
                   plain_query listing_world 1 2
                   (3%nat, waiting_issue "supervisor" "Water" "low" "escalated" 30)
                   (1%nat, waiting_issue "supervisor" "Roads" "high" "escalated" 10)
                   _ _ _)).
  - lia.
  - by vm_compute.
  - by vm_compute.
Defined.

(** *** [findUserForRole]: who is picked *)

Lemma User_find_head_least q users (u v : doc User.t) :
  head (User_find q users) = Some u -> v ∈ User_find q users ->
  (User.loginCount u.2 <= User.loginCount v.2)%Z.
Proof.
  intros Hu Hv.
  pose proof (Sorted_StronglySorted
                (fun a b c => sort_key_le_trans a b c)
                (User_find_Sorted q users)) as Hs.
  destruct (User_find q users) as [|x l]; [done|].
  injection Hu as ->. apply StronglySorted_inv in Hs as [_ Hall].
  apply elem_of_cons in Hv as [->|Hv]; [lia|].
  rewrite Forall_forall in Hall. apply Hall in Hv.
  unfold sort_key_le in Hv.
  rewrite orb_true_iff, andb_true_iff, Z.ltb_lt, Z.eqb_eq in Hv. lia.
Qed.

(** The staff member picked for an issue is one with the fewest logins:
    when [findUserForRole] finds somebody, that user is among the users
    [findAllUsersForRole] returns for the same role and category, and none
    of those has a smaller login count.  It finds nobody exactly when
    [findAllUsersForRole] returns no user. *)
Theorem findUserForRole_fewest_logins
    (users : gmap ObjectId User.t) (role category : string) :
  (forall u, findUserForRole users role category = Some u ->
     u ∈ findAllUsersForRole users role category /\
     forall v, v ∈ findAllUsersForRole users role category ->
       (User.loginCount u.2 <= User.loginCount v.2)%Z) /\
  (findUserForRole users role category = None
   <-> findAllUsersForRole users role category = []).
Proof.
  unfold findUserForRole, findAllUsersForRole, User_findOne.
  set (q1 := fun u => q_role role u && q_department_in category u).
  set (q2 := fun u => q_role role u && q_department_all u).
  destruct (User_find q1 users) as [|x1 l1] eqn:H1; simpl.
  - destruct (User_find q2 users) as [|x2 l2] eqn:H2; simpl.
    + split.
      * intros u Hu. split; [by apply head_Some_elem_of|].
        intros v Hv. by eapply User_find_head_least.
      * by destruct (User_find (q_role role) users).
    + split; [|done]. intros u [= <-]. split; [left|].
      intros v Hv. apply (User_find_head_least q2 users); by rewrite H2.
  - split; [|done]. intros u [= <-]. split; [left|].
    intros v Hv. apply (User_find_head_least q1 users); by rewrite H1.
Qed.
